(** * salary2445_bot: the deposit ledger of [main.py]

    A shallow embedding of the bot's helpers and handlers, as CPython
    3.11 runs them (Unicode 14.0.0):
    - [Unicode]: the character tables behind [str.lower], [str.isdigit],
      [int], [float] and the digit class of [re];
    - [Text]: Python [str] values as lists of code points, with the
      [strip], [lower], [int], [isdigit] and regular-expression uses of
      the source;
    - [Calendar]: [datetime.date] (proleptic Gregorian ordinals, weekday,
      [timedelta] arithmetic, comparison);
    - [Float64]: Python [float] as IEEE-754 binary64 on the standard
      library's [spec_float], with [float(text)] and true division;
    - [Bot]: the handlers of [main.py] in a state-and-exception monad over
      the ledger file, the conversation's [user_data] and the replies;
    - [Spec]: the notions in which the properties are stated.
    The properties follow, one module of facts per part of the bot.

    The handlers are run on new messages and commands, on a ledger file
    that is absent, undecodable or a list of deals, and with writes and
    replies that succeed. *)

From Stdlib Require Import ZArith List Bool Lia String Ascii QArith Qabs.
From Stdlib Require Import Floats.SpecFloat.
Import ListNotations.

Set Warnings "-register-all".

Local Open Scope Z_scope.

(** Division and remainder by constants are handed to [lia] through their
    Euclidean equations. *)
Ltac div_lia := Z.to_euclidean_division_equations; lia.

(* ================================================================== *)
(** ** Bounded search, used to settle finitely many cases by evaluation *)

Fixpoint forall_from (n : nat) (lo : Z) (p : Z -> bool) : bool :=
  match n with
  | O => true
  | S k => p lo && forall_from k (lo + 1) p
  end.

(** [p] holds on [0 <= z < n]. *)
Definition forall_below (n : Z) (p : Z -> bool) : bool :=
  forall_from (Z.to_nat n) 0 p.

(* ================================================================== *)
(** ** datetime.date *)

Module Calendar.

Record date := mkdate { year : Z; month : Z; day : Z }.

Definition MINYEAR : Z := 1.
Definition MAXYEAR : Z := 9999.

(** [_DAYS_IN_MONTH] and [_DAYS_BEFORE_MONTH], indexed by month number;
    entry 0 is the placeholder -1 of the library. *)
Definition DAYS_IN_MONTH : list Z :=
  [-1; 31; 28; 31; 30; 31; 30; 31; 31; 30; 31; 30; 31].
Definition DAYS_BEFORE_MONTH : list Z :=
  [-1; 0; 31; 59; 90; 120; 151; 181; 212; 243; 273; 304; 334].

Definition table (t : list Z) (i : Z) : Z := nth (Z.to_nat i) t 0.

Definition is_leap (y : Z) : bool :=
  (y mod 4 =? 0) && (negb (y mod 100 =? 0) || (y mod 400 =? 0)).

Definition days_before_year (y : Z) : Z :=
  let y := y - 1 in y * 365 + y / 4 - y / 100 + y / 400.

Definition days_in_month (y m : Z) : Z :=
  if (m =? 2) && is_leap y then 29 else table DAYS_IN_MONTH m.

Definition days_before_month (y m : Z) : Z :=
  table DAYS_BEFORE_MONTH m + (if (2 <? m) && is_leap y then 1 else 0).

Definition ymd2ord (y m d : Z) : Z :=
  days_before_year y + days_before_month y m + d.

Definition DI400Y : Z := 146097.
Definition DI100Y : Z := 36524.
Definition DI4Y : Z := 1461.
Definition MAXORDINAL : Z := 3652059.

(** [_ord2ymd]: the date of a proleptic Gregorian ordinal. *)
Definition ord2ymd (n : Z) : date :=
  let n := n - 1 in
  let n400 := n / DI400Y in
  let n := n mod DI400Y in
  let y := n400 * 400 + 1 in
  let n100 := n / DI100Y in
  let n := n mod DI100Y in
  let n4 := n / DI4Y in
  let n := n mod DI4Y in
  let n1 := n / 365 in
  let n := n mod 365 in
  let y := y + (n100 * 100 + n4 * 4 + n1) in
  if (n1 =? 4) || (n100 =? 4) then mkdate (y - 1) 12 31
  else
    let leapyear := (n1 =? 3) && (negb (n4 =? 24) || (n100 =? 3)) in
    let m := Z.shiftr (n + 50) 5 in
    let preceding :=
      table DAYS_BEFORE_MONTH m + (if (2 <? m) && leapyear then 1 else 0) in
    if n <? preceding then
      let m := m - 1 in
      let preceding :=
        preceding
        - (table DAYS_IN_MONTH m + (if (m =? 2) && leapyear then 1 else 0)) in
      mkdate y m (n - preceding + 1)
    else mkdate y m (n - preceding + 1).

(** [_check_date_fields]: what [date(y, m, d)] accepts. *)
Definition check_date_fields (y m d : Z) : bool :=
  (MINYEAR <=? y) && (y <=? MAXYEAR)
  && (1 <=? m) && (m <=? 12)
  && (1 <=? d) && (d <=? days_in_month y m).

Definition valid (x : date) : Prop :=
  check_date_fields (year x) (month x) (day x) = true.

(** [date(y, m, d)] for fields that fit a C int; [None] stands for the
    [ValueError]. *)
Definition new_date (y m d : Z) : option date :=
  if check_date_fields y m d then Some (mkdate y m d) else None.

(** The constructor converts its arguments to C ints first: a field
    outside their range raises [OverflowError] before any check. *)
Definition c_int (z : Z) : bool := (-2147483648 <=? z) && (z <=? 2147483647).

Definition toordinal (x : date) : Z := ymd2ord (year x) (month x) (day x).

Definition fromordinal (n : Z) : date := ord2ymd n.

Definition weekday (x : date) : Z := (toordinal x + 6) mod 7.

(** [date + timedelta(days=k)]; [None] stands for the [OverflowError]
    ("date value out of range"). *)
Definition add_days (x : date) (k : Z) : option date :=
  let o := toordinal x + k in
  if (0 <? o) && (o <=? MAXORDINAL) then Some (fromordinal o) else None.

(** [date - timedelta(days=k)] is [date + timedelta(days=-k)]. *)
Definition sub_days (x : date) (k : Z) : option date := add_days x (- k).

(** Dates compare as the tuples [(year, month, day)]. *)
Definition cmp (a b : date) : comparison :=
  match year a ?= year b with
  | Eq => match month a ?= month b with
          | Eq => day a ?= day b
          | c => c
          end
  | c => c
  end.

Definition eqb (a b : date) : bool :=
  match cmp a b with Eq => true | _ => false end.
Definition leb (a b : date) : bool :=
  match cmp a b with Gt => false | _ => true end.

(** The calendar order, by day number. *)
Definition le (a b : date) : Prop := toordinal a <= toordinal b.

Definition shift_years (k : Z) (x : date) : date :=
  mkdate (year x + k) (month x) (day x).

End Calendar.

(* ================================================================== *)
(** ** Character tables (Unicode 14.0.0) *)

Module Unicode.

(** The digits zero of the decimal digits (category Nd); the digits 1 to
    9 of a script follow its zero. *)
Definition DECIMAL_ZEROS : list Z :=
  [48; 1632; 1776; 1984; 2406; 2534; 2662; 2790; 2918; 3046; 3174; 3302;
   3430; 3558; 3664; 3792; 3872; 4160; 4240; 6112; 6160; 6470; 6608; 6784;
   6800; 6992; 7088; 7232; 7248; 42528; 43216; 43264; 43472; 43504; 43600;
   44016; 65296; 66720; 68912; 69734; 69872; 69942; 70096; 70384; 70736;
   70864; 71248; 71360; 71472; 71904; 72016; 72784; 73040; 73120; 92768;
   92864; 93008; 120782; 120792; 120802; 120812; 120822; 123200; 123632;
   125264; 130032].

(** The characters with a digit value that are no decimal digits (the
    superscripts, the circled digits and the like), as ranges. *)
Definition OTHER_DIGITS : list (Z * Z) :=
  [(178, 179); (185, 185); (4969, 4977); (6618, 6618); (8304, 8304);
   (8308, 8313); (8320, 8329); (9312, 9320); (9332, 9340); (9352, 9360);
   (9450, 9450); (9461, 9469); (9471, 9471); (10102, 10110); (10112, 10120);
   (10122, 10130); (68160, 68163); (69216, 69224); (69714, 69722);
   (127232, 127242)].

(** The lower-case mappings to one character: [(first, last, step,
    delta)] maps every [step]-th character from [first] to [last] to
    itself plus [delta]. *)
Definition LOWER : list (Z * Z * Z * Z) :=
  [(65, 90, 1, 32); (192, 214, 1, 32); (216, 222, 1, 32); (256, 302, 2, 1);
   (306, 310, 2, 1); (313, 327, 2, 1); (330, 374, 2, 1);
   (376, 376, 1, (-121)); (377, 381, 2, 1); (385, 385, 1, 210);
   (386, 388, 2, 1); (390, 390, 1, 206); (391, 391, 1, 1);
   (393, 394, 1, 205); (395, 395, 1, 1); (398, 398, 1, 79);
   (399, 399, 1, 202); (400, 400, 1, 203); (401, 401, 1, 1);
   (403, 403, 1, 205); (404, 404, 1, 207); (406, 406, 1, 211);
   (407, 407, 1, 209); (408, 408, 1, 1); (412, 412, 1, 211);
   (413, 413, 1, 213); (415, 415, 1, 214); (416, 420, 2, 1);
   (422, 422, 1, 218); (423, 423, 1, 1); (425, 425, 1, 218);
   (428, 428, 1, 1); (430, 430, 1, 218); (431, 431, 1, 1);
   (433, 434, 1, 217); (435, 437, 2, 1); (439, 439, 1, 219);
   (440, 440, 1, 1); (444, 444, 1, 1); (452, 452, 1, 2); (453, 453, 1, 1);
   (455, 455, 1, 2); (456, 456, 1, 1); (458, 458, 1, 2); (459, 475, 2, 1);
   (478, 494, 2, 1); (497, 497, 1, 2); (498, 500, 2, 1);
   (502, 502, 1, (-97)); (503, 503, 1, (-56)); (504, 542, 2, 1);
   (544, 544, 1, (-130)); (546, 562, 2, 1); (570, 570, 1, 10795);
   (571, 571, 1, 1); (573, 573, 1, (-163)); (574, 574, 1, 10792);
   (577, 577, 1, 1); (579, 579, 1, (-195)); (580, 580, 1, 69);
   (581, 581, 1, 71); (582, 590, 2, 1); (880, 882, 2, 1); (886, 886, 1, 1);
   (895, 895, 1, 116); (902, 902, 1, 38); (904, 906, 1, 37);
   (908, 908, 1, 64); (910, 911, 1, 63); (913, 929, 1, 32);
   (932, 939, 1, 32); (975, 975, 1, 8); (984, 1006, 2, 1);
   (1012, 1012, 1, (-60)); (1015, 1015, 1, 1); (1017, 1017, 1, (-7));
   (1018, 1018, 1, 1); (1021, 1023, 1, (-130)); (1024, 1039, 1, 80);
   (1040, 1071, 1, 32); (1120, 1152, 2, 1); (1162, 1214, 2, 1);
   (1216, 1216, 1, 15); (1217, 1229, 2, 1); (1232, 1326, 2, 1);
   (1329, 1366, 1, 48); (4256, 4293, 1, 7264); (4295, 4295, 1, 7264);
   (4301, 4301, 1, 7264); (5024, 5103, 1, 38864); (5104, 5109, 1, 8);
   (7312, 7354, 1, (-3008)); (7357, 7359, 1, (-3008)); (7680, 7828, 2, 1);
   (7838, 7838, 1, (-7615)); (7840, 7934, 2, 1); (7944, 7951, 1, (-8));
   (7960, 7965, 1, (-8)); (7976, 7983, 1, (-8)); (7992, 7999, 1, (-8));
   (8008, 8013, 1, (-8)); (8025, 8031, 2, (-8)); (8040, 8047, 1, (-8));
   (8072, 8079, 1, (-8)); (8088, 8095, 1, (-8)); (8104, 8111, 1, (-8));
   (8120, 8121, 1, (-8)); (8122, 8123, 1, (-74)); (8124, 8124, 1, (-9));
   (8136, 8139, 1, (-86)); (8140, 8140, 1, (-9)); (8152, 8153, 1, (-8));
   (8154, 8155, 1, (-100)); (8168, 8169, 1, (-8)); (8170, 8171, 1, (-112));
   (8172, 8172, 1, (-7)); (8184, 8185, 1, (-128)); (8186, 8187, 1, (-126));
   (8188, 8188, 1, (-9)); (8486, 8486, 1, (-7517));
   (8490, 8490, 1, (-8383)); (8491, 8491, 1, (-8262)); (8498, 8498, 1, 28);
   (8544, 8559, 1, 16); (8579, 8579, 1, 1); (9398, 9423, 1, 26);
   (11264, 11311, 1, 48); (11360, 11360, 1, 1); (11362, 11362, 1, (-10743));
   (11363, 11363, 1, (-3814)); (11364, 11364, 1, (-10727));
   (11367, 11371, 2, 1); (11373, 11373, 1, (-10780));
   (11374, 11374, 1, (-10749)); (11375, 11375, 1, (-10783));
   (11376, 11376, 1, (-10782)); (11378, 11378, 1, 1); (11381, 11381, 1, 1);
   (11390, 11391, 1, (-10815)); (11392, 11490, 2, 1); (11499, 11501, 2, 1);
   (11506, 11506, 1, 1); (42560, 42604, 2, 1); (42624, 42650, 2, 1);
   (42786, 42798, 2, 1); (42802, 42862, 2, 1); (42873, 42875, 2, 1);
   (42877, 42877, 1, (-35332)); (42878, 42886, 2, 1); (42891, 42891, 1, 1);
   (42893, 42893, 1, (-42280)); (42896, 42898, 2, 1); (42902, 42920, 2, 1);
   (42922, 42922, 1, (-42308)); (42923, 42923, 1, (-42319));
   (42924, 42924, 1, (-42315)); (42925, 42925, 1, (-42305));
   (42926, 42926, 1, (-42308)); (42928, 42928, 1, (-42258));
   (42929, 42929, 1, (-42282)); (42930, 42930, 1, (-42261));
   (42931, 42931, 1, 928); (42932, 42946, 2, 1); (42948, 42948, 1, (-48));
   (42949, 42949, 1, (-42307)); (42950, 42950, 1, (-35384));
   (42951, 42953, 2, 1); (42960, 42960, 1, 1); (42966, 42968, 2, 1);
   (42997, 42997, 1, 1); (65313, 65338, 1, 32); (66560, 66599, 1, 40);
   (66736, 66771, 1, 40); (66928, 66938, 1, 39); (66940, 66954, 1, 39);
   (66956, 66962, 1, 39); (66964, 66965, 1, 39); (68736, 68786, 1, 64);
   (71840, 71871, 1, 32); (93760, 93791, 1, 32); (125184, 125217, 1, 34)].

(** The characters with the property Case_Ignorable, as ranges. *)
Definition CASE_IGNORABLE : list (Z * Z) :=
  [(39, 39); (46, 46); (58, 58); (94, 94); (96, 96); (168, 168); (173, 173);
   (175, 175); (180, 180); (183, 184); (688, 879); (884, 885); (890, 890);
   (900, 901); (903, 903); (1155, 1161); (1369, 1369); (1375, 1375);
   (1425, 1469); (1471, 1471); (1473, 1474); (1476, 1477); (1479, 1479);
   (1524, 1524); (1536, 1541); (1552, 1562); (1564, 1564); (1600, 1600);
   (1611, 1631); (1648, 1648); (1750, 1757); (1759, 1768); (1770, 1773);
   (1807, 1807); (1809, 1809); (1840, 1866); (1958, 1968); (2027, 2037);
   (2042, 2042); (2045, 2045); (2070, 2093); (2137, 2139); (2184, 2184);
   (2192, 2193); (2200, 2207); (2249, 2306); (2362, 2362); (2364, 2364);
   (2369, 2376); (2381, 2381); (2385, 2391); (2402, 2403); (2417, 2417);
   (2433, 2433); (2492, 2492); (2497, 2500); (2509, 2509); (2530, 2531);
   (2558, 2558); (2561, 2562); (2620, 2620); (2625, 2626); (2631, 2632);
   (2635, 2637); (2641, 2641); (2672, 2673); (2677, 2677); (2689, 2690);
   (2748, 2748); (2753, 2757); (2759, 2760); (2765, 2765); (2786, 2787);
   (2810, 2815); (2817, 2817); (2876, 2876); (2879, 2879); (2881, 2884);
   (2893, 2893); (2901, 2902); (2914, 2915); (2946, 2946); (3008, 3008);
   (3021, 3021); (3072, 3072); (3076, 3076); (3132, 3132); (3134, 3136);
   (3142, 3144); (3146, 3149); (3157, 3158); (3170, 3171); (3201, 3201);
   (3260, 3260); (3263, 3263); (3270, 3270); (3276, 3277); (3298, 3299);
   (3328, 3329); (3387, 3388); (3393, 3396); (3405, 3405); (3426, 3427);
   (3457, 3457); (3530, 3530); (3538, 3540); (3542, 3542); (3633, 3633);
   (3636, 3642); (3654, 3662); (3761, 3761); (3764, 3772); (3782, 3782);
   (3784, 3789); (3864, 3865); (3893, 3893); (3895, 3895); (3897, 3897);
   (3953, 3966); (3968, 3972); (3974, 3975); (3981, 3991); (3993, 4028);
   (4038, 4038); (4141, 4144); (4146, 4151); (4153, 4154); (4157, 4158);
   (4184, 4185); (4190, 4192); (4209, 4212); (4226, 4226); (4229, 4230);
   (4237, 4237); (4253, 4253); (4348, 4348); (4957, 4959); (5906, 5908);
   (5938, 5939); (5970, 5971); (6002, 6003); (6068, 6069); (6071, 6077);
   (6086, 6086); (6089, 6099); (6103, 6103); (6109, 6109); (6155, 6159);
   (6211, 6211); (6277, 6278); (6313, 6313); (6432, 6434); (6439, 6440);
   (6450, 6450); (6457, 6459); (6679, 6680); (6683, 6683); (6742, 6742);
   (6744, 6750); (6752, 6752); (6754, 6754); (6757, 6764); (6771, 6780);
   (6783, 6783); (6823, 6823); (6832, 6862); (6912, 6915); (6964, 6964);
   (6966, 6970); (6972, 6972); (6978, 6978); (7019, 7027); (7040, 7041);
   (7074, 7077); (7080, 7081); (7083, 7085); (7142, 7142); (7144, 7145);
   (7149, 7149); (7151, 7153); (7212, 7219); (7222, 7223); (7288, 7293);
   (7376, 7378); (7380, 7392); (7394, 7400); (7405, 7405); (7412, 7412);
   (7416, 7417); (7468, 7530); (7544, 7544); (7579, 7679); (8125, 8125);
   (8127, 8129); (8141, 8143); (8157, 8159); (8173, 8175); (8189, 8190);
   (8203, 8207); (8216, 8217); (8228, 8228); (8231, 8231); (8234, 8238);
   (8288, 8292); (8294, 8303); (8305, 8305); (8319, 8319); (8336, 8348);
   (8400, 8432); (11388, 11389); (11503, 11505); (11631, 11631);
   (11647, 11647); (11744, 11775); (11823, 11823); (12293, 12293);
   (12330, 12333); (12337, 12341); (12347, 12347); (12441, 12446);
   (12540, 12542); (40981, 40981); (42232, 42237); (42508, 42508);
   (42607, 42610); (42612, 42621); (42623, 42623); (42652, 42655);
   (42736, 42737); (42752, 42785); (42864, 42864); (42888, 42890);
   (42994, 42996); (43000, 43001); (43010, 43010); (43014, 43014);
   (43019, 43019); (43045, 43046); (43052, 43052); (43204, 43205);
   (43232, 43249); (43263, 43263); (43302, 43309); (43335, 43345);
   (43392, 43394); (43443, 43443); (43446, 43449); (43452, 43453);
   (43471, 43471); (43493, 43494); (43561, 43566); (43569, 43570);
   (43573, 43574); (43587, 43587); (43596, 43596); (43632, 43632);
   (43644, 43644); (43696, 43696); (43698, 43700); (43703, 43704);
   (43710, 43711); (43713, 43713); (43741, 43741); (43756, 43757);
   (43763, 43764); (43766, 43766); (43867, 43871); (43881, 43883);
   (44005, 44005); (44008, 44008); (44013, 44013); (64286, 64286);
   (64434, 64450); (65024, 65039); (65043, 65043); (65056, 65071);
   (65106, 65106); (65109, 65109); (65279, 65279); (65287, 65287);
   (65294, 65294); (65306, 65306); (65342, 65342); (65344, 65344);
   (65392, 65392); (65438, 65439); (65507, 65507); (65529, 65531);
   (66045, 66045); (66272, 66272); (66422, 66426); (67456, 67461);
   (67463, 67504); (67506, 67514); (68097, 68099); (68101, 68102);
   (68108, 68111); (68152, 68154); (68159, 68159); (68325, 68326);
   (68900, 68903); (69291, 69292); (69446, 69456); (69506, 69509);
   (69633, 69633); (69688, 69702); (69744, 69744); (69747, 69748);
   (69759, 69761); (69811, 69814); (69817, 69818); (69821, 69821);
   (69826, 69826); (69837, 69837); (69888, 69890); (69927, 69931);
   (69933, 69940); (70003, 70003); (70016, 70017); (70070, 70078);
   (70089, 70092); (70095, 70095); (70191, 70193); (70196, 70196);
   (70198, 70199); (70206, 70206); (70367, 70367); (70371, 70378);
   (70400, 70401); (70459, 70460); (70464, 70464); (70502, 70508);
   (70512, 70516); (70712, 70719); (70722, 70724); (70726, 70726);
   (70750, 70750); (70835, 70840); (70842, 70842); (70847, 70848);
   (70850, 70851); (71090, 71093); (71100, 71101); (71103, 71104);
   (71132, 71133); (71219, 71226); (71229, 71229); (71231, 71232);
   (71339, 71339); (71341, 71341); (71344, 71349); (71351, 71351);
   (71453, 71455); (71458, 71461); (71463, 71467); (71727, 71735);
   (71737, 71738); (71995, 71996); (71998, 71998); (72003, 72003);
   (72148, 72151); (72154, 72155); (72160, 72160); (72193, 72202);
   (72243, 72248); (72251, 72254); (72263, 72263); (72273, 72278);
   (72281, 72283); (72330, 72342); (72344, 72345); (72752, 72758);
   (72760, 72765); (72767, 72767); (72850, 72871); (72874, 72880);
   (72882, 72883); (72885, 72886); (73009, 73014); (73018, 73018);
   (73020, 73021); (73023, 73029); (73031, 73031); (73104, 73105);
   (73109, 73109); (73111, 73111); (73459, 73460); (78896, 78904);
   (92912, 92916); (92976, 92982); (92992, 92995); (94031, 94031);
   (94095, 94111); (94176, 94177); (94179, 94180); (110576, 110579);
   (110581, 110587); (110589, 110590); (113821, 113822); (113824, 113827);
   (118528, 118573); (118576, 118598); (119143, 119145); (119155, 119170);
   (119173, 119179); (119210, 119213); (119362, 119364); (121344, 121398);
   (121403, 121452); (121461, 121461); (121476, 121476); (121499, 121503);
   (121505, 121519); (122880, 122886); (122888, 122904); (122907, 122913);
   (122915, 122916); (122918, 122922); (123184, 123197); (123566, 123566);
   (123628, 123631); (125136, 125142); (125252, 125259); (127995, 127999);
   (917505, 917505); (917536, 917631); (917760, 917999)].

(** The characters with the property Cased, as ranges. *)
Definition CASED : list (Z * Z) :=
  [(65, 90); (97, 122); (170, 170); (181, 181); (186, 186); (192, 214);
   (216, 246); (248, 442); (444, 447); (452, 659); (661, 696); (704, 705);
   (736, 740); (837, 837); (880, 883); (886, 887); (890, 893); (895, 895);
   (902, 902); (904, 906); (908, 908); (910, 929); (931, 1013);
   (1015, 1153); (1162, 1327); (1329, 1366); (1376, 1416); (4256, 4293);
   (4295, 4295); (4301, 4301); (4304, 4346); (4349, 4351); (5024, 5109);
   (5112, 5117); (7296, 7304); (7312, 7354); (7357, 7359); (7424, 7615);
   (7680, 7957); (7960, 7965); (7968, 8005); (8008, 8013); (8016, 8023);
   (8025, 8025); (8027, 8027); (8029, 8029); (8031, 8061); (8064, 8116);
   (8118, 8124); (8126, 8126); (8130, 8132); (8134, 8140); (8144, 8147);
   (8150, 8155); (8160, 8172); (8178, 8180); (8182, 8188); (8305, 8305);
   (8319, 8319); (8336, 8348); (8450, 8450); (8455, 8455); (8458, 8467);
   (8469, 8469); (8473, 8477); (8484, 8484); (8486, 8486); (8488, 8488);
   (8490, 8493); (8495, 8500); (8505, 8505); (8508, 8511); (8517, 8521);
   (8526, 8526); (8544, 8575); (8579, 8580); (9398, 9449); (11264, 11492);
   (11499, 11502); (11506, 11507); (11520, 11557); (11559, 11559);
   (11565, 11565); (42560, 42605); (42624, 42653); (42786, 42887);
   (42891, 42894); (42896, 42954); (42960, 42961); (42963, 42963);
   (42965, 42969); (42997, 42998); (43000, 43002); (43824, 43866);
   (43868, 43880); (43888, 43967); (64256, 64262); (64275, 64279);
   (65313, 65338); (65345, 65370); (66560, 66639); (66736, 66771);
   (66776, 66811); (66928, 66938); (66940, 66954); (66956, 66962);
   (66964, 66965); (66967, 66977); (66979, 66993); (66995, 67001);
   (67003, 67004); (67456, 67456); (67459, 67461); (67463, 67504);
   (67506, 67514); (68736, 68786); (68800, 68850); (71840, 71903);
   (93760, 93823); (119808, 119892); (119894, 119964); (119966, 119967);
   (119970, 119970); (119973, 119974); (119977, 119980); (119982, 119993);
   (119995, 119995); (119997, 120003); (120005, 120069); (120071, 120074);
   (120077, 120084); (120086, 120092); (120094, 120121); (120123, 120126);
   (120128, 120132); (120134, 120134); (120138, 120144); (120146, 120485);
   (120488, 120512); (120514, 120538); (120540, 120570); (120572, 120596);
   (120598, 120628); (120630, 120654); (120656, 120686); (120688, 120712);
   (120714, 120744); (120746, 120770); (120772, 120779); (122624, 122633);
   (122635, 122654); (125184, 125251); (127280, 127305); (127312, 127337);
   (127344, 127369)].

End Unicode.

(* ================================================================== *)
(** ** Python str *)

Module Text.
Import Unicode.

(** A [str] is its sequence of code points. *)
Definition char := Z.
Definition text := list char.

(** The code points of an ASCII literal. *)
Definition lit (s : string) : text :=
  map (fun a => Z.of_N (N_of_ascii a)) (list_ascii_of_string s).

Definition within (lo hi c : Z) : bool := (lo <=? c) && (c <=? hi).

Definition in_ranges (t : list (Z * Z)) (c : Z) : bool :=
  existsb (fun r => within (fst r) (snd r) c) t.

Fixpoint text_eqb (a b : text) : bool :=
  match a, b with
  | [], [] => true
  | x :: a', y :: b' => (x =? y) && text_eqb a' b'
  | _, _ => false
  end.

(** [str.isspace] of one character: the white space of Unicode. *)
Definition isspace (c : char) : bool :=
  within 9 13 c || within 28 32 c || (c =? 133) || (c =? 160)
  || (c =? 5760) || within 8192 8202 c || (c =? 8232) || (c =? 8233)
  || (c =? 8239) || (c =? 8287) || (c =? 12288).

Fixpoint lstrip (s : text) : text :=
  match s with
  | c :: s' => if isspace c then lstrip s' else s
  | [] => []
  end.

Definition rstrip (s : text) : text := rev (lstrip (rev s)).

(** [s.strip()] *)
Definition strip (s : text) : text := rstrip (lstrip s).

(** *** str.lower

    The lower case of one character where the context does not matter.
    U+0130 is the one character whose lower case has two characters. *)
Fixpoint lower_in (t : list (Z * Z * Z * Z)) (c : char) : option char :=
  match t with
  | [] => None
  | (lo, hi, step, delta) :: t' =>
      if within lo hi c && ((c - lo) mod step =? 0) then Some (c + delta)
      else lower_in t' c
  end.

Definition lower_char (c : char) : text :=
  if c =? 304 then [105; 775]
  else match lower_in LOWER c with Some x => [x] | None => [c] end.

Definition case_ignorable (c : char) : bool := in_ranges CASE_IGNORABLE c.
Definition cased (c : char) : bool := in_ranges CASED c.

(** The first character of a text that is not case-ignorable. *)
Fixpoint skip_ignorable (s : text) : option char :=
  match s with
  | [] => None
  | c :: s' => if case_ignorable c then skip_ignorable s' else Some c
  end.

(** A capital sigma is in final position when a cased character stands
    before it and none behind it, case-ignorable characters skipped on
    both sides. [before] is the text before the sigma, its last character
    first. *)
Definition final_sigma (before after : text) : bool :=
  match skip_ignorable before with
  | Some c =>
      cased c
      && match skip_ignorable after with
         | Some d => negb (cased d)
         | None => true
         end
  | None => false
  end.

(** The lower case of the character [c] between [before] (last character
    first) and [after]; U+03A3 is the capital sigma. *)
Definition lower_at (before : text) (c : char) (after : text) : text :=
  if c =? 931 then [if final_sigma before after then 962 else 963]
  else lower_char c.

Fixpoint lower_from (before s : text) : text :=
  match s with
  | [] => []
  | c :: s' => lower_at before c s' ++ lower_from (c :: before) s'
  end.

(** [s.lower()] *)
Definition lower (s : text) : text := lower_from [] s.

(** *** Digits

    [Py_UNICODE_TODECIMAL]: the value of a decimal digit of any script.
    These are the characters that [\d] matches and that [int] and
    [float] read as digits. *)
Definition to_decimal (c : char) : option Z :=
  match find (fun z => within z (z + 9) c) DECIMAL_ZEROS with
  | Some z => Some (c - z)
  | None => None
  end.

Definition is_decimal (c : char) : bool :=
  match to_decimal c with Some _ => true | None => false end.

Definition decimal_value (c : char) : Z :=
  match to_decimal c with Some v => v | None => 0 end.

(** [Py_UNICODE_ISDIGIT]: the decimal digits and the other characters
    with a digit value. *)
Definition is_digit (c : char) : bool :=
  is_decimal c || in_ranges OTHER_DIGITS c.

(** [s.isdigit()] *)
Definition isdigit (s : text) : bool :=
  match s with
  | [] => false
  | _ => forallb is_digit s
  end.

(** [s.replace(",", ".")] *)
Definition replace_comma (s : text) : text :=
  map (fun c => if c =? 44 then 46 else c) s.

(** *** What the parsers of [int] and [float] see

    [_PyUnicode_TransformDecimalAndSpaceToASCII]: an ASCII text is taken
    as it is; in another text the white space of Unicode becomes a space
    and a decimal digit the ASCII digit of its value, and the text is cut
    with a "?" at the first other character from U+007F on. *)
Fixpoint transform (s : text) : text :=
  match s with
  | [] => []
  | c :: s' =>
      if c <? 127 then c :: transform s'
      else if isspace c then 32 :: transform s'
      else match to_decimal c with
           | Some v => (48 + v) :: transform s'
           | None => [63]
           end
  end.

Definition to_ascii (s : text) : text :=
  if forallb (fun c => c <? 128) s then s else transform s.

(** [Py_ISSPACE], the white space that the parsers skip at both ends. *)
Definition isspace_c (c : char) : bool := within 9 13 c || (c =? 32).

Fixpoint ltrim (s : text) : text :=
  match s with
  | c :: s' => if isspace_c c then ltrim s' else s
  | [] => []
  end.

Definition trim (s : text) : text := rev (ltrim (rev (ltrim s))).

(** [Py_ISDIGIT]: the digits 0-9 of the transformed text. *)
Definition isdigit_char (c : char) : bool := within 48 57 c.

Definition digit_value (c : char) : Z := c - 48.

(** A digit part of a Python numeric literal: digits, single underscores
    allowed between two digits. [digitpart s] reads the longest one at
    the head of [s] and returns its digits (most significant first) with
    the rest of the text; [None] when [s] starts with no digit. *)
Fixpoint digitpart_rest (acc : list Z) (s : text) : list Z * text :=
  match s with
  | c :: s' =>
      if isdigit_char c then digitpart_rest (digit_value c :: acc) s'
      else if c =? 95 then
        match s' with
        | d :: s'' =>
            if isdigit_char d then digitpart_rest (digit_value d :: acc) s''
            else (rev acc, s)
        | [] => (rev acc, s)
        end
      else (rev acc, s)
  | [] => (rev acc, [])
  end.

Definition digitpart (s : text) : option (list Z * text) :=
  match s with
  | c :: s' =>
      if isdigit_char c then Some (digitpart_rest [digit_value c] s')
      else None
  | [] => None
  end.

Definition of_digits (ds : list Z) : Z :=
  fold_left (fun n d => 10 * n + d) ds 0.

(** An optional sign: [true] for "-". *)
Definition sign (s : text) : bool * text :=
  match s with
  | c :: s' => if c =? 45 then (true, s')
               else if c =? 43 then (false, s') else (false, s)
  | [] => (false, [])
  end.

(** The most digits that [int] converts
    ([sys.int_info.default_max_str_digits]); the bot leaves the limit as
    the interpreter sets it. *)
Definition MAX_STR_DIGITS : Z := 4300.

(** [int(s)] in base 10; [None] stands for the [ValueError], which a
    text of more than [MAX_STR_DIGITS] digits raises as well. *)
Definition py_int (s : text) : option Z :=
  let (neg, s1) := sign (trim (to_ascii s)) in
  match digitpart s1 with
  | Some (ds, []) =>
      if Z.of_nat (List.length ds) <=? MAX_STR_DIGITS
      then Some (if neg then - of_digits ds else of_digits ds)
      else None
  | _ => None
  end.

(** *** re.match(r"(\d{1,2})[./](\d{1,2})", s)

    The candidates of [\d{1,2}] at the head of a text, the greedy one
    first, as the backtracking matcher tries them. *)
Definition digits_1_2 (s : text) : list (text * text) :=
  match s with
  | c1 :: c2 :: rest =>
      if is_decimal c1 then
        if is_decimal c2 then [([c1; c2], rest); ([c1], c2 :: rest)]
        else [([c1], c2 :: rest)]
      else []
  | [c1] => if is_decimal c1 then [([c1], [])] else []
  | [] => []
  end.

Definition is_sep (c : char) : bool := (c =? 46) || (c =? 47).

Fixpoint first_match {A B : Type} (f : A -> option B) (l : list A)
  : option B :=
  match l with
  | [] => None
  | a :: l' => match f a with Some b => Some b | None => first_match f l' end
  end.

(** The two groups of the match at the start of [s], if there is one. *)
Definition match_day_month (s : text) : option (text * text) :=
  first_match
    (fun g1 =>
       match snd g1 with
       | c :: rest =>
           if is_sep c then
             first_match (fun g2 => Some (fst g1, fst g2)) (digits_1_2 rest)
           else None
       | [] => None
       end)
    (digits_1_2 s).

(** *** re.findall(r"#\d+", s)

    A scan from left to right; [cur] holds the digits (last first) read
    after an open "#", if one is open. *)
Definition emit (cur : option text) (k : list text) : list text :=
  match cur with
  | Some (d :: ds) => (35 :: rev (d :: ds)) :: k
  | _ => k
  end.

Fixpoint findall_from (cur : option text) (s : text) : list text :=
  match s with
  | [] => emit cur []
  | c :: s' =>
      match cur with
      | Some ds =>
          if is_decimal c then findall_from (Some (c :: ds)) s'
          else emit cur (findall_from (if c =? 35 then Some [] else None) s')
      | None => findall_from (if c =? 35 then Some [] else None) s'
      end
  end.

Definition findall_members (s : text) : list text := findall_from None s.

End Text.

(* ================================================================== *)
(** ** Python float *)

Module Float64.
Import Text.

(** binary64: 53 bits of precision, infinities at exponent 1024. *)
Definition prec : Z := 53.
Definition emax : Z := 1024.

Definition float := spec_float.

Definition fadd : float -> float -> float := SFadd prec emax.
Definition fsub : float -> float -> float := SFsub prec emax.
Definition fmul : float -> float -> float := SFmul prec emax.
Definition fdiv : float -> float -> float := SFdiv prec emax.

Definition is_zero (x : float) : bool :=
  match x with S754_zero _ => true | _ => false end.

Definition is_finite (x : float) : bool :=
  match x with S754_zero _ | S754_finite _ _ _ => true | _ => false end.

(** [a / b]: Python raises [ZeroDivisionError] on a zero divisor of either
    sign ([None] here) and divides as IEEE-754 does otherwise. *)
Definition truediv (a b : float) : option float :=
  if is_zero b then None else Some (fdiv a b).

(** The float nearest to an integer (ties to even), as the arithmetic
    converts an [int] operand. Python raises [OverflowError] where this
    rounds to an infinity, from 2^1024 on; the integers converted by the
    bot are the literal 100 and the length of a list. *)
Definition of_int (n : Z) : float := binary_normalize prec emax n 0 false.

(** The float nearest to [m * 10^e], for [m >= 0], with the sign [neg]. *)
Definition of_decimal (neg : bool) (m e : Z) : float :=
  match m with
  | Zpos p =>
      if 0 <=? e then binary_round prec emax neg (p * Z.to_pos (10 ^ e)) 0
      else fdiv (S754_finite neg p 0)
                (S754_finite false (Z.to_pos (10 ^ (- e))) 0)
  | _ => S754_zero neg
  end.

(** The digits of a literal before its exponent: all the digits read, and
    how many of them stand after the point. *)
Definition mantissa (s : text) : option (list Z * Z * text) :=
  match digitpart s with
  | Some (ds, r) =>
      match r with
      | c :: r' =>
          if c =? 46 then
            match digitpart r' with
            | Some (fs, r'') =>
                Some (ds ++ fs, Z.of_nat (List.length fs), r'')
            | None => Some (ds, 0, r')
            end
          else Some (ds, 0, r)
      | [] => Some (ds, 0, [])
      end
  | None =>
      match s with
      | c :: r' =>
          if c =? 46 then
            match digitpart r' with
            | Some (fs, r'') => Some (fs, Z.of_nat (List.length fs), r'')
            | None => None
            end
          else None
      | [] => None
      end
  end.

(** The exponent part, which must end the literal. *)
Definition exponent (s : text) : option Z :=
  match s with
  | [] => Some 0
  | c :: r =>
      if (c =? 101) || (c =? 69) then
        let (neg, r') := sign r in
        match digitpart r' with
        | Some (es, []) => Some (if neg then - of_digits es else of_digits es)
        | _ => None
        end
      else None
  end.

(** [Py_TOLOWER] on a text: the letters A-Z. *)
Definition lower_c (s : text) : text :=
  map (fun c => if within 65 90 c then c + 32 else c) s.

(** [float(s)] for a [str]; [None] stands for the [ValueError]. *)
Definition py_float (s : text) : option float :=
  let (neg, s1) := sign (trim (to_ascii s)) in
  let l := lower_c s1 in
  if text_eqb l (lit "inf") || text_eqb l (lit "infinity")
  then Some (S754_infinity neg)
  else if text_eqb l (lit "nan") then Some S754_nan
  else
    match mantissa s1 with
    | Some (ds, scale, r) =>
        match exponent r with
        | Some e => Some (of_decimal neg (of_digits ds) (e - scale))
        | None => None
        end
    | None => None
    end.

(** [sum(xs)] of floats as CPython 3.11 computes it: plain additions from
    the integer 0, left to right, each one rounded. *)
Definition py_sum (xs : list float) : float :=
  fold_left fadd xs (S754_zero false).

(** The rational value of a finite float. *)
Definition to_Q (x : float) : Q :=
  match x with
  | S754_finite s m e =>
      let n := if s then Zneg m else Zpos m in
      if 0 <=? e then inject_Z (n * 2 ^ e)
      else Qmake n (Z.to_pos (2 ^ (- e)))
  | _ => 0%Q
  end.

(** [|x - q| <= tol] for a finite [x]. *)
Definition close_to (x : float) (q tol : Q) : bool :=
  is_finite x && Qle_bool (Qabs (to_Q x - q)) tol.

End Float64.

(* ================================================================== *)
(** ** main.py *)

Module Bot.
Import Text Calendar Float64.

(** *** Data *)

Inductive exn := ValueError | KeyError | ZeroDivisionError | OverflowError.

Inductive outcome (A : Type) : Type :=
| Ok (a : A)
| Raise (e : exn).
Arguments Ok {A} a.
Arguments Raise {A} e.

(** One record of [deals.json], with the keys of [new_deal]. [date_iso]
    is kept as the date that its ISO text denotes: the bot writes
    [d.isoformat()] and reads it back through
    [datetime.fromisoformat(..).date()]. *)
Record Deal := mkDeal {
  date_iso : date;
  index : Z;
  name : text;
  rub : float;
  fee : float;
  rate : float;
  clean_rub : float;
  usd : float;
  pool : float;
  share : float;
  members : list text
}.

Definition ledger := list Deal.

(** What [json.loads] can return. *)
Inductive json :=
| JNone
| JBool (b : bool)
| JInt (n : Z)
| JFloat (x : float)
| JStr (s : text)
| JList (items : list json)
| JDict (items : list (text * json)).

(** A file: absent, present but not readable as JSON (reading or decoding
    raises), or decoding to a value of [V]. The handlers are run on a
    [SAVE_FILE] that decodes to a list of deals, [V] being [ledger];
    [load_deals] is also stated for a file that decodes to any [json]. *)
Inductive file_state (V : Type) :=
| Missing
| Unreadable
| Holds (decoded : V).
Arguments Missing {V}.
Arguments Unreadable {V}.
Arguments Holds {V} decoded.

(** [context.user_data], with the keys that the conversation sets. *)
Record user_data := mkUser {
  ud_date : option date;
  ud_name : option text;
  ud_amount : option float;
  ud_fee : option float;
  ud_rate : option float
}.

(** The states of the conversation; [END] is [ConversationHandler.END],
    no conversation being open. *)
Inductive conv_state := DATE | NAME | AMOUNT | FEE | RATE | MEMBERS | END.

Inductive label :=
| LabelRange (a b : date)
| LabelWeek
| LabelMonth (m : Z).

(** The messages that the handlers send, by what they say and the values
    they show. *)
Inductive reply :=
| AskDate | BadDate | AskName | AskAmount | NotANumber | AskFee | AskRate
| BadRate | AskMembers | NeedMember
| Saved (d : Deal) (total : nat)
| NoDealsInPeriod
| Report (l : label) (total : float) (lines : list Deal)
| UsageReport | BadDates
| UsageByDate | BadDateArg | NoDealsOnDate
| DayList (lines : list Deal)
| UsageDelete | IndexNotANumber | NotFound | Deleted
| Cancelled | Help | UsageMonth.

(** The clock: the date of [datetime.now(timezone.utc)] and the year of
    [datetime.now()], a year from 1 to 9999. *)
Record clock := mkClock { utc_today : date; local_year : Z }.

Record world := mkWorld {
  SAVE_FILE : file_state ledger;
  written : list ledger;      (* every [write_text], the last one first *)
  user : user_data;
  sent : list reply;          (* in the order sent *)
  now : clock
}.

(** *** Handlers run in a state-and-exception monad *)

Definition M (A : Type) : Type := world -> outcome A * world.

Definition ret {A} (a : A) : M A := fun w => (Ok a, w).

Definition bind {A B} (m : M A) (k : A -> M B) : M B :=
  fun w =>
    match m w with
    | (Ok a, w') => k a w'
    | (Raise e, w') => (Raise e, w')
    end.

Definition raise {A} (e : exn) : M A := fun w => (Raise e, w).

Notation "x <- m ;; k" := (bind m (fun x => k))
  (at level 61, m at next level, right associativity).
Notation "m ;;; k" := (bind m (fun _ => k))
  (at level 61, right associativity).

Definition or_raise {A} (e : exn) (o : option A) : M A :=
  match o with Some a => ret a | None => raise e end.

(** [context.user_data[key]] *)
Definition lookup {A} (field : user_data -> option A) : M A :=
  fun w => or_raise KeyError (field (user w)) w.

Definition set_user (f : user_data -> user_data) : M unit :=
  fun w => (Ok tt, mkWorld (SAVE_FILE w) (written w) (f (user w)) (sent w) (now w)).

(** [update.message.reply_text(..)] *)
Definition reply_text (r : reply) : M unit :=
  fun w => (Ok tt, mkWorld (SAVE_FILE w) (written w) (user w) (sent w ++ [r]) (now w)).

Definition get_clock : M clock := fun w => (Ok (now w), w).

(** *** Helpers *)

Definition file_exists {V} (f : file_state V) : bool :=
  match f with Missing => false | _ => true end.

(** [json.loads(SAVE_FILE.read_text(encoding="utf-8"))] *)
Definition read_json {V} (f : file_state V) : outcome V :=
  match f with
  | Holds v => Ok v
  | _ => Raise ValueError
  end.

(** [load_deals()] as a function of the file; [nil] is the value [[]].
    What the file decodes to is returned as it is, whatever it is. *)
Definition load_deals_from {V} (nil : V) (f : file_state V) : V :=
  if negb (file_exists f) then nil
  else match read_json f with
       | Ok v => v
       | Raise _ => nil
       end.

(** [load_deals()] in a handler. *)
Definition load_deals : M ledger :=
  fun w => (Ok (load_deals_from [] (SAVE_FILE w)), w).

(** [save_deals(deals)], for a write that succeeds. *)
Definition save_deals (deals : ledger) : M unit :=
  fun w => (Ok tt, mkWorld (Holds deals) (deals :: written w) (user w) (sent w) (now w)).

(** "сегодня" *)
Definition segodnya : text := [1089; 1077; 1075; 1086; 1076; 1085; 1103].

Definition parse_date (c : clock) (txt : text) : option date :=
  let txt := lower (strip txt) in
  if text_eqb txt segodnya || text_eqb txt (lit "today") then Some (utc_today c)
  else
    match match_day_month txt with
    | None => None
    | Some (g1, g2) =>
        match py_int g1, py_int g2 with
        | Some day, Some month => new_date (local_year c) month day
        | _, _ => None
        end
    end.

Definition tuesday_week_range (ref : option date) : M (date * date) :=
  c <- get_clock ;;
  let ref := match ref with None => utc_today c | Some r => r end in
  let offset := (weekday ref - 1) mod 7 in
  start <- or_raise OverflowError (sub_days ref offset) ;;
  stop <- or_raise OverflowError (add_days start 6) ;;
  ret (start, stop).

Definition in_range (start stop : date) (d : Deal) : bool :=
  leb start (date_iso d) && leb (date_iso d) stop.

Definition filter_deals_by_date_range (start stop : date) : M ledger :=
  deals <- load_deals ;;
  ret (filter (in_range start stop) deals).

Definition on_date (d : date) (deal : Deal) : bool := eqb (date_iso deal) d.

Definition get_next_index_for_date (deals : ledger) (d : date) : Z :=
  let same_day := filter (on_date d) deals in
  Z.of_nat (List.length same_day) + 1.

(** *** Deal workflow *)

Definition start_deal : M conv_state :=
  reply_text AskDate ;;; ret DATE.

Definition get_date (txt : text) : M conv_state :=
  c <- get_clock ;;
  match parse_date c txt with
  | None => reply_text BadDate ;;; ret DATE
  | Some d =>
      set_user (fun u => mkUser (Some d) (ud_name u) (ud_amount u) (ud_fee u) (ud_rate u)) ;;;
      reply_text AskName ;;; ret NAME
  end.

Definition get_name (txt : text) : M conv_state :=
  set_user (fun u => mkUser (ud_date u) (Some (strip txt)) (ud_amount u) (ud_fee u) (ud_rate u)) ;;;
  reply_text AskAmount ;;; ret AMOUNT.

Definition get_amount (txt : text) : M conv_state :=
  match py_float (replace_comma txt) with
  | Some x =>
      set_user (fun u => mkUser (ud_date u) (ud_name u) (Some x) (ud_fee u) (ud_rate u)) ;;;
      reply_text AskFee ;;; ret FEE
  | None => reply_text NotANumber ;;; ret AMOUNT
  end.

Definition get_fee (txt : text) : M conv_state :=
  match py_float (replace_comma txt) with
  | Some x =>
      set_user (fun u => mkUser (ud_date u) (ud_name u) (ud_amount u) (Some x) (ud_rate u)) ;;;
      reply_text AskRate ;;; ret RATE
  | None => reply_text NotANumber ;;; ret FEE
  end.

Definition get_rate (txt : text) : M conv_state :=
  match py_float (replace_comma txt) with
  | Some x =>
      set_user (fun u => mkUser (ud_date u) (ud_name u) (ud_amount u) (ud_fee u) (Some x)) ;;;
      reply_text AskMembers ;;; ret MEMBERS
  | None => reply_text BadRate ;;; ret RATE
  end.

(** [a / b] in a handler. *)
Definition div (a b : float) : M float :=
  or_raise ZeroDivisionError (truediv a b).

(** The literal [0.25]. *)
Definition quarter : float := S754_finite false 4503599627370496 (-54).

Definition get_members (txt : text) : M conv_state :=
  let raw := strip txt in
  let members := findall_members raw in
  match members with
  | [] => reply_text NeedMember ;;; ret MEMBERS
  | _ :: _ =>
      let total := List.length members in
      rub <- lookup ud_amount ;;
      fee <- lookup ud_fee ;;
      rate <- lookup ud_rate ;;
      fee_part <- div (fmul rub fee) (of_int 100) ;;
      let clean_rub := fsub rub fee_part in
      usd <- div clean_rub rate ;;
      let pool := fmul usd quarter in
      share <- div pool (of_int (Z.of_nat total)) ;;
      d <- lookup ud_date ;;
      deals <- load_deals ;;
      let idx := get_next_index_for_date deals d in
      name <- lookup ud_name ;;
      let new_deal :=
        mkDeal d idx name rub fee rate clean_rub usd pool share members in
      save_deals (deals ++ [new_deal]) ;;;
      reply_text (Saved new_deal total) ;;;
      ret END
  end.

(** *** Reports *)

Definition show_report (start stop : date) (l : label) : M unit :=
  deals <- filter_deals_by_date_range start stop ;;
  match deals with
  | [] => reply_text NoDealsInPeriod
  | _ :: _ =>
      let total := py_sum (map share deals) in
      reply_text (Report l total deals)
  end.

Definition show_range (args : list text) : M unit :=
  match args with
  | [a0; a1] =>
      c <- get_clock ;;
      match parse_date c a0, parse_date c a1 with
      | Some d1, Some d2 => show_report d1 d2 (LabelRange d1 d2)
      | _, _ => reply_text BadDates
      end
  | _ => reply_text UsageReport
  end.

Definition show_by_date (args : list text) : M unit :=
  match args with
  | [] => reply_text UsageByDate
  | a0 :: _ =>
      c <- get_clock ;;
      match parse_date c a0 with
      | None => reply_text BadDateArg
      | Some d =>
          all <- load_deals ;;
          match filter (on_date d) all with
          | [] => reply_text NoDealsOnDate
          | deals => reply_text (DayList deals)
          end
      end
  end.

(** [enumerate(deals)] *)
Definition enumerate {A} (l : list A) : list (nat * A) :=
  combine (seq 0 (List.length l)) l.

(** [del deals[i]] for an index inside the list. *)
Fixpoint del_at {A} (i : nat) (l : list A) : list A :=
  match l, i with
  | [], _ => []
  | _ :: l', O => l'
  | x :: l', S j => x :: del_at j l'
  end.

Definition matches (d : date) (num : Z) (p : nat * Deal) : bool :=
  eqb (date_iso (snd p)) d && (index (snd p) =? num).

Definition delete_deal (args : list text) : M unit :=
  match args with
  | [a0; a1] =>
      c <- get_clock ;;
      match parse_date c a0 with
      | None => reply_text BadDateArg
      | Some d =>
          match py_int a1 with
          | None => reply_text IndexNotANumber
          | Some num =>
              deals <- load_deals ;;
              let filtered := filter (matches d num) (enumerate deals) in
              match filtered with
              | [] => reply_text NotFound
              | (i, _) :: _ =>
                  save_deals (del_at i deals) ;;;
                  reply_text Deleted
              end
          end
      end
  | _ => reply_text UsageDelete
  end.

(** *** Other *)

Definition cancel : M conv_state :=
  reply_text Cancelled ;;; ret END.

Definition help_cmd : M unit := reply_text Help.

Definition show_week : M unit :=
  r <- tuesday_week_range None ;;
  show_report (fst r) (snd r) LabelWeek.

(** [date(y, m, d)] in a handler. *)
Definition date_of (y m d : Z) : M date :=
  if c_int y && c_int m && c_int d then or_raise ValueError (new_date y m d)
  else raise OverflowError.

(** The bounds that [show_month] computes for [month] of [year]. *)
Definition month_range (y m : Z) : M (date * date) :=
  start <- date_of y m 1 ;;
  stop <-
    (if m =? 12 then date_of y 12 31
     else
       first <- date_of y (m + 1) 1 ;;
       or_raise OverflowError (sub_days first 1)) ;;
  ret (start, stop).

Definition show_month (args : list text) : M unit :=
  match args with
  | a0 :: _ =>
      if isdigit a0 then
        m <- or_raise ValueError (py_int a0) ;;
        c <- get_clock ;;
        let y := year (utc_today c) in
        r <- month_range y m ;;
        show_report (fst r) (snd r) (LabelMonth m)
      else reply_text UsageMonth
  | [] => reply_text UsageMonth
  end.

(** *** The application: which handler takes an update *)

Inductive command :=
| CmdDeal | CmdCancel | CmdStart | CmdHelp | CmdWeek | CmdMonth
| CmdReport | CmdByDate | CmdDelete.

(** A text message that is no command, or a command with its arguments. *)
Inductive update :=
| Message (txt : text)
| Command (c : command) (args : list text).

Definition keep (st : conv_state) (m : M unit) : M conv_state :=
  m ;;; ret st.

Definition dispatch (st : conv_state) (u : update) : M conv_state :=
  match u with
  | Message txt =>
      match st with
      | DATE => get_date txt
      | NAME => get_name txt
      | AMOUNT => get_amount txt
      | FEE => get_fee txt
      | RATE => get_rate txt
      | MEMBERS => get_members txt
      | END => ret END
      end
  | Command CmdDeal _ =>
      match st with END => start_deal | _ => ret st end
  | Command CmdCancel _ =>
      match st with END => ret END | _ => cancel end
  | Command CmdStart _ => keep st help_cmd
  | Command CmdHelp _ => keep st help_cmd
  | Command CmdWeek _ => keep st show_week
  | Command CmdMonth args => keep st (show_month args)
  | Command CmdReport args => keep st (show_range args)
  | Command CmdByDate args => keep st (show_by_date args)
  | Command CmdDelete args => keep st (delete_deal args)
  end.

(** A handler that raises leaves the conversation where it was; what it
    did before raising stays done. *)
Definition step (s : conv_state * world) (u : update) : conv_state * world :=
  match dispatch (fst s) u (snd s) with
  | (Ok st, w) => (st, w)
  | (Raise _, w) => (fst s, w)
  end.

Definition run (us : list update) (s : conv_state * world) : conv_state * world :=
  fold_left step us s.

(** What [load_deals] returns in a world. *)
Definition view (w : world) : ledger :=
  match fst (load_deals w) with Ok l => l | Raise _ => [] end.

Definition no_user : user_data := mkUser None None None None None.

(** A first start: no ledger file, nothing sent, no conversation. *)
Definition fresh (c : clock) : conv_state * world :=
  (END, mkWorld Missing [] no_user [] c).

End Bot.

(* ================================================================== *)
(** ** Notions used to state and prove the properties *)

Module Spec.
Import Text Calendar Float64 Bot.

(** *** Calendar *)

(** The end of [_ord2ymd], from the quotients and the last remainder of
    its divisions; [y0] is the first year of the 400-year cycle. *)
Definition pick (y0 n100 n4 n1 n : Z) : date :=
  let y := y0 + (n100 * 100 + n4 * 4 + n1) in
  if (n1 =? 4) || (n100 =? 4) then mkdate (y - 1) 12 31
  else
    let leapyear := (n1 =? 3) && (negb (n4 =? 24) || (n100 =? 3)) in
    let m := Z.shiftr (n + 50) 5 in
    let preceding :=
      table DAYS_BEFORE_MONTH m + (if (2 <? m) && leapyear then 1 else 0) in
    if n <? preceding then
      let m := m - 1 in
      let preceding :=
        preceding
        - (table DAYS_IN_MONTH m + (if (m =? 2) && leapyear then 1 else 0)) in
      mkdate y m (n - preceding + 1)
    else mkdate y m (n - preceding + 1).

Definition in_cycle (y0 n0 : Z) : date :=
  pick y0 (n0 / DI100Y) (n0 mod DI100Y / DI4Y)
    (n0 mod DI100Y mod DI4Y / 365) (n0 mod DI100Y mod DI4Y mod 365).

(** What is checked of the day [r + 1] of the first 400 years: it is a
    date of these years, and its day number is [r + 1]. *)
Definition cycle_ok (r : Z) : bool :=
  let x := ord2ymd (r + 1) in
  (1 <=? year x) && (year x <=? 400)
  && ((145730 <? r) || (year x <=? 399))
  && (1 <=? month x) && (month x <=? 12)
  && (1 <=? day x) && (day x <=? days_in_month (year x) (month x))
  && (toordinal x =? r + 1).

(** *** The pattern of a date *)

(** One or two digits: what [\d{1,2}] can hold. *)
Definition digit_group (g : text) : Prop :=
  (List.length g = 1 \/ List.length g = 2)%nat
  /\ Forall (fun c => is_decimal c = true) g.

Definition no_digit_ahead (rest : text) : Prop :=
  match rest with
  | c :: _ => is_decimal c = false
  | [] => True
  end.

(** [s] starts with a match of [(\d{1,2})[./](\d{1,2})] whose groups are
    [g1] and [g2]; the second group is greedy. Nothing is asked of the
    text [rest] behind the match. *)
Definition prefix_match (s g1 g2 : text) : Prop :=
  exists sep rest,
    s = g1 ++ sep :: g2 ++ rest
    /\ digit_group g1 /\ is_sep sep = true /\ digit_group g2
    /\ (List.length g2 = 1%nat -> no_digit_ahead rest).

(** The second group: the first candidate of [digits_1_2] is taken. *)
Definition second_group (g1 rest : text) : option (text * text) :=
  first_match (fun g2 : text * text => Some (g1, fst g2)) (digits_1_2 rest).

(** What follows the first group: a separator and the second group. *)
Definition after_group (g1 tail : text) : option (text * text) :=
  match tail with
  | c :: rest => if is_sep c then second_group g1 rest else None
  | [] => None
  end.

(** The value of a digit group, as [int] reads it. *)
Definition group_value (g : text) : Z := of_digits (map decimal_value g).

(** The two words for the current day, after trimming and lowering. *)
Definition today_word (s : text) : Prop := s = lit "today" \/ s = segodnya.

(** The character [c] is the small letter [k] or its capital; for the
    letters a-z and the Cyrillic letters from U+0430 to U+044F the capital
    stands 32 places before. *)
Definition same_letter (k c : char) : Prop := c = k \/ c = k - 32.

(** A text spells a word, letter by letter, in small or capital letters. *)
Definition spelled (word s : text) : Prop := Forall2 same_letter word s.

(** The texts that stand for the current day. *)
Definition today_text (s : text) : Prop :=
  spelled (lit "today") s \/ spelled segodnya s.

(** The letters of the two words. *)
Definition LETTERS : list char := lit "today" ++ segodnya.

(** *** The tables, listed character by character *)

(** All decimal digits. *)
Definition DECIMALS : list char :=
  flat_map (fun z => map (Z.add z) [0; 1; 2; 3; 4; 5; 6; 7; 8; 9])
    Unicode.DECIMAL_ZEROS.

(** The characters that an entry of [LOWER] maps, with their images. *)
Definition hits (e : Z * Z * Z * Z) : list (char * char) :=
  let '(lo, hi, step, delta) := e in
  map (fun k => (lo + step * Z.of_nat k, lo + step * Z.of_nat k + delta))
    (seq 0 (Z.to_nat ((hi - lo) / step) + 1)).

Definition LOWER_PAIRS : list (char * char) := flat_map hits Unicode.LOWER.

(** A digit or a separator of the date pattern. *)
Definition plain (c : char) : bool := is_decimal c || is_sep c.

(** What [parse_date] does with a text that is no word for today. *)
Definition numeric_date (c : clock) (s : text) : option date :=
  match match_day_month s with
  | None => None
  | Some (g1, g2) =>
      match py_int g1, py_int g2 with
      | Some day, Some month => new_date (local_year c) month day
      | _, _ => None
      end
  end.

(** What [date(y, m, d)] gives or raises. *)
Definition date_result (y m d : Z) : outcome date :=
  if c_int y && c_int m && c_int d then
    match new_date y m d with
    | Some x => Ok x
    | None => Raise ValueError
    end
  else Raise OverflowError.

(** *** Worlds *)

(** The world after [save_deals deals] and a reply [r]. *)
Definition saved (w : world) (deals : ledger) (r : reply) : world :=
  mkWorld (Holds deals) (deals :: written w) (user w) (sent w ++ [r]) (now w).

(** The world after a reply [r] alone. *)
Definition replied (w : world) (r : reply) : world :=
  mkWorld (SAVE_FILE w) (written w) (user w) (sent w ++ [r]) (now w).

(** A computation that leaves the ledger file alone and writes nothing. *)
Definition same_file {A} (m : M A) : Prop :=
  forall w, SAVE_FILE (snd (m w)) = SAVE_FILE w
            /\ written (snd (m w)) = written w.

(** *** The derived fields, as [get_members] computes them *)

Definition net_of (a f : float) : float :=
  fsub a (fdiv (fmul a f) (of_int 100)).
Definition usd_of (a f r : float) : float := fdiv (net_of a f) r.
Definition pool_of (a f r : float) : float := fmul (usd_of a f r) quarter.
Definition share_of (a f r : float) (n : nat) : float :=
  fdiv (pool_of a f r) (of_int (Z.of_nat n)).

Definition new_deal (deals : ledger) (d : date) (nm : text) (a f r : float)
  (ms : list text) : Deal :=
  mkDeal d (get_next_index_for_date deals d) nm a f r
    (net_of a f) (usd_of a f r) (pool_of a f r)
    (share_of a f r (List.length ms)) ms.

(** The net amount as the specification writes it,
    grossAmount * (1 - feePercent / 100), in binary64. *)
Definition claimed_net (a f : float) : float :=
  fmul a (fsub (of_int 1) (fdiv f (of_int 100))).

(** *** Whole numbers as floats *)

(** The float of a whole number [v] of at most 53 bits, with the sign
    [s]: its digits, shifted to 53 bits. *)
Definition normal (s : bool) (v : Z) : float :=
  match v * 2 ^ (53 - Zdigits2 v) with
  | Zpos m => S754_finite s m (Zdigits2 v - 53)
  | _ => S754_zero s
  end.

(** From [acc] on, every number of the list and every running sum has at
    most 53 bits. *)
Fixpoint running (acc : Z) (zs : list Z) : Prop :=
  Z.abs acc < 2 ^ 53
  /\ match zs with
     | [] => True
     | z :: zs' => Z.abs z < 2 ^ 53 /\ running (acc + z) zs'
     end.

Definition small_sums (zs : list Z) : Prop := running 0 zs.

(** The sum of a list of whole numbers. *)
Definition int_sum (zs : list Z) : Z := fold_left Z.add zs 0.

(** *** Per-day numbers *)

Definition date_eq_dec (a b : date) : {a = b} + {a <> b}.
Proof. decide equality; apply Z.eq_dec. Defined.

(** How many deals of a ledger are of the day [d]. *)
Definition count_on (d : date) (deals : ledger) : nat :=
  List.length
    (filter (fun x => if date_eq_dec (date_iso x) d then true else false)
       deals).

(** The deals of each day carry the numbers 1, 2, 3, ... in storage
    order. *)
Definition dense (deals : ledger) : Prop :=
  forall d,
    map index (filter (on_date d) deals)
    = map Z.of_nat (seq 1 (List.length (filter (on_date d) deals))).

(** What a step can do to the ledger when it is no deletion: nothing,
    or append one deal that carries the next number of its day. *)
Definition grows (before after : ledger) : Prop :=
  after = before
  \/ exists x,
       after = before ++ [x]
       /\ index x = get_next_index_for_date before (date_iso x).

Definition is_delete (u : update) : bool :=
  match u with Command CmdDelete _ => true | _ => false end.

(** A deal has the key [(d, num)]. *)
Definition has_key (d : date) (num : Z) (x : Deal) : Prop :=
  date_iso x = d /\ index x = num.

(** The keys of a ledger. *)
Definition keys (deals : ledger) : list (date * Z) :=
  map (fun x => (date_iso x, index x)) deals.

(** *** Reports *)

(** A deal lies between two dates, by the calendar order. *)
Definition between (start stop : date) (x : Deal) : bool :=
  (toordinal start <=? toordinal (date_iso x))
  && (toordinal (date_iso x) <=? toordinal stop).

(** *** A concrete session, for the examples *)

Definition clock0 : clock := mkClock (mkdate 2024 7 21) 2024.

(** The conversation that records one deposit on 21.07. *)
Definition deposit (nm amount fee rate members : string) : list update :=
  [Command CmdDeal []; Message (lit "21.07"); Message (lit nm);
   Message (lit amount); Message (lit fee); Message (lit rate);
   Message (lit members)].

Definition usual : list update := deposit "SBP" "10000" "2" "90" "#10 #12".

(** Two deposits whose shares are the whole numbers 100 and 200. *)
Definition whole : list update :=
  deposit "A" "800" "0" "1" "#1 #2" ++ deposit "B" "1600" "0" "1" "#1 #2".

(** The tolerance of the examples: 10^-12. *)
Definition tol : Q := 1 # 1000000000000.

End Spec.

(* ================================================================== *)
(** ** Notions for the properties of the whole bot *)

Module More.
Import Text Calendar Float64 Bot Spec.

(** The world after some replies, nothing else changed. *)
Definition add_replies (w : world) (rs : list reply) : world :=
  mkWorld (SAVE_FILE w) (written w) (user w) (sent w ++ rs) (now w).

(** The six messages of one conversation, after the command /deal. *)
Definition conversation (dt nm a f r ms : text) : list update :=
  [Command CmdDeal []; Message dt; Message nm; Message a; Message f;
   Message r; Message ms].

(** A text that the handler of a conversation state turns down. *)
Definition rejected (c : clock) (st : conv_state) (txt : text) : Prop :=
  match st with
  | DATE => parse_date c txt = None
  | AMOUNT | FEE | RATE => py_float (replace_comma txt) = None
  | MEMBERS => findall_members (strip txt) = []
  | NAME | END => False
  end.

(** The reply to a text turned down in a state. *)
Definition complaint (st : conv_state) : reply :=
  match st with
  | DATE => BadDate
  | RATE => BadRate
  | MEMBERS => NeedMember
  | _ => NotANumber
  end.

(** A member as [re.findall(r"#\d+", ..)] returns it: "#" and at least
    one decimal digit, of any script. *)
Definition member_token (m : text) : Prop :=
  exists ds,
    m = 35 :: ds /\ ds <> [] /\ Forall (fun c => is_decimal c = true) ds.

(** The equations of a scan for members: a character other than "#" is
    skipped, a "#" with no digit behind it is skipped, and a "#" with
    digits behind it gives a member and the scan goes on behind them. *)
Definition scans (f : text -> list text) : Prop :=
  f [] = []
  /\ (forall c s, c <> 35 -> f (c :: s) = f s)
  /\ (forall s, no_digit_ahead s -> f (35 :: s) = f s)
  /\ (forall ds s,
        ds <> [] -> Forall (fun c => is_decimal c = true) ds ->
        no_digit_ahead s -> f (35 :: ds ++ s) = (35 :: ds) :: f s).

(** The replies that confirm a write. *)
Definition is_confirm (r : reply) : bool :=
  match r with
  | Saved _ _ | Deleted => true
  | _ => false
  end.

(** A computation that only sends replies, none of them a confirmation:
    it may raise, and leaves the file, the collected fields and the clock
    as they are. *)
Definition talks {A} (m : M A) : Prop :=
  forall w,
    exists rs,
      snd (m w) = add_replies w rs
      /\ forallb (fun r => negb (is_confirm r)) rs = true.

(** The commands that report and explain. *)
Definition is_query (c : command) : bool :=
  match c with
  | CmdStart | CmdHelp | CmdWeek | CmdMonth | CmdReport | CmdByDate => true
  | _ => false
  end.

(** A deal as the bot records it. *)
Definition good_deal (x : Deal) : Prop :=
  valid (date_iso x) /\ 1 <= index x
  /\ members x <> [] /\ Forall member_token (members x)
  /\ is_zero (rate x) = false
  /\ clean_rub x = net_of (rub x) (fee x)
  /\ usd x = usd_of (rub x) (fee x) (rate x)
  /\ pool x = pool_of (rub x) (fee x) (rate x)
  /\ share x = share_of (rub x) (fee x) (rate x) (List.length (members x)).

(** The clock shows a date, the date collected by the conversation is
    one, and every deal of the ledger is as the bot records them. *)
Definition well_formed (w : world) : Prop :=
  valid (utc_today (now w))
  /\ (forall d, ud_date (user w) = Some d -> valid d)
  /\ Forall good_deal (view w).

(** What one update can do to the world: send replies and change the
    collected fields, the date only to one that [parse_date] returned;
    record a deal made of the collected fields; or delete one deal. *)
Inductive effect (w : world) : world -> Prop :=
| effect_talk (u : user_data) (rs : list reply) :
    forallb (fun r => negb (is_confirm r)) rs = true ->
    (forall d, ud_date u = Some d ->
               ud_date (user w) = Some d
               \/ exists txt, parse_date (now w) txt = Some d) ->
    effect w (mkWorld (SAVE_FILE w) (written w) u (sent w ++ rs) (now w))
| effect_create (d : date) (nm : text) (a f r : float) (m : text)
    (ms : list text) :
    user w = mkUser (Some d) (Some nm) (Some a) (Some f) (Some r) ->
    is_zero r = false ->
    (exists txt, findall_members (strip txt) = m :: ms) ->
    effect w
      (saved w (view w ++ [new_deal (view w) d nm a f r (m :: ms)])
         (Saved (new_deal (view w) d nm a f r (m :: ms))
            (List.length (m :: ms))))
| effect_delete (i : nat) (x : Deal) :
    nth_error (view w) i = Some x ->
    effect w (saved w (del_at i (view w)) Deleted).

(** A deal is of the month [m] of the year [y]. *)
Definition in_month (y m : Z) (x : Deal) : bool :=
  (year (date_iso x) =? y) && (month (date_iso x) =? m).

(** Members typed one after the other, a space behind each. *)
Definition spaced (ms : list text) : text :=
  List.concat (map (fun m => m ++ [32]) ms).

(** The day number of the Tuesday on or before a date. *)
Definition tuesday_of (r : date) : Z :=
  toordinal r - (weekday r - 1) mod 7.

End More.

(* ================================================================== *)
(** * Properties *)

(** ** Bounded search *)

Lemma forall_from_spec (n : nat) (lo : Z) (p : Z -> bool) :
  forall_from n lo p = true ->
  forall z, lo <= z < lo + Z.of_nat n -> p z = true.
Proof.
  revert lo. induction n as [|k IH]; intros lo H z Hz.
  - simpl in Hz. lia.
  - cbn [forall_from] in H. apply andb_prop in H as [Hlo Hrest].
    destruct (Z.eq_dec z lo) as [->|Hne]; [exact Hlo|].
    apply (IH (lo + 1)); [exact Hrest|lia].
Qed.

Lemma forall_below_spec (n : Z) (p : Z -> bool) :
  forall_below n p = true ->
  forall z, 0 <= z < n -> p z = true.
Proof.
  intros H z Hz. apply (forall_from_spec _ _ _ H). lia.
Qed.

(* ================================================================== *)
(** ** The calendar *)

Module CalendarFacts.
Import Calendar Spec.


Lemma days_before_year_shift (y q : Z) :
  days_before_year (y + 400 * q) = days_before_year y + DI400Y * q.
Proof. unfold days_before_year, DI400Y. div_lia. Qed.

Lemma is_leap_shift (y q : Z) : is_leap (y + 400 * q) = is_leap y.
Proof.
  unfold is_leap.
  replace ((y + 400 * q) mod 4) with (y mod 4) by div_lia.
  replace ((y + 400 * q) mod 100) with (y mod 100) by div_lia.
  replace ((y + 400 * q) mod 400) with (y mod 400) by div_lia.
  reflexivity.
Qed.

Lemma days_in_month_shift (y q m : Z) :
  days_in_month (y + 400 * q) m = days_in_month y m.
Proof. unfold days_in_month. now rewrite is_leap_shift. Qed.

Lemma ymd2ord_shift (y q m d : Z) :
  ymd2ord (y + 400 * q) m d = ymd2ord y m d + DI400Y * q.
Proof.
  unfold ymd2ord, days_before_month.
  rewrite days_before_year_shift, is_leap_shift. lia.
Qed.

Lemma ord2ymd_in_cycle (n : Z) :
  ord2ymd n = in_cycle ((n - 1) / DI400Y * 400 + 1) ((n - 1) mod DI400Y).
Proof. reflexivity. Qed.

Lemma pick_shift (y0 k n100 n4 n1 n : Z) :
  pick (y0 + k) n100 n4 n1 n = shift_years k (pick y0 n100 n4 n1 n).
Proof.
  unfold pick, shift_years.
  destruct ((n1 =? 4) || (n100 =? 4)); cbn [year month day].
  - f_equal. lia.
  - match goal with |- (if ?c then _ else _) = _ => destruct c end;
      cbn [year month day]; f_equal; lia.
Qed.

Lemma ord2ymd_shift (q r : Z) :
  0 <= r < DI400Y ->
  ord2ymd (DI400Y * q + r + 1) = shift_years (400 * q) (ord2ymd (r + 1)).
Proof.
  intros Hr. rewrite !ord2ymd_in_cycle.
  assert (E1 : (DI400Y * q + r + 1 - 1) / DI400Y = q)
    by (unfold DI400Y in *; div_lia).
  assert (E2 : (DI400Y * q + r + 1 - 1) mod DI400Y = r)
    by (unfold DI400Y in *; div_lia).
  assert (E3 : (r + 1 - 1) / DI400Y = 0) by (unfold DI400Y in *; div_lia).
  assert (E4 : (r + 1 - 1) mod DI400Y = r) by (unfold DI400Y in *; div_lia).
  rewrite E1, E2, E3, E4. unfold in_cycle.
  rewrite <- pick_shift. f_equal. lia.
Qed.

Lemma cycle_checked : forall_below 146097 cycle_ok = true.
Proof. vm_cast_no_check (eq_refl true). Qed.


Lemma valid_fields (x : date) :
  valid x <->
  MINYEAR <= year x <= MAXYEAR /\ 1 <= month x <= 12
  /\ 1 <= day x <= days_in_month (year x) (month x).
Proof.
  unfold valid, check_date_fields.
  rewrite !andb_true_iff, !Z.leb_le. tauto.
Qed.

Lemma cycle_split (n : Z) :
  1 <= n <= MAXORDINAL ->
  exists q r,
    n = DI400Y * q + r + 1 /\ 0 <= q <= 24 /\ 0 <= r < DI400Y
    /\ (q = 24 -> r <= 145730).
Proof.
  unfold MAXORDINAL, DI400Y. intros Hn.
  exists ((n - 1) / 146097), ((n - 1) mod 146097). div_lia.
Qed.

Lemma cycle_facts (r : Z) (x : date) :
  0 <= r < DI400Y -> x = ord2ymd (r + 1) ->
  1 <= year x <= 400 /\ (r <= 145730 -> year x <= 399)
  /\ 1 <= month x <= 12 /\ 1 <= day x <= days_in_month (year x) (month x)
  /\ toordinal x = r + 1.
Proof.
  intros Hr ->.
  pose proof (forall_below_spec _ _ cycle_checked r Hr) as C.
  unfold cycle_ok in C.
  rewrite !andb_true_iff, orb_true_iff, !Z.leb_le, Z.ltb_lt, Z.eqb_eq in C.
  lia.
Qed.

Lemma ord_roundtrip (n : Z) :
  1 <= n <= MAXORDINAL ->
  valid (fromordinal n) /\ toordinal (fromordinal n) = n.
Proof.
  intros Hn. destruct (cycle_split n Hn) as (q & r & -> & Hq & Hr & Hq24).
  unfold fromordinal. rewrite ord2ymd_shift by exact Hr.
  destruct (cycle_facts r _ Hr eq_refl) as (C1 & C2 & C3 & C4 & C5).
  revert C1 C2 C3 C4 C5. generalize (ord2ymd (r + 1)). intros x C1 C2 C3 C4 C5.
  split.
  - apply valid_fields. unfold shift_years, MINYEAR, MAXYEAR.
    cbn [year month day]. rewrite days_in_month_shift. lia.
  - unfold toordinal, shift_years in *. cbn [year month day].
    rewrite ymd2ord_shift. unfold DI400Y. lia.
Qed.

Lemma days_before_year_succ (y : Z) :
  days_before_year (y + 1)
  = days_before_year y + 365 + (if is_leap y then 1 else 0).
Proof.
  unfold days_before_year, is_leap.
  destruct (Z.eqb_spec (y mod 4) 0), (Z.eqb_spec (y mod 100) 0),
    (Z.eqb_spec (y mod 400) 0); cbn [andb orb negb]; div_lia.
Qed.

Lemma days_before_year_mono (a b : Z) :
  a <= b -> days_before_year a <= days_before_year b.
Proof. unfold days_before_year. intros H. div_lia. Qed.

Lemma month_cases (m : Z) :
  1 <= m <= 12 ->
  m = 1 \/ m = 2 \/ m = 3 \/ m = 4 \/ m = 5 \/ m = 6 \/ m = 7 \/ m = 8
  \/ m = 9 \/ m = 10 \/ m = 11 \/ m = 12.
Proof. lia. Qed.

Ltac calc :=
  vm_compute; first [reflexivity | discriminate | intro; discriminate].

Ltac each_month H :=
  apply month_cases in H;
  repeat (destruct H as [H|H]; [subst|]); [..|subst].

(** The days of a year up to the end of a month. *)
Lemma month_end_bound (y m : Z) :
  1 <= m <= 12 ->
  days_before_month y m + days_in_month y m
  <= 365 + (if is_leap y then 1 else 0).
Proof.
  intros H. unfold days_before_month, days_in_month.
  each_month H; destruct (is_leap y); calc.
Qed.

Lemma days_before_month_next (y m : Z) :
  1 <= m < 12 ->
  days_before_month y (m + 1) = days_before_month y m + days_in_month y m.
Proof.
  intros H. unfold days_before_month, days_in_month.
  assert (H' : 1 <= m <= 12) by lia.
  each_month H'; try lia; destruct (is_leap y); calc.
Qed.

Lemma days_before_month_mono (y m1 m2 : Z) :
  1 <= m1 <= 12 -> 1 <= m2 <= 12 -> m1 < m2 ->
  days_before_month y m1 + days_in_month y m1 <= days_before_month y m2.
Proof.
  intros H1 H2 Hlt. unfold days_before_month, days_in_month.
  each_month H1; each_month H2; try lia; destruct (is_leap y); calc.
Qed.

Lemma days_before_month_nonneg (y m : Z) :
  1 <= m <= 12 -> 0 <= days_before_month y m.
Proof.
  intros H. unfold days_before_month.
  each_month H; destruct (is_leap y); calc.
Qed.

Lemma toordinal_lt (a b : date) :
  valid a -> valid b -> cmp a b = Lt -> toordinal a < toordinal b.
Proof.
  intros Va Vb. apply valid_fields in Va, Vb.
  destruct Va as (Ya & Ma & Da), Vb as (Yb & Mb & Db).
  unfold cmp, toordinal, ymd2ord.
  pose proof (month_end_bound (year a) (month a) Ma) as Ea.
  pose proof (days_before_month_nonneg (year b) (month b) Mb) as Nb.
  destruct (Z.compare_spec (year a) (year b)) as [Ey|Ly|Gy]; try discriminate.
  - rewrite Ey in *.
    destruct (Z.compare_spec (month a) (month b)) as [Em|Lm|Gm];
      try discriminate.
    + rewrite Em. intros Hd. rewrite Z.compare_lt_iff in Hd. lia.
    + intros _.
      pose proof (days_before_month_mono (year b) _ _ Ma Mb Lm). lia.
  - intros _.
    pose proof (days_before_year_succ (year a)) as S.
    pose proof (days_before_year_mono (year a + 1) (year b)). lia.
Qed.

Lemma cmp_eq (a b : date) : cmp a b = Eq -> a = b.
Proof.
  destruct a as [ya ma da], b as [yb mb db]. unfold cmp. cbn [year month day].
  destruct (Z.compare_spec ya yb) as [Ey| |]; try discriminate.
  destruct (Z.compare_spec ma mb) as [Em| |]; try discriminate.
  intros Ed. apply Z.compare_eq in Ed. congruence.
Qed.

Lemma cmp_refl (a : date) : cmp a a = Eq.
Proof. unfold cmp. now rewrite !Z.compare_refl. Qed.

Lemma cmp_gt (a b : date) : cmp a b = Gt -> cmp b a = Lt.
Proof.
  unfold cmp.
  rewrite (Z.compare_antisym (year a)), (Z.compare_antisym (month a)),
    (Z.compare_antisym (day a)).
  destruct (year a ?= year b), (month a ?= month b), (day a ?= day b);
    cbn; congruence.
Qed.

Lemma eqb_eq (a b : date) : eqb a b = true <-> a = b.
Proof.
  unfold eqb. split.
  - destruct (cmp a b) eqn:E; try discriminate. intros _. now apply cmp_eq.
  - intros ->. now rewrite cmp_refl.
Qed.

(** The tuple order of valid dates is the order of their day numbers. *)
Lemma leb_le (a b : date) :
  valid a -> valid b -> (leb a b = true <-> le a b).
Proof.
  intros Va Vb. unfold leb, le.
  destruct (cmp a b) eqn:E.
  - apply cmp_eq in E. subst. split; [lia|reflexivity].
  - pose proof (toordinal_lt a b Va Vb E). split; [lia|reflexivity].
  - apply cmp_gt in E. pose proof (toordinal_lt b a Vb Va E).
    split; [discriminate|lia].
Qed.

Lemma toordinal_inj (a b : date) :
  valid a -> valid b -> toordinal a = toordinal b -> a = b.
Proof.
  intros Va Vb H. destruct (cmp a b) eqn:E.
  - now apply cmp_eq.
  - pose proof (toordinal_lt a b Va Vb E). lia.
  - apply cmp_gt in E. pose proof (toordinal_lt b a Vb Va E). lia.
Qed.

Lemma toordinal_range (x : date) :
  valid x -> 1 <= toordinal x <= MAXORDINAL.
Proof.
  intros V. pose proof V as V'. apply valid_fields in V'.
  destruct V' as (Y & Mo & D). unfold MINYEAR, MAXYEAR in Y.
  pose proof (month_end_bound (year x) (month x) Mo).
  pose proof (days_before_month_nonneg (year x) (month x) Mo).
  pose proof (days_before_year_mono 1 (year x)).
  pose proof (days_before_year_mono (year x + 1) 10000).
  pose proof (days_before_year_succ (year x)).
  change (days_before_year 1) with 0 in *.
  change (days_before_year 10000) with 3652059 in *.
  unfold toordinal, ymd2ord, MAXORDINAL. lia.
Qed.

Lemma ymd_roundtrip (x : date) : valid x -> fromordinal (toordinal x) = x.
Proof.
  intros V. pose proof (toordinal_range x V) as R.
  destruct (ord_roundtrip _ R) as [V' E].
  now apply toordinal_inj.
Qed.

End CalendarFacts.

(* ================================================================== *)
(** ** Texts *)

Module TextFacts.
Import Unicode Text Bot Spec.

Lemma text_eqb_eq (a b : text) : text_eqb a b = true <-> a = b.
Proof.
  revert b. induction a as [|x a IH]; intros [|y b]; cbn; split;
    try congruence; try discriminate.
  - rewrite andb_true_iff, Z.eqb_eq, IH. intros [-> ->]. reflexivity.
  - intros E. injection E as -> ->. rewrite Z.eqb_refl. now apply IH.
Qed.

Lemma isdigit_char_range (c : char) :
  isdigit_char c = true <-> 48 <= c <= 57.
Proof. unfold isdigit_char, within. rewrite andb_true_iff, !Z.leb_le. tauto. Qed.

Lemma within_true (lo hi c : Z) : within lo hi c = true <-> lo <= c <= hi.
Proof. unfold within. rewrite andb_true_iff, !Z.leb_le. tauto. Qed.

Lemma isspace_true (c : char) :
  isspace c = true ->
  9 <= c <= 13 \/ 28 <= c <= 32 \/ 133 <= c.
Proof.
  unfold isspace. rewrite !orb_true_iff, !within_true, !Z.eqb_eq. lia.
Qed.

Lemma isspace_c_true (c : char) :
  isspace_c c = true <-> 9 <= c <= 13 \/ c = 32.
Proof.
  unfold isspace_c. rewrite orb_true_iff, within_true, Z.eqb_eq. tauto.
Qed.

(** An ASCII digit is no white space, no sign, no underscore and no
    separator. *)
Lemma digit_plain (c : char) :
  isdigit_char c = true ->
  isspace c = false /\ (c =? 45) = false /\ (c =? 43) = false
  /\ (c =? 95) = false /\ is_sep c = false.
Proof.
  intros H. apply isdigit_char_range in H.
  repeat split.
  - destruct (isspace c) eqn:E; [|reflexivity].
    apply isspace_true in E. lia.
  - apply Z.eqb_neq. lia.
  - apply Z.eqb_neq. lia.
  - apply Z.eqb_neq. lia.
  - unfold is_sep. apply orb_false_iff. split; apply Z.eqb_neq; lia.
Qed.

(** *** The decimal digits, one by one *)

Lemma to_decimal_some (c : char) (v : Z) :
  to_decimal c = Some v ->
  exists z, In z DECIMAL_ZEROS /\ z <= c <= z + 9 /\ v = c - z.
Proof.
  unfold to_decimal. destruct (find _ _) as [z|] eqn:F; [|discriminate].
  intros E. injection E as <-. apply find_some in F as [I W].
  apply within_true in W. eauto.
Qed.

Lemma is_decimal_value (c : char) :
  is_decimal c = true -> to_decimal c = Some (decimal_value c).
Proof.
  unfold is_decimal, decimal_value. now destruct (to_decimal c).
Qed.

Lemma decimal_value_range (c : char) :
  is_decimal c = true -> 0 <= decimal_value c <= 9.
Proof.
  intros D. apply is_decimal_value in D.
  apply to_decimal_some in D as (z & _ & R & ->). lia.
Qed.

Lemma decimal_listed (c : char) : is_decimal c = true -> In c DECIMALS.
Proof.
  intros D. apply is_decimal_value in D.
  apply to_decimal_some in D as (z & I & R & _).
  unfold DECIMALS. apply in_flat_map. exists z. split; [exact I|].
  replace c with (z + (c - z)) by lia. apply in_map. cbn [In]. lia.
Qed.

Lemma decimal_forall (p : char -> bool) :
  forallb p DECIMALS = true -> forall c, is_decimal c = true -> p c = true.
Proof.
  intros H c D. rewrite forallb_forall in H. apply H. now apply decimal_listed.
Qed.

(** A decimal digit is no white space, no sign, no underscore, no "#", no
    separator, and it is its own lower case. *)
Lemma decimal_plain (c : char) :
  is_decimal c = true ->
  isspace c = false /\ (c =? 35) = false /\ is_sep c = false
  /\ (c =? 931) = false /\ lower_char c = [c].
Proof.
  intros D.
  assert (K : forallb
                (fun c => negb (isspace c) && negb (c =? 35)
                          && negb (is_sep c) && negb (c =? 931)
                          && text_eqb (lower_char c) [c])
                DECIMALS = true) by (vm_compute; reflexivity).
  pose proof (decimal_forall _ K c D) as H. cbv beta in H.
  repeat (apply andb_prop in H; destruct H as [H ?]).
  repeat match goal with
         | X : negb _ = true |- _ => apply negb_true_iff in X
         end.
  repeat split; try assumption. now apply text_eqb_eq.
Qed.

(** The ASCII digit that [int] and [float] read for a decimal digit. *)
Lemma decimal_ascii (c : char) :
  is_decimal c = true ->
  (c <? 127) = true -> c = 48 + decimal_value c.
Proof.
  intros D.
  assert (K : forallb
                (fun c => negb (c <? 128) || (c =? 48 + decimal_value c))
                DECIMALS = true) by (vm_compute; reflexivity).
  pose proof (decimal_forall _ K c D) as H. cbv beta in H.
  intros L. apply Z.ltb_lt in L.
  destruct (Z.ltb_spec c 128); [|lia]. cbn in H. now apply Z.eqb_eq in H.
Qed.

Lemma transform_decimals (g : text) :
  Forall (fun c => is_decimal c = true) g ->
  transform g = map (fun c => 48 + decimal_value c) g.
Proof.
  induction 1 as [|c g D F IH]; cbn [transform map]; [reflexivity|].
  destruct (c <? 127) eqn:L.
  - now rewrite IH, <- (decimal_ascii c D L).
  - destruct (decimal_plain c D) as (S & _). rewrite S.
    now rewrite (is_decimal_value c D), IH.
Qed.

Lemma to_ascii_decimals (g : text) :
  Forall (fun c => is_decimal c = true) g ->
  to_ascii g = map (fun c => 48 + decimal_value c) g.
Proof.
  intros F. unfold to_ascii.
  destruct (forallb (fun c => c <? 128) g) eqn:A;
    [|now apply transform_decimals].
  rewrite forallb_forall in A. rewrite Forall_forall in F.
  rewrite <- (map_id g) at 1. apply map_ext_in. intros c I.
  apply (decimal_ascii c (F c I)). specialize (A c I).
  apply Z.ltb_lt in A. apply Z.ltb_lt.
  destruct (Z.eq_dec c 127) as [->|]; [|lia].
  specialize (F 127 I). discriminate F.
Qed.

Lemma ascii_digit (c : char) :
  is_decimal c = true ->
  isdigit_char (48 + decimal_value c) = true
  /\ digit_value (48 + decimal_value c) = decimal_value c.
Proof.
  intros D. apply decimal_value_range in D. split.
  - apply isdigit_char_range. lia.
  - unfold digit_value. lia.
Qed.

Lemma sep_no_digit (c : char) : is_sep c = true -> is_decimal c = false.
Proof.
  unfold is_sep. rewrite orb_true_iff, !Z.eqb_eq.
  intros [-> | ->]; reflexivity.
Qed.

(** *** The pattern of a date *)

Lemma digit_group_1 (a : char) : is_decimal a = true -> digit_group [a].
Proof. intros H. split; [now left|]. repeat constructor. exact H. Qed.

Lemma digit_group_2 (a b : char) :
  is_decimal a = true -> is_decimal b = true -> digit_group [a; b].
Proof. intros Ha Hb. split; [now right|]. repeat constructor; assumption. Qed.

Lemma digit_group_cases (g : text) :
  digit_group g ->
  (exists a, g = [a] /\ is_decimal a = true)
  \/ (exists a b, g = [a; b] /\ is_decimal a = true /\ is_decimal b = true).
Proof.
  intros [L F]. destruct g as [|a [|b [|c g]]]; cbn in L; try lia.
  - left. exists a. inversion F; subst. auto.
  - right. exists a, b. inversion F as [|? ? Ha F']; subst.
    inversion F'; subst. auto.
Qed.

Lemma digits_1_2_one (a : char) (rest : text) :
  is_decimal a = true -> no_digit_ahead rest ->
  digits_1_2 (a :: rest) = [([a], rest)].
Proof.
  intros Ha Hr. destruct rest as [|c rest]; cbn [digits_1_2]; rewrite Ha;
    [reflexivity|].
  cbn in Hr. now rewrite Hr.
Qed.

Lemma digits_1_2_two (a b : char) (rest : text) :
  is_decimal a = true -> is_decimal b = true ->
  digits_1_2 (a :: b :: rest) = [([a; b], rest); ([a], b :: rest)].
Proof. intros Ha Hb. cbn [digits_1_2]. now rewrite Ha, Hb. Qed.

Lemma second_group_some (g1 rest h1 g2 : text) :
  second_group g1 rest = Some (h1, g2) ->
  h1 = g1 /\ exists rest',
    rest = g2 ++ rest' /\ digit_group g2
    /\ (List.length g2 = 1%nat -> no_digit_ahead rest').
Proof.
  unfold second_group.
  destruct rest as [|a [|b rest]]; cbn [digits_1_2].
  - discriminate.
  - destruct (is_decimal a) eqn:Da; cbn; [|discriminate].
    intros E. injection E as <- <-. split; [reflexivity|].
    exists []. repeat split; auto using digit_group_1.
  - destruct (is_decimal a) eqn:Da; cbn [first_match]; [|discriminate].
    destruct (is_decimal b) eqn:Db; cbn [first_match fst]; intros E;
      injection E as <- <-; (split; [reflexivity|]).
    + exists rest. repeat split; auto using digit_group_2.
      cbn. discriminate.
    + exists (b :: rest). repeat split; auto using digit_group_1.
Qed.

Lemma second_group_intro (g1 g2 rest' : text) :
  digit_group g2 -> (List.length g2 = 1%nat -> no_digit_ahead rest') ->
  second_group g1 (g2 ++ rest') = Some (g1, g2).
Proof.
  intros G N. unfold second_group.
  destruct (digit_group_cases g2 G) as [(a & -> & Da) | (a & b & -> & Da & Db)].
  - cbn [app]. rewrite digits_1_2_one; auto.
  - cbn [app]. rewrite digits_1_2_two; auto.
Qed.

Lemma match_day_month_unfold (s : text) :
  match_day_month s
  = first_match (fun g => after_group (fst g) (snd g)) (digits_1_2 s).
Proof. reflexivity. Qed.

Lemma after_group_digit (g1 : text) (b : char) (rest : text) :
  is_decimal b = true -> after_group g1 (b :: rest) = None.
Proof.
  intros Db. cbn [after_group].
  destruct (decimal_plain b Db) as (_ & _ & Hs & _). now rewrite Hs.
Qed.

Lemma after_group_some (g1 tail h1 g2 : text) :
  after_group g1 tail = Some (h1, g2) ->
  h1 = g1 /\ exists sep rest',
    tail = sep :: g2 ++ rest' /\ is_sep sep = true /\ digit_group g2
    /\ (List.length g2 = 1%nat -> no_digit_ahead rest').
Proof.
  destruct tail as [|c rest]; cbn [after_group]; [discriminate|].
  destruct (is_sep c) eqn:Hs; [|discriminate].
  intros E. apply second_group_some in E as (-> & rest' & -> & G & N).
  split; [reflexivity|]. exists c, rest'. auto.
Qed.

Lemma match_day_month_spec (s g1 g2 : text) :
  match_day_month s = Some (g1, g2) <-> prefix_match s g1 g2.
Proof.
  rewrite match_day_month_unfold. split.
  - destruct s as [|a [|b s]]; cbn [digits_1_2].
    + discriminate.
    + destruct (is_decimal a) eqn:Da; cbn; discriminate.
    + destruct (is_decimal a) eqn:Da; [|discriminate].
      destruct (is_decimal b) eqn:Db; cbn [first_match fst snd].
      * destruct (after_group [a; b] s) as [[h1 h2]|] eqn:E.
        -- intros E'. injection E' as -> ->.
           apply after_group_some in E
             as (-> & sep & rest' & -> & Hs & G & N).
           exists sep, rest'. repeat split; auto using digit_group_2;
             apply G.
        -- rewrite after_group_digit by exact Db. discriminate.
      * destruct (after_group [a] (b :: s)) as [[h1 h2]|] eqn:E;
          [|discriminate].
        intros E'. injection E' as -> ->.
        apply after_group_some in E
          as (-> & sep & rest' & E & Hs & G & N).
        injection E as -> ->.
        exists sep, rest'. repeat split; auto using digit_group_1; apply G.
  - intros (sep & rest & -> & G1 & Hs & G2 & N).
    assert (A : forall g, after_group g (sep :: g2 ++ rest) = Some (g, g2)).
    { intros g. cbn [after_group]. rewrite Hs. now apply second_group_intro. }
    destruct (digit_group_cases g1 G1)
      as [(a & -> & Da) | (a & b & -> & Da & Db)]; cbn [app].
    + rewrite digits_1_2_one; auto.
      * cbn [first_match fst snd]. now rewrite A.
      * cbn. now apply sep_no_digit.
    + rewrite digits_1_2_two; auto. cbn [first_match fst snd]. now rewrite A.
Qed.

(** *** int on ASCII digits and on a digit group *)

Lemma lstrip_digit (a : char) (s : text) :
  isdigit_char a = true -> lstrip (a :: s) = a :: s.
Proof.
  intros Da. cbn. destruct (digit_plain a Da) as (Hs & _). now rewrite Hs.
Qed.

Lemma sign_digit (a : char) (s : text) :
  isdigit_char a = true -> sign (a :: s) = (false, a :: s).
Proof.
  intros Da. destruct (digit_plain a Da) as (_ & M & P & _).
  unfold sign. now rewrite M, P.
Qed.

Lemma digit_no_space_c (c : char) :
  isdigit_char c = true -> isspace_c c = false.
Proof.
  intros D. apply isdigit_char_range in D.
  destruct (isspace_c c) eqn:E; [|reflexivity].
  apply isspace_c_true in E. lia.
Qed.

Lemma ltrim_snoc (l : text) (a : char) :
  isspace_c a = false -> ltrim (l ++ [a]) = ltrim l ++ [a].
Proof.
  intros Ha. induction l as [|c l IH]; cbn.
  - now rewrite Ha.
  - destruct (isspace_c c); [exact IH | reflexivity].
Qed.

(** Texts of ASCII digits have nothing to trim. *)
Lemma trim_digits (s : text) :
  Forall (fun c => isdigit_char c = true) s -> trim s = s.
Proof.
  intros F. unfold trim.
  assert (L : forall t, Forall (fun c => isdigit_char c = true) t ->
                        ltrim t = t).
  { intros [|c t] Ft; [reflexivity|]. inversion Ft; subst. cbn.
    now rewrite digit_no_space_c. }
  rewrite (L s F), (L (rev s)) by now apply Forall_rev.
  apply rev_involutive.
Qed.

Lemma digitpart_rest_digits (s : text) :
  forall acc,
    Forall (fun c => isdigit_char c = true) s ->
    digitpart_rest acc s = (rev acc ++ map digit_value s, []).
Proof.
  induction s as [|c s IH]; intros acc F; cbn [digitpart_rest map].
  - now rewrite app_nil_r.
  - inversion F as [|? ? Hc F']; subst. rewrite Hc, IH by exact F'.
    cbn [rev]. now rewrite <- app_assoc.
Qed.

Lemma digitpart_digits (c : char) (s : text) :
  Forall (fun c => isdigit_char c = true) (c :: s) ->
  digitpart (c :: s) = Some (map digit_value (c :: s), []).
Proof.
  intros F. inversion F as [|? ? Hc F']; subst.
  unfold digitpart. rewrite Hc, digitpart_rest_digits by exact F'.
  reflexivity.
Qed.

(** [int] of a text of decimal digits, of any script and no more than
    [int] converts, is the number they write. *)
Lemma py_int_decimals (c : char) (s : text) :
  Forall (fun c => is_decimal c = true) (c :: s) ->
  Z.of_nat (List.length (c :: s)) <= MAX_STR_DIGITS ->
  py_int (c :: s) = Some (of_digits (map decimal_value (c :: s))).
Proof.
  intros F L. unfold py_int. rewrite (to_ascii_decimals _ F).
  assert (A : Forall (fun c => isdigit_char c = true)
                (map (fun c => 48 + decimal_value c) (c :: s))).
  { apply Forall_map. revert F. apply Forall_impl. intros a Da.
    now apply ascii_digit. }
  rewrite (trim_digits _ A). cbn [map] in *.
  inversion A as [|? ? Hc A']; subst.
  rewrite sign_digit by exact Hc.
  rewrite (digitpart_digits _ _ A).
  rewrite length_map. cbn [List.length] in *. rewrite length_map.
  apply Z.leb_le in L. rewrite L. cbn [map].
  rewrite map_map. do 3 f_equal.
  - inversion F; subst. now apply ascii_digit.
  - apply map_ext_in. intros a Ia. apply ascii_digit.
    rewrite Forall_forall in F. apply F. now right.
Qed.

Lemma py_int_group (g : text) :
  digit_group g -> py_int g = Some (group_value g).
Proof.
  intros G. unfold group_value.
  destruct (digit_group_cases g G) as [(a & -> & Da) | (a & b & -> & Da & Db)];
    (apply py_int_decimals;
     [repeat constructor; assumption | unfold MAX_STR_DIGITS; cbn; lia]).
Qed.

Lemma group_value_range (g : text) :
  digit_group g -> 0 <= group_value g <= 99.
Proof.
  intros G. unfold group_value.
  destruct (digit_group_cases g G) as [(a & -> & Da) | (a & b & -> & Da & Db)];
    repeat match goal with
           | D : is_decimal _ = true |- _ => apply decimal_value_range in D
           end;
    unfold of_digits; cbn [map fold_left]; lia.
Qed.

(** *** Trimming leaves a date pattern at the head alone *)

Lemma lstrip_snoc (l : text) (a : char) :
  isspace a = false -> lstrip (l ++ [a]) = lstrip l ++ [a].
Proof.
  intros Ha. induction l as [|c l IH]; cbn.
  - now rewrite Ha.
  - destruct (isspace c); [exact IH | reflexivity].
Qed.

Lemma rstrip_cons (a : char) (s : text) :
  isspace a = false -> rstrip (a :: s) = a :: rstrip s.
Proof.
  intros Ha. unfold rstrip. cbn [rev].
  rewrite lstrip_snoc by exact Ha. now rewrite rev_unit.
Qed.

Lemma lstrip_snoc_cases (l : text) (c : char) :
  lstrip (l ++ [c]) = [] \/ exists k, lstrip (l ++ [c]) = k ++ [c].
Proof.
  induction l as [|x l IH]; cbn.
  - destruct (isspace c); [now left | right; now exists []].
  - destruct (isspace x); [exact IH | right; now exists (x :: l)].
Qed.

Lemma rstrip_head (c : char) (s : text) :
  rstrip (c :: s) = [] \/ exists s', rstrip (c :: s) = c :: s'.
Proof.
  unfold rstrip. cbn [rev].
  destruct (lstrip_snoc_cases (rev s) c) as [-> | (k & ->)].
  - now left.
  - right. exists (rev k). now rewrite rev_unit.
Qed.

Lemma lstrip_decimal (a : char) (s : text) :
  is_decimal a = true -> lstrip (a :: s) = a :: s.
Proof.
  intros Da. cbn. destruct (decimal_plain a Da) as (Hs & _). now rewrite Hs.
Qed.

Lemma rstrip_group (g s : text) :
  digit_group g -> rstrip (g ++ s) = g ++ rstrip s.
Proof.
  intros [_ F]. induction F as [|c g Hc F IH]; cbn [app].
  - reflexivity.
  - destruct (decimal_plain c Hc) as (Hs & _).
    rewrite rstrip_cons by exact Hs. now rewrite IH.
Qed.

Lemma sep_no_space (c : char) : is_sep c = true -> isspace c = false.
Proof.
  unfold is_sep. rewrite orb_true_iff, !Z.eqb_eq.
  intros [-> | ->]; reflexivity.
Qed.

Lemma no_digit_ahead_rstrip (rest : text) :
  no_digit_ahead rest -> no_digit_ahead (rstrip rest).
Proof.
  destruct rest as [|c rest]; [intros _; exact I|].
  cbn [no_digit_ahead]. intros Hc.
  destruct (rstrip_head c rest) as [-> | (s' & ->)]; [exact I | exact Hc].
Qed.

(** The text of a date pattern followed by anything, trimmed, is the same
    pattern followed by something. *)
Lemma strip_pattern (g1 g2 rest : text) (sep : char) :
  digit_group g1 -> is_sep sep = true -> digit_group g2 ->
  strip (g1 ++ sep :: g2 ++ rest) = g1 ++ sep :: g2 ++ rstrip rest.
Proof.
  intros G1 Hs G2. unfold strip.
  assert (L : lstrip (g1 ++ sep :: g2 ++ rest) = g1 ++ sep :: g2 ++ rest).
  { destruct (digit_group_cases g1 G1) as [(a & -> & Da) | (a & b & -> & Da & _)];
      cbn [app]; now apply lstrip_decimal. }
  rewrite L, rstrip_group by exact G1.
  rewrite rstrip_cons by now apply sep_no_space.
  now rewrite rstrip_group by exact G2.
Qed.

(** *** Lower case *)

Lemma lower_in_listed (c x : char) (t : list (Z * Z * Z * Z)) :
  forallb (fun e => 0 <? snd (fst e)) t = true ->
  lower_in t c = Some x -> In (c, x) (flat_map hits t).
Proof.
  induction t as [|[[[lo hi] step] delta] t IH]; cbn [lower_in forallb];
    [discriminate|].
  intros P. apply andb_prop in P as [S P]. cbn [fst snd] in S.
  apply Z.ltb_lt in S. cbn [flat_map]. rewrite in_app_iff.
  destruct (within lo hi c && ((c - lo) mod step =? 0)) eqn:H.
  - intros E. injection E as <-. left.
    apply andb_prop in H as [W M]. apply within_true in W.
    apply Z.eqb_eq in M. unfold hits. apply in_map_iff.
    exists (Z.to_nat ((c - lo) / step)).
    assert (Q : 0 <= (c - lo) / step <= (hi - lo) / step).
    { split; [apply Z.div_pos; lia | apply Z.div_le_mono; lia]. }
    assert (C : c = lo + step * ((c - lo) / step)).
    { pose proof (Z.div_mod (c - lo) step ltac:(lia)). lia. }
    rewrite Z2Nat.id by lia. split; [now rewrite <- C|].
    apply in_seq. lia.
  - intros E. right. now apply IH.
Qed.

Lemma lower_pairs (c x : char) :
  lower_in LOWER c = Some x -> In (c, x) LOWER_PAIRS.
Proof. apply lower_in_listed. vm_compute. reflexivity. Qed.

Lemma lower_pairs_forall (p : char * char -> bool) :
  forallb p LOWER_PAIRS = true ->
  forall c x, lower_in LOWER c = Some x -> p (c, x) = true.
Proof.
  intros H c x E. rewrite forallb_forall in H. apply H. now apply lower_pairs.
Qed.

(** The lower case of a character, in any context, is one character or
    the two characters of U+0130. *)
Lemma lower_at_cases (b : text) (c : char) (r : text) :
  (c = 931 /\ (lower_at b c r = [962] \/ lower_at b c r = [963]))
  \/ (c = 304 /\ lower_at b c r = [105; 775])
  \/ (exists x, lower_in LOWER c = Some x /\ lower_at b c r = [x])
  \/ (c <> 931 /\ lower_in LOWER c = None /\ lower_at b c r = [c]).
Proof.
  unfold lower_at, lower_char.
  destruct (Z.eqb_spec c 931) as [->|N1].
  { left. split; [reflexivity|]. destruct (final_sigma b r); auto. }
  destruct (Z.eqb_spec c 304) as [->|N2]; [right; left; auto|].
  destruct (lower_in LOWER c) as [x|] eqn:E.
  - right. right. left. eauto.
  - right. right. right. auto.
Qed.

(** Digits and separators are their own lower case. *)
Lemma lower_at_plain (b : text) (c : char) (r : text) :
  plain c = true -> lower_at b c r = [c].
Proof.
  unfold plain. intros P. apply orb_prop in P as [D | S].
  - destruct (decimal_plain c D) as (_ & _ & _ & N & L).
    unfold lower_at. now rewrite N.
  - unfold is_sep in S. apply orb_prop in S as [S | S];
      apply Z.eqb_eq in S; subst c; reflexivity.
Qed.

(** The lower case of any other character starts with no digit and no
    separator. *)
Lemma lower_at_other (b : text) (c : char) (r : text) :
  plain c = false ->
  exists x tl, lower_at b c r = x :: tl /\ plain x = false.
Proof.
  intros P.
  destruct (lower_at_cases b c r)
    as [(_ & [E | E]) | [(_ & E) | [(x & L & E) | (_ & _ & E)]]];
    rewrite E; try (eexists; eexists; split; [reflexivity|]);
    try reflexivity; try exact P.
  assert (K : forallb (fun p => negb (plain (snd p))) LOWER_PAIRS = true)
    by (vm_compute; reflexivity).
  pose proof (lower_pairs_forall _ K c x L) as H. cbn [snd] in H.
  now apply negb_true_iff in H.
Qed.

Lemma lower_from_plain (p : text) :
  forall b r,
    forallb plain p = true ->
    lower_from b (p ++ r) = p ++ lower_from (rev p ++ b) r.
Proof.
  induction p as [|c p IH]; intros b r F; [reflexivity|].
  cbn [forallb] in F. apply andb_prop in F as [Pc F].
  cbn [app lower_from rev]. rewrite (lower_at_plain b c _ Pc).
  rewrite IH by exact F. now rewrite <- app_assoc.
Qed.

Lemma lower_from_plain_inv (p : text) :
  forall b s q,
    forallb plain p = true ->
    lower_from b s = p ++ q ->
    exists r, s = p ++ r /\ q = lower_from (rev p ++ b) r.
Proof.
  induction p as [|x p IH]; intros b s q F E.
  - exists s. auto.
  - cbn [forallb] in F. apply andb_prop in F as [Px F].
    destruct s as [|c s]; [discriminate|]. cbn [lower_from] in E.
    destruct (plain c) eqn:Pc.
    + rewrite (lower_at_plain b c s Pc) in E. cbn [app] in E.
      injection E as -> E.
      destruct (IH _ _ _ F E) as (r & -> & ->).
      exists r. cbn [rev app]. now rewrite <- app_assoc.
    + destruct (lower_at_other b c s Pc) as (y & tl & L & Py).
      rewrite L in E. cbn [app] in E. injection E as -> _. congruence.
Qed.

Lemma no_digit_ahead_lower (b rest : text) :
  no_digit_ahead (lower_from b rest) <-> no_digit_ahead rest.
Proof.
  destruct rest as [|c rest]; [reflexivity|].
  cbn [lower_from no_digit_ahead].
  destruct (plain c) eqn:Pc.
  - rewrite (lower_at_plain b c rest Pc). reflexivity.
  - destruct (lower_at_other b c rest Pc) as (y & tl & L & Py).
    rewrite L. cbn [app no_digit_ahead]. unfold plain in *.
    apply orb_false_iff in Pc as [Dc _]. apply orb_false_iff in Py as [Dy _].
    rewrite Dc, Dy. tauto.
Qed.

Lemma digit_group_plain (g : text) : digit_group g -> forallb plain g = true.
Proof.
  intros [_ F]. apply forallb_forall. intros c I.
  rewrite Forall_forall in F. unfold plain. now rewrite (F c I).
Qed.

Lemma pattern_plain (g1 g2 : text) (sep : char) :
  digit_group g1 -> is_sep sep = true -> digit_group g2 ->
  forallb plain (g1 ++ sep :: g2) = true.
Proof.
  intros G1 Hs G2. rewrite forallb_app. cbn [forallb].
  rewrite (digit_group_plain g1 G1), (digit_group_plain g2 G2).
  unfold plain at 1. now rewrite Hs, orb_true_r.
Qed.

(** Lowering a text neither makes nor breaks a date pattern at its
    head. *)
Lemma prefix_match_lower (s g1 g2 : text) :
  prefix_match (lower s) g1 g2 <-> prefix_match s g1 g2.
Proof.
  unfold lower. split.
  - intros (sep & rest & E & G1 & Hs & G2 & N).
    replace (g1 ++ sep :: g2 ++ rest) with ((g1 ++ sep :: g2) ++ rest) in E
      by (now rewrite <- app_assoc).
    destruct (lower_from_plain_inv _ _ _ _ (pattern_plain g1 g2 sep G1 Hs G2) E)
      as (r & -> & ->).
    exists sep, r. rewrite <- app_assoc. repeat split; auto; try apply G1;
      try apply G2.
    intros L. eapply no_digit_ahead_lower, N, L.
  - intros (sep & rest & -> & G1 & Hs & G2 & N).
    exists sep, (lower_from (rev (g1 ++ sep :: g2) ++ []) rest).
    replace (g1 ++ sep :: g2 ++ rest) with ((g1 ++ sep :: g2) ++ rest)
      by (now rewrite <- app_assoc).
    rewrite (lower_from_plain _ _ _ (pattern_plain g1 g2 sep G1 Hs G2)).
    rewrite <- app_assoc. repeat split; auto; try apply G1; try apply G2.
    intros L. apply no_digit_ahead_lower, N, L.
Qed.

(** *** The words for today *)

(** Only a letter of the two words and its capital have this letter as
    lower case. *)
Lemma lower_at_letter (k : char) (b : text) (c : char) (r : text) :
  In k LETTERS -> lower_at b c r = [k] -> same_letter k c.
Proof.
  intros I E.
  assert (R : 97 <= k <= 1103 /\ k <> 962 /\ k <> 963).
  { cbn in I. lia. }
  destruct (lower_at_cases b c r)
    as [(_ & [E' | E']) | [(_ & E') | [(x & L & E') | (_ & _ & E')]]];
    rewrite E' in E; try (injection E; lia); try discriminate.
  - injection E as ->.
    assert (K : forallb
                  (fun p => negb (existsb (Z.eqb (snd p)) LETTERS)
                            || (fst p =? snd p - 32))
                  LOWER_PAIRS = true) by (vm_compute; reflexivity).
    pose proof (lower_pairs_forall _ K c k L) as H. cbn [fst snd] in H.
    assert (X : existsb (Z.eqb k) LETTERS = true).
    { apply existsb_exists. exists k. split; [exact I | apply Z.eqb_refl]. }
    rewrite X in H. cbn in H. apply Z.eqb_eq in H. now right.
  - injection E as ->. now left.
Qed.

Lemma lower_at_same_letter (k : char) (b : text) (c : char) (r : text) :
  In k LETTERS -> same_letter k c -> lower_at b c r = [k].
Proof.
  intros I [-> | ->]; cbn in I;
    repeat (destruct I as [<- | I]; [reflexivity|]); contradiction.
Qed.

Lemma lower_from_spelled (word : text) :
  (forall k, In k word -> In k LETTERS) ->
  forall b s, lower_from b s = word <-> spelled word s.
Proof.
  unfold spelled. induction word as [|k word IH]; intros W b s.
  - split.
    + destruct s as [|c s]; [constructor|]. cbn [lower_from].
      destruct (lower_at_cases b c s)
        as [(_ & [E | E]) | [(_ & E) | [(x & _ & E) | (_ & _ & E)]]];
        rewrite E; discriminate.
    + intros F. inversion F. reflexivity.
  - assert (Ik : In k LETTERS) by (apply W; now left).
    assert (W' : forall j, In j word -> In j LETTERS)
      by (intros j Ij; apply W; now right).
    split.
    + destruct s as [|c s]; [discriminate|]. cbn [lower_from].
      intros E.
      assert (H : lower_at b c s = [k] /\ lower_from (c :: b) s = word).
      { destruct (lower_at_cases b c s)
          as [(_ & [L | L]) | [(_ & L) | [(x & _ & L) | (_ & _ & L)]]];
          rewrite L in E |- *; cbn [app] in E; injection E as E1 E2;
          subst k; try (split; [reflexivity | exact E2]).
        exfalso. cbn in Ik. lia. }
      destruct H as [L R]. constructor.
      * now apply (lower_at_letter k b c s).
      * now apply (IH W' (c :: b) s).
    + intros F. inversion F as [|? c ? s' Sk F']; subst. cbn [lower_from].
      rewrite (lower_at_same_letter k b c s' Ik Sk).
      cbn [app]. f_equal. now apply (IH W').
Qed.

(** A text is a word for today after lowering exactly when it spells
    one, in small or capital letters. *)
Lemma today_word_lower (s : text) : today_word (lower s) <-> today_text s.
Proof.
  unfold today_word, today_text, lower.
  rewrite (lower_from_spelled (lit "today")), (lower_from_spelled segodnya).
  - reflexivity.
  - intros k I. unfold LETTERS. apply in_or_app. now right.
  - intros k I. unfold LETTERS. apply in_or_app. now left.
Qed.

End TextFacts.

(* ================================================================== *)
(** ** Floats *)

Module FloatFacts.
Import Float64 Spec.


(** *** Rounding a positive number never gives a zero *)

Lemma digits2_succ (p : positive) :
  Zpos (digits2_pos p) <= Zpos (digits2_pos (Pos.succ p)).
Proof.
  induction p as [p IH|p IH|]; cbn [Pos.succ digits2_pos];
    rewrite ?Pos2Z.inj_succ; lia.
Qed.

Lemma Zdigits2_pos (m : Z) : 0 < m -> 0 < Zdigits2 m.
Proof. destruct m; cbn; lia. Qed.

Lemma Zdigits2_nonneg (m : Z) : 0 <= Zdigits2 m.
Proof. destruct m; cbn; lia. Qed.

Lemma Zdigits2_zero (m : Z) : 0 <= m -> Zdigits2 m <= 0 -> m = 0.
Proof. destruct m; cbn; lia. Qed.

Lemma Zdigits2_succ (m : Z) : 0 < m -> Zdigits2 m <= Zdigits2 (m + 1).
Proof.
  destruct m as [|p|p]; try lia. intros _.
  replace (Zpos p + 1) with (Zpos (Pos.succ p)) by lia.
  apply digits2_succ.
Qed.

Lemma shr_1_digits (mrs : shr_record) :
  0 <= shr_m mrs ->
  0 <= shr_m (shr_1 mrs)
  /\ Zdigits2 (shr_m (shr_1 mrs)) = Z.max 0 (Zdigits2 (shr_m mrs) - 1).
Proof.
  destruct mrs as [m r s]. cbn [shr_m]. intros Hm.
  destruct m as [|[p|p|]|p]; cbn [shr_1 shr_m Zdigits2 digits2_pos];
    rewrite ?Pos2Z.inj_succ; lia.
Qed.

Lemma iter_shr_1_digits (k : positive) :
  forall mrs,
    0 <= shr_m mrs ->
    0 <= shr_m (iter_pos shr_1 k mrs)
    /\ Zdigits2 (shr_m (iter_pos shr_1 k mrs))
       = Z.max 0 (Zdigits2 (shr_m mrs) - Zpos k).
Proof.
  induction k as [k IH|k IH|]; intros mrs Hm; cbn [iter_pos].
  - destruct (shr_1_digits mrs Hm) as [H1 E1].
    destruct (IH _ H1) as [H2 E2]. destruct (IH _ H2) as [H3 E3].
    split; [exact H3|]. rewrite E3, E2, E1. lia.
  - destruct (IH _ Hm) as [H2 E2]. destruct (IH _ H2) as [H3 E3].
    split; [exact H3|]. rewrite E3, E2. lia.
  - apply shr_1_digits. exact Hm.
Qed.

(** Shifting to the exponent of the format keeps a mantissa positive,
    and keeps its magnitude [digits + exponent], above the least
    exponent. *)
Lemma shr_fexp_positive (m e : Z) (l : location) :
  0 < m -> emin prec emax < Zdigits2 m + e ->
  let r := shr_fexp prec emax m e l in
  0 < shr_m (fst r)
  /\ Zdigits2 (shr_m (fst r)) + snd r = Zdigits2 m + e.
Proof.
  intros Hm Hd. unfold shr_fexp, shr.
  assert (M : shr_m (shr_record_of_loc m l) = m)
    by (destruct l as [|[]]; reflexivity).
  destruct (fexp prec emax (Zdigits2 m + e) - e) as [|k|k] eqn:N;
    cbn [fst snd]; rewrite ?M; try (split; lia).
  destruct (iter_shr_1_digits k (shr_record_of_loc m l)) as [H0 E];
    [rewrite M; lia|].
  rewrite M in E. unfold fexp, emin, prec, emax in *.
  assert (D : 0 < Zdigits2 (shr_m (iter_pos shr_1 k (shr_record_of_loc m l))))
    by lia.
  split; [|lia].
  destruct (Z.eq_dec (shr_m (iter_pos shr_1 k (shr_record_of_loc m l))) 0)
    as [Z0|NZ]; [rewrite Z0 in D; cbn in D; lia | lia].
Qed.

Lemma round_nearest_even_bounds (m : Z) (l : location) :
  round_nearest_even m l = m \/ round_nearest_even m l = m + 1.
Proof.
  unfold round_nearest_even. destruct l as [|[]]; auto.
  destruct (Z.even m); auto.
Qed.

Lemma binary_round_aux_nonzero (s : bool) (m e : Z) (l : location) :
  0 < m -> emin prec emax < Zdigits2 m + e ->
  is_zero (binary_round_aux prec emax s m e l) = false.
Proof.
  intros Hm Hd. unfold binary_round_aux.
  pose proof (shr_fexp_positive m e l Hm Hd) as P1. cbv zeta in P1.
  destruct (shr_fexp prec emax m e l) as [mrs' e']. cbn [fst snd] in P1.
  destruct P1 as [M1 D1].
  set (m1 := round_nearest_even (shr_m mrs') (loc_of_shr_record mrs')).
  assert (H1 : 0 < m1 /\ emin prec emax < Zdigits2 m1 + e').
  { pose proof (Zdigits2_succ _ M1).
    destruct (round_nearest_even_bounds (shr_m mrs') (loc_of_shr_record mrs'))
      as [E|E]; unfold m1; rewrite E; lia. }
  destruct H1 as [M2 D2].
  pose proof (shr_fexp_positive m1 e' loc_Exact M2 D2) as P2. cbv zeta in P2.
  destruct (shr_fexp prec emax m1 e' loc_Exact) as [mrs'' e''].
  cbn [fst snd] in P2. destruct P2 as [M3 _].
  destruct (shr_m mrs'') as [|p|p]; try lia.
  destruct (e'' <=? emax - prec); reflexivity.
Qed.

Lemma digits2_shift (p : positive) (k : positive) :
  Zpos (digits2_pos (Pos.iter xO p k)) = Zpos (digits2_pos p) + Zpos k.
Proof.
  rewrite Pos2Nat.inj_iter. rewrite <- (positive_nat_Z k).
  induction (Pos.to_nat k) as [|n IH]; cbn [nat_rect].
  - cbn. lia.
  - cbn [digits2_pos]. rewrite Pos2Z.inj_succ, IH. lia.
Qed.

Lemma binary_round_nonzero (s : bool) (p : positive) (e : Z) :
  emin prec emax < Zpos (digits2_pos p) + e ->
  is_zero (binary_round prec emax s p e) = false.
Proof.
  intros Hd. unfold binary_round, shl_align.
  destruct (fexp prec emax (Zpos (digits2_pos p) + e) - e) as [|k|k] eqn:N;
    apply binary_round_aux_nonzero; cbn [Zdigits2]; try lia.
  rewrite digits2_shift. lia.
Qed.

(** The float of a positive integer is not zero, so dividing by it is
    defined. *)
Lemma of_int_nonzero (n : Z) : 0 < n -> is_zero (of_int n) = false.
Proof.
  destruct n as [|p|p]; try lia. intros _.
  unfold of_int, binary_normalize. apply binary_round_nonzero.
  unfold emin, prec, emax. lia.
Qed.

Lemma truediv_of_int (a : float) (n : Z) :
  0 < n -> truediv a (of_int n) = Some (fdiv a (of_int n)).
Proof. intros H. unfold truediv. now rewrite of_int_nonzero. Qed.

Lemma truediv_zero (a b : float) : is_zero b = true -> truediv a b = None.
Proof. intros H. unfold truediv. now rewrite H. Qed.

Lemma truediv_nonzero (a b : float) :
  is_zero b = false -> truediv a b = Some (fdiv a b).
Proof. intros H. unfold truediv. now rewrite H. Qed.

(** *** Whole numbers add without rounding *)

Lemma digits2_size (p : positive) : digits2_pos p = Pos.size p.
Proof. induction p as [p IH|p IH|]; cbn; now rewrite ?IH. Qed.

(** The number of binary digits of a positive number, by its bounds. *)
Lemma Zdigits2_bounds (v : Z) :
  0 < v -> 2 ^ (Zdigits2 v - 1) <= v < 2 ^ Zdigits2 v.
Proof.
  destruct v as [|p|p]; try lia. intros _. cbn [Zdigits2].
  rewrite digits2_size. split.
  - pose proof (Pos.size_le p) as H.
    assert (E : 2 ^ Z.pos (Pos.size p) = 2 * 2 ^ (Z.pos (Pos.size p) - 1)).
    { rewrite <- Z.pow_succ_r by lia. f_equal. lia. }
    assert (K : Z.pos (2 ^ Pos.size p) <= Z.pos p~0) by exact H.
    rewrite Pos2Z.inj_pow in K. lia.
  - pose proof (Pos.size_gt p) as H.
    assert (K : Z.pos p < Z.pos (2 ^ Pos.size p)) by exact H.
    now rewrite Pos2Z.inj_pow in K.
Qed.

Lemma Zdigits2_unique (v d : Z) :
  0 < v -> 2 ^ (d - 1) <= v < 2 ^ d -> Zdigits2 v = d.
Proof.
  intros Hv [L U]. pose proof (Zdigits2_bounds v Hv) as [L' U'].
  assert (P : 0 < Zdigits2 v) by (destruct v; cbn; lia).
  assert (Q : 0 < d).
  { destruct (Z.ltb_spec 0 d); [assumption|]. exfalso.
    destruct d as [|p|p]; cbn in U; lia. }
  destruct (Z.lt_trichotomy (Zdigits2 v) d) as [C | [C | C]]; [|exact C|].
  - assert (2 ^ Zdigits2 v <= 2 ^ (d - 1)) by (apply Z.pow_le_mono_r; lia).
    lia.
  - assert (2 ^ d <= 2 ^ (Zdigits2 v - 1)) by (apply Z.pow_le_mono_r; lia).
    lia.
Qed.

Lemma Zdigits2_shift (v k : Z) :
  0 < v -> 0 <= k -> Zdigits2 (v * 2 ^ k) = Zdigits2 v + k.
Proof.
  intros Hv Hk. pose proof (Zdigits2_bounds v Hv) as [L U].
  assert (P : 0 < Zdigits2 v) by (destruct v; cbn; lia).
  assert (T : 0 < 2 ^ k) by (apply Z.pow_pos_nonneg; lia).
  apply Zdigits2_unique; [nia|].
  replace (Zdigits2 v + k - 1) with (Zdigits2 v - 1 + k) by lia.
  rewrite !Z.pow_add_r by lia. split; nia.
Qed.

Lemma shr_1_even (k : Z) :
  0 <= k ->
  shr_1 (Build_shr_record (2 * k) false false) = Build_shr_record k false false.
Proof. destruct k as [|p|p]; try lia; reflexivity. Qed.

Lemma iter_shr_1_exact (n : positive) :
  forall m,
    0 <= m ->
    iter_pos shr_1 n (Build_shr_record (m * 2 ^ Z.pos n) false false)
    = Build_shr_record m false false.
Proof.
  induction n as [n IH|n IH|]; intros m Hm; cbn [iter_pos].
  - assert (T : 0 < 2 ^ Z.pos n) by (apply Z.pow_pos_nonneg; lia).
    replace (m * 2 ^ Z.pos n~1) with (2 * (m * 2 ^ Z.pos n * 2 ^ Z.pos n)).
    2:{ replace (Z.pos n~1) with (1 + Z.pos n + Z.pos n) by lia.
        rewrite !Z.pow_add_r by lia. change (2 ^ 1) with 2. lia. }
    rewrite shr_1_even by nia. rewrite IH by nia. now apply IH.
  - assert (T : 0 < 2 ^ Z.pos n) by (apply Z.pow_pos_nonneg; lia).
    replace (m * 2 ^ Z.pos n~0) with (m * 2 ^ Z.pos n * 2 ^ Z.pos n).
    2:{ replace (Z.pos n~0) with (Z.pos n + Z.pos n) by lia.
        rewrite !Z.pow_add_r by lia. lia. }
    rewrite IH by nia. now apply IH.
  - change (2 ^ 1) with 2. rewrite Z.mul_comm. now apply shr_1_even.
Qed.

Lemma shift_value (m : positive) (d : positive) :
  Z.pos (Pos.iter xO m d) = Z.pos m * 2 ^ Z.pos d.
Proof.
  pose proof (Zpower.shift_pos_correct d m) as H.
  unfold Zpower.shift_pos in H. rewrite H. change (Z.pow_pos 2 d) with (2 ^ Z.pos d).
  lia.
Qed.

Lemma shl_align_value (m : positive) (e e' : Z) :
  e' <= e -> Z.pos (fst (shl_align m e e')) = Z.pos m * 2 ^ (e - e').
Proof.
  intros H. unfold shl_align.
  destruct (e' - e) as [|d|d] eqn:E; try lia; cbn [fst].
  - replace (e - e') with 0 by lia. cbn. lia.
  - rewrite shift_value. f_equal. f_equal. lia.
Qed.

Lemma fexp_small (d : Z) : 0 < d -> fexp prec emax d = d - 53.
Proof. intros H. unfold fexp, emin, prec, emax. lia. Qed.

(** The float of a whole number of at most 53 bits: its digits shifted to
    53 bits. *)
Lemma normal_mantissa (v : Z) :
  0 < v < 2 ^ 53 ->
  0 <= 53 - Zdigits2 v /\ 0 < v * 2 ^ (53 - Zdigits2 v)
  /\ Zdigits2 (v * 2 ^ (53 - Zdigits2 v)) = 53.
Proof.
  intros [Hv U]. pose proof (Zdigits2_bounds v Hv) as [L _].
  assert (P : 0 < Zdigits2 v) by (destruct v; cbn; lia).
  assert (D : Zdigits2 v <= 53).
  { destruct (Z.leb_spec (Zdigits2 v) 53); [assumption|]. exfalso.
    assert (2 ^ 53 <= 2 ^ (Zdigits2 v - 1)) by (apply Z.pow_le_mono_r; lia).
    lia. }
  assert (T : 0 < 2 ^ (53 - Zdigits2 v)) by (apply Z.pow_pos_nonneg; lia).
  split; [lia|]. split; [nia|]. rewrite Zdigits2_shift by lia. lia.
Qed.

(** Rounding [q * 2^e], a whole number [v] of at most 53 bits, gives the
    float of [v]. *)
Lemma binary_round_whole (s : bool) (q : positive) (e v : Z) :
  0 < v < 2 ^ 53 -> e <= 0 -> Z.pos q = v * 2 ^ (- e) ->
  binary_round prec emax s q e = normal s v.
Proof.
  intros V He Q. destruct (normal_mantissa v V) as (D & M & DM).
  assert (Dq : Z.pos (digits2_pos q) + e = Zdigits2 v).
  { change (Z.pos (digits2_pos q)) with (Zdigits2 (Z.pos q)).
    rewrite Q, Zdigits2_shift by lia. lia. }
  assert (P : 0 < Zdigits2 v) by (destruct v; cbn; lia).
  unfold binary_round. rewrite Dq, (fexp_small _ P).
  (* after the alignment and the first shift the mantissa is v * 2^(53 - D) *)
  assert (S1 : let '(mz, ez) := shl_align q e (Zdigits2 v - 53) in
               shr_fexp prec emax (Z.pos mz) ez loc_Exact
               = (Build_shr_record (v * 2 ^ (53 - Zdigits2 v)) false false,
                  Zdigits2 v - 53)).
  { unfold shl_align.
    destruct (Zdigits2 v - 53 - e) as [|n|n] eqn:N.
    - unfold shr_fexp. cbn [Zdigits2]. rewrite Dq, (fexp_small _ P).
      replace (Zdigits2 v - 53 - e) with 0 by lia. unfold shr.
      cbn [shr_record_of_loc].
      assert (E : - e = 53 - Zdigits2 v) by lia. rewrite Q, E.
      f_equal. lia.
    - unfold shr_fexp. cbn [Zdigits2]. rewrite Dq, (fexp_small _ P), N.
      unfold shr. cbn [shr_record_of_loc]. f_equal; [|lia].
      rewrite Q.
      replace (v * 2 ^ (- e))
        with (v * 2 ^ (53 - Zdigits2 v) * 2 ^ Z.pos n).
      2:{ rewrite <- Z.mul_assoc, <- Z.pow_add_r by lia. do 2 f_equal. lia. }
      apply iter_shr_1_exact. lia.
    - unfold shr_fexp. rewrite shift_value.
      assert (E : Z.pos q * 2 ^ Z.pos n = v * 2 ^ (53 - Zdigits2 v)).
      { rewrite Q, <- Z.mul_assoc, <- Z.pow_add_r by lia. do 2 f_equal. lia. }
      rewrite E, DM.
      replace (53 + (Zdigits2 v - 53)) with (Zdigits2 v) by lia.
      rewrite (fexp_small _ P), Z.sub_diag. reflexivity. }
  destruct (shl_align q e (Zdigits2 v - 53)) as [mz ez].
  unfold binary_round_aux. rewrite S1. cbn [shr_m loc_of_shr_record].
  cbn [round_nearest_even].
  unfold shr_fexp. rewrite DM.
  replace (53 + (Zdigits2 v - 53)) with (Zdigits2 v) by lia.
  rewrite (fexp_small _ P), Z.sub_diag. cbn [shr shr_record_of_loc shr_m].
  unfold normal.
  destruct (v * 2 ^ (53 - Zdigits2 v)) as [|m|m] eqn:Em; try lia.
  replace (Zdigits2 v - 53 <=? emax - prec) with true; [reflexivity|].
  symmetry. apply Z.leb_le. unfold emax, prec. lia.
Qed.

Lemma of_int_pos (p : positive) :
  Z.pos p < 2 ^ 53 -> of_int (Z.pos p) = normal false (Z.pos p).
Proof.
  intros H. unfold of_int, binary_normalize.
  apply binary_round_whole; [lia | lia|]. cbn. lia.
Qed.

Lemma of_int_neg (p : positive) :
  Z.pos p < 2 ^ 53 -> of_int (Z.neg p) = normal true (Z.pos p).
Proof.
  intros H. unfold of_int, binary_normalize.
  apply binary_round_whole; [lia | lia|]. cbn. lia.
Qed.

Lemma of_int_normal (z : Z) :
  z <> 0 -> Z.abs z < 2 ^ 53 -> of_int z = normal (z <? 0) (Z.abs z).
Proof.
  destruct z as [|p|p]; intros N B; [contradiction| |].
  - now apply of_int_pos.
  - now apply of_int_neg.
Qed.

(** The sum of the floats of two whole numbers is the float of their
    sum, as long as all three have at most 53 bits. *)
Lemma fadd_of_int (a b : Z) :
  Z.abs a < 2 ^ 53 -> Z.abs b < 2 ^ 53 -> Z.abs (a + b) < 2 ^ 53 ->
  fadd (of_int a) (of_int b) = of_int (a + b).
Proof.
  intros Ha Hb Hs.
  assert (Z0 : forall s v, 0 < v < 2 ^ 53 ->
                      fadd (of_int 0) (normal s v) = normal s v
                      /\ fadd (normal s v) (of_int 0) = normal s v).
  { intros s v V. destruct (normal_mantissa v V) as (_ & M & _).
    unfold normal. destruct (v * 2 ^ (53 - Zdigits2 v)); try lia.
    split; reflexivity. }
  destruct (Z.eq_dec a 0) as [->|Na].
  { cbn [Z.add]. destruct (Z.eq_dec b 0) as [->|Nb]; [reflexivity|].
    rewrite (of_int_normal b Nb Hb). apply Z0. lia. }
  destruct (Z.eq_dec b 0) as [->|Nb].
  { rewrite Z.add_0_r. rewrite (of_int_normal a Na Ha). apply Z0. lia. }
  clear Z0.
  rewrite (of_int_normal a Na Ha), (of_int_normal b Nb Hb).
  destruct (normal_mantissa (Z.abs a)) as (Da & Ma & _); [lia|].
  destruct (normal_mantissa (Z.abs b)) as (Db & Mb & _); [lia|].
  unfold normal.
  destruct (Z.abs a * 2 ^ (53 - Zdigits2 (Z.abs a))) as [|ma|ma] eqn:Ea;
    try lia.
  destruct (Z.abs b * 2 ^ (53 - Zdigits2 (Z.abs b))) as [|mb|mb] eqn:Eb;
    try lia.
  unfold fadd, SFadd.
  set (ea := Zdigits2 (Z.abs a) - 53) in *.
  set (eb := Zdigits2 (Z.abs b) - 53) in *.
  set (ez := Z.min ea eb).
  assert (Hz : ez <= ea /\ ez <= eb /\ ez <= 0) by (unfold ez, ea, eb; lia).
  assert (Va : cond_Zopp (a <? 0) (Z.pos (fst (shl_align ma ea ez)))
               = a * 2 ^ (- ez)).
  { rewrite shl_align_value by lia. rewrite <- Ea, <- Z.mul_assoc.
    rewrite <- Z.pow_add_r by (unfold ea in *; lia).
    replace (53 - Zdigits2 (Z.abs a) + (ea - ez)) with (- ez)
      by (unfold ea; lia).
    unfold cond_Zopp. destruct (Z.ltb_spec a 0); lia. }
  assert (Vb : cond_Zopp (b <? 0) (Z.pos (fst (shl_align mb eb ez)))
               = b * 2 ^ (- ez)).
  { rewrite shl_align_value by lia. rewrite <- Eb, <- Z.mul_assoc.
    rewrite <- Z.pow_add_r by (unfold eb in *; lia).
    replace (53 - Zdigits2 (Z.abs b) + (eb - ez)) with (- ez)
      by (unfold eb; lia).
    unfold cond_Zopp. destruct (Z.ltb_spec b 0); lia. }
  rewrite Va, Vb, <- Z.mul_add_distr_r.
  assert (T : 0 < 2 ^ (- ez)) by (apply Z.pow_pos_nonneg; lia).
  destruct (Z.eq_dec (a + b) 0) as [E0|N0].
  { rewrite E0. reflexivity. }
  rewrite (of_int_normal (a + b) N0 Hs).
  unfold binary_normalize.
  destruct ((a + b) * 2 ^ (- ez)) as [|q|q] eqn:Eq; [nia| |].
  - replace (a + b <? 0) with false by (symmetry; apply Z.ltb_ge; nia).
    apply binary_round_whole; [lia | lia|].
    rewrite Z.abs_eq by nia. now rewrite Eq.
  - replace (a + b <? 0) with true by (symmetry; apply Z.ltb_lt; nia).
    apply binary_round_whole; [lia | lia|].
    rewrite Z.abs_neq by nia. rewrite Z.mul_opp_l, Eq. reflexivity.
Qed.

(** The sum of whole-number floats is the float of the sum of the
    numbers, when no running sum needs more than 53 bits. *)
Lemma fold_of_int (zs : list Z) :
  forall acc,
    running acc zs ->
    fold_left fadd (map of_int zs) (of_int acc)
    = of_int (fold_left Z.add zs acc).
Proof.
  induction zs as [|z zs IH]; intros acc H; cbn [map fold_left];
    [reflexivity|].
  cbn [running] in H. destruct H as (Hacc & Hz & H).
  assert (Hs : Z.abs (acc + z) < 2 ^ 53) by (destruct zs; apply H).
  rewrite fadd_of_int by assumption. now apply IH.
Qed.

Lemma py_sum_of_int (zs : list Z) :
  small_sums zs -> py_sum (map of_int zs) = of_int (int_sum zs).
Proof. apply (fold_of_int zs 0). Qed.

(** Adding to the zero that [sum] starts from changes nothing, the sign
    of a negative zero apart. *)
Lemma py_sum_one (x : float) : x <> S754_zero true -> py_sum [x] = x.
Proof.
  intros N. unfold py_sum. cbn [fold_left].
  destruct x as [s| | |]; try reflexivity.
  destruct s; [contradiction | reflexivity].
Qed.

End FloatFacts.

(* ================================================================== *)
(** ** parse_date *)

Module DateFacts.
Import Text Calendar Bot Spec TextFacts CalendarFacts.

Lemma today_word_decide (s : text) :
  text_eqb s segodnya || text_eqb s (lit "today") = true <-> today_word s.
Proof.
  unfold today_word. rewrite orb_true_iff, !text_eqb_eq. tauto.
Qed.

Lemma parse_date_unfold (c : clock) (t : text) :
  parse_date c t
  = if text_eqb (lower (strip t)) segodnya
       || text_eqb (lower (strip t)) (lit "today")
    then Some (utc_today c) else numeric_date c (lower (strip t)).
Proof. reflexivity. Qed.

Lemma numeric_date_spec (c : clock) (s : text) (d : date) :
  numeric_date c s = Some d <->
  exists g1 g2,
    prefix_match s g1 g2
    /\ check_date_fields (local_year c) (group_value g2) (group_value g1) = true
    /\ d = mkdate (local_year c) (group_value g2) (group_value g1).
Proof.
  unfold numeric_date. split.
  - destruct (match_day_month s) as [[g1 g2]|] eqn:E; [|discriminate].
    apply match_day_month_spec in E.
    pose proof E as (sep & rest & _ & G1 & _ & G2 & _).
    rewrite (py_int_group g1 G1), (py_int_group g2 G2). unfold new_date.
    destruct (check_date_fields _ _ _) eqn:V; [|discriminate].
    intros H. injection H as <-. exists g1, g2. auto.
  - intros (g1 & g2 & P & V & ->).
    pose proof P as (sep & rest & _ & G1 & _ & G2 & _).
    apply match_day_month_spec in P. rewrite P.
    rewrite (py_int_group g1 G1), (py_int_group g2 G2). unfold new_date.
    now rewrite V.
Qed.

(** A text that starts with a digit is no word for today. *)
Lemma match_not_today (s g1 g2 : text) :
  prefix_match s g1 g2 -> ~ today_word s.
Proof.
  intros (sep & rest & -> & G1 & _) [E | E];
    destruct (digit_group_cases g1 G1) as [(a & -> & Da) | (a & b & -> & Da & _)];
    cbn in E; injection E as Ea _; subst a; discriminate Da.
Qed.

(** A text with a date pattern at its head, after trimming, is read as
    the day and the month of the pattern. *)
Lemma parse_date_of_match (c : clock) (t g1 g2 : text) :
  prefix_match (strip t) g1 g2 ->
  parse_date c t = new_date (local_year c) (group_value g2) (group_value g1).
Proof.
  intros P. rewrite parse_date_unfold.
  apply (proj2 (prefix_match_lower _ _ _)) in P.
  assert (T : text_eqb (lower (strip t)) segodnya
              || text_eqb (lower (strip t)) (lit "today") = false).
  { destruct (text_eqb _ segodnya || text_eqb _ (lit "today")) eqn:T;
      [|reflexivity].
    apply today_word_decide in T. now apply match_not_today in P. }
  rewrite T. unfold numeric_date.
  pose proof P as (sep & rest & _ & G1 & _ & G2 & _).
  apply match_day_month_spec in P. rewrite P.
  now rewrite (py_int_group g1 G1), (py_int_group g2 G2).
Qed.

(** The text behind the day and month is ignored. *)
Lemma parse_date_suffix (c : clock) (g1 g2 rest : text) (sep : char) :
  digit_group g1 -> is_sep sep = true -> digit_group g2 ->
  (List.length g2 = 2%nat \/ no_digit_ahead rest) ->
  parse_date c (g1 ++ sep :: g2 ++ rest)
  = new_date (local_year c) (group_value g2) (group_value g1).
Proof.
  intros G1 Hs G2 N. apply parse_date_of_match.
  rewrite (strip_pattern g1 g2 rest sep G1 Hs G2).
  exists sep, (rstrip rest). repeat split; auto; try apply G1; try apply G2.
  intros L. destruct N as [N | N]; [lia | now apply no_digit_ahead_rstrip].
Qed.

Lemma february_31 (c : clock) : parse_date c (lit "31.02") = None.
Proof.
  change (lit "31.02") with ([51; 49] ++ 46 :: [48; 50] ++ []).
  rewrite parse_date_suffix;
    [| now apply digit_group_2 | reflexivity | now apply digit_group_2
     | now left].
  change (group_value [48; 50]) with 2. change (group_value [51; 49]) with 31.
  unfold new_date, check_date_fields, days_in_month.
  destruct (is_leap (local_year c));
    rewrite ?andb_false_r; reflexivity.
Qed.

(** C5 (as amended). [parse_date] returns the current UTC date for the
    words "today" and "сегодня", each letter small or capital, with white
    space around them. Any other text is accepted exactly when, trimmed,
    it starts with a match of D[./]M (one or two decimal digits each, of
    any script, the day first, the month taken greedily) whose day and
    month form a date of the current year, and the result is that date.
    The text behind the match is not looked at: a text that starts with a
    day, a separator and a month (of two digits, or with no digit behind
    it) is read as that day and month whatever follows, so a year suffix
    is ignored and never makes the parse fail. A text with no such start,
    or with an impossible day and month such as 31.02, gives no date. *)
Theorem parse_date_prefix (c : clock) (t : text) :
  (forall d,
     parse_date c t = Some d <->
     (today_text (strip t) /\ d = utc_today c)
     \/ (exists g1 g2,
           prefix_match (strip t) g1 g2
           /\ check_date_fields (local_year c)
                (group_value g2) (group_value g1) = true
           /\ d = mkdate (local_year c) (group_value g2) (group_value g1)))
  /\ (forall g1 sep g2 rest,
        digit_group g1 -> is_sep sep = true -> digit_group g2 ->
        List.length g2 = 2%nat \/ no_digit_ahead rest ->
        parse_date c (g1 ++ sep :: g2 ++ rest)
        = new_date (local_year c) (group_value g2) (group_value g1))
  /\ parse_date c (lit "31.02") = None
  /\ parse_date c [1634; 1633; 46; 1632; 1639]
     = new_date (local_year c) 7 21.
Proof.
  split; [|split; [intros; now apply parse_date_suffix
                  |split; [apply february_31|]]].
  - intros d. split.
    + rewrite parse_date_unfold.
      destruct (text_eqb (lower (strip t)) segodnya
                || text_eqb (lower (strip t)) (lit "today")) eqn:T.
      * apply today_word_decide, today_word_lower in T.
        intros E. injection E as <-. left. auto.
      * rewrite numeric_date_spec. intros (g1 & g2 & P & V & ->).
        right. exists g1, g2. apply (proj1 (prefix_match_lower _ _ _)) in P.
        split; [exact P | split; [exact V | reflexivity]].
    + intros [[W ->] | (g1 & g2 & P & V & ->)].
      * rewrite parse_date_unfold.
        apply today_word_lower, today_word_decide in W. now rewrite W.
      * rewrite (parse_date_of_match c t g1 g2 P). unfold new_date.
        now rewrite V.
  - change [1634; 1633; 46; 1632; 1639]
      with ([1634; 1633] ++ 46 :: [1632; 1639] ++ []).
    rewrite parse_date_suffix;
      [| now apply digit_group_2 | reflexivity | now apply digit_group_2
       | now left].
    reflexivity.
Qed.

(** C5, as the claim states it, fails: a text with a year suffix, and a
    text with other characters behind the month, are accepted, and read
    as the day and month of the current year. *)
Lemma parse_date_accepts_year_suffix :
  let c := mkClock (mkdate 2025 3 1) 2025 in
  parse_date c (lit "21.07.2024") = Some (mkdate 2025 7 21)
  /\ parse_date c (lit "21/07/1999") = Some (mkdate 2025 7 21)
  /\ parse_date c (lit "21.07abc") = Some (mkdate 2025 7 21).
Proof. cbv zeta. split; [|split]; vm_compute; reflexivity. Qed.

End DateFacts.

(* ================================================================== *)
(** ** The payroll week and the month *)

Module RangeFacts.
Import Text Calendar Bot Spec CalendarFacts.


Lemma add_days_some (x : date) (k : Z) :
  valid x -> 1 <= toordinal x + k <= MAXORDINAL ->
  exists y, add_days x k = Some y /\ valid y /\ toordinal y = toordinal x + k.
Proof.
  intros V R. unfold add_days. cbv zeta.
  replace ((0 <? toordinal x + k) && (toordinal x + k <=? MAXORDINAL))
    with true by (symmetry; apply andb_true_iff; split;
                  [apply Z.ltb_lt | apply Z.leb_le]; lia).
  destruct (ord_roundtrip _ R) as [Vy Ey]. eauto.
Qed.

Lemma add_days_none (x : date) (k : Z) :
  ~ (1 <= toordinal x + k <= MAXORDINAL) -> add_days x k = None.
Proof.
  intros R. unfold add_days. cbv zeta.
  destruct (Z.ltb_spec 0 (toordinal x + k)),
    (Z.leb_spec (toordinal x + k) MAXORDINAL); cbn; try reflexivity. lia.
Qed.

Lemma tuesday_week_range_unfold (r : date) (w : world) :
  tuesday_week_range (Some r) w
  = match sub_days r ((weekday r - 1) mod 7) with
    | Some start =>
        match add_days start 6 with
        | Some stop => (Ok (start, stop), w)
        | None => (Raise OverflowError, w)
        end
    | None => (Raise OverflowError, w)
    end.
Proof.
  unfold tuesday_week_range, bind, get_clock, or_raise, ret, raise.
  destruct (sub_days r _); [|reflexivity].
  destruct (add_days d 6); reflexivity.
Qed.

(** C6 (as amended). For every reference date from 0001-01-02 to
    9999-12-27, [tuesday_week_range] returns a window whose start is a
    Tuesday, whose end is six days later, and which holds the reference
    date; it changes nothing else. (Outside these dates the start or the
    end would leave the range of [date], and the function raises.) *)
Theorem tuesday_week_range_window (r : date) (w : world) :
  valid r -> 2 <= toordinal r <= MAXORDINAL - 4 ->
  exists start stop,
    tuesday_week_range (Some r) w = (Ok (start, stop), w)
    /\ valid start /\ valid stop
    /\ weekday start = 1
    /\ add_days start 6 = Some stop
    /\ toordinal stop = toordinal start + 6
    /\ leb start r = true /\ leb r stop = true.
Proof.
  intros V R. rewrite tuesday_week_range_unfold.
  unfold MAXORDINAL in R.
  set (off := (weekday r - 1) mod 7).
  assert (Hoff : 0 <= off <= 6 /\ (toordinal r - off) mod 7 = 2).
  { unfold off, weekday. div_lia. }
  destruct Hoff as [Hoff Htue].
  destruct (add_days_some r (- off) V) as (start & E1 & V1 & O1).
  { unfold MAXORDINAL. div_lia. }
  unfold sub_days. rewrite E1.
  destruct (add_days_some start 6 V1) as (stop & E2 & V2 & O2).
  { rewrite O1. unfold MAXORDINAL. div_lia. }
  rewrite E2. exists start, stop.
  repeat split; auto.
  - unfold weekday. rewrite O1. div_lia.
  - apply leb_le; auto. unfold le. lia.
  - apply leb_le; auto. unfold le. lia.
Qed.

(** C6, as the claim states it, fails at both ends of the calendar: for
    the first day there is no Tuesday before, for the last days the
    window would end after 9999-12-31; the function raises. *)
Lemma tuesday_week_range_overflow :
  let w := snd (fresh clock0) in
  valid (mkdate 1 1 1) /\ valid (mkdate 9999 12 31)
  /\ tuesday_week_range (Some (mkdate 1 1 1)) w = (Raise OverflowError, w)
  /\ tuesday_week_range (Some (mkdate 9999 12 31)) w = (Raise OverflowError, w).
Proof. repeat split; reflexivity. Qed.

Lemma new_date_valid (y m d : Z) :
  valid (mkdate y m d) -> new_date y m d = Some (mkdate y m d).
Proof. unfold valid, new_date. cbn [year month day]. now intros ->. Qed.

Lemma first_of_month_valid (y m : Z) :
  MINYEAR <= y <= MAXYEAR -> 1 <= m <= 12 -> valid (mkdate y m 1).
Proof.
  intros Y Mo. apply valid_fields. cbn [year month day].
  repeat split; try lia. unfold days_in_month.
  each_month Mo; destruct (is_leap y); calc.
Qed.

Lemma last_of_month_valid (y m : Z) :
  MINYEAR <= y <= MAXYEAR -> 1 <= m <= 12 ->
  valid (mkdate y m (days_in_month y m)).
Proof.
  intros Y Mo. apply valid_fields. cbn [year month day].
  repeat split; try lia. unfold days_in_month.
  each_month Mo; destruct (is_leap y); calc.
Qed.

Lemma date_of_run (y m d : Z) (w : world) :
  date_of y m d w = (date_result y m d, w).
Proof.
  unfold date_of, date_result.
  destruct (c_int y && c_int m && c_int d); [|reflexivity].
  destruct (new_date y m d); reflexivity.
Qed.

Lemma days_in_month_range (y m : Z) :
  1 <= m <= 12 -> 28 <= days_in_month y m <= 31.
Proof.
  intros H. unfold days_in_month.
  each_month H; destruct (is_leap y); split; calc.
Qed.

Lemma date_result_valid (y m d : Z) :
  valid (mkdate y m d) -> date_result y m d = Ok (mkdate y m d).
Proof.
  intros V. unfold date_result. rewrite (new_date_valid y m d V).
  apply valid_fields in V. cbn [year month day] in V.
  destruct V as (Y & Mo & D).
  pose proof (days_in_month_range y m Mo).
  unfold MINYEAR, MAXYEAR in Y.
  replace (c_int y && c_int m && c_int d) with true; [reflexivity|].
  symmetry. unfold c_int. rewrite !andb_true_iff, !Z.leb_le. lia.
Qed.

Lemma month_range_unfold (y m : Z) (w : world) :
  month_range y m w
  = match date_result y m 1 with
    | Raise e => (Raise e, w)
    | Ok start =>
        if m =? 12 then
          match date_result y 12 31 with
          | Ok stop => (Ok (start, stop), w)
          | Raise e => (Raise e, w)
          end
        else
          match date_result y (m + 1) 1 with
          | Raise e => (Raise e, w)
          | Ok first =>
              match sub_days first 1 with
              | Some stop => (Ok (start, stop), w)
              | None => (Raise OverflowError, w)
              end
          end
    end.
Proof.
  unfold month_range, bind. rewrite date_of_run.
  destruct (date_result y m 1) as [start|e]; [|reflexivity].
  destruct (m =? 12).
  - rewrite date_of_run. destruct (date_result y 12 31); reflexivity.
  - unfold bind. rewrite date_of_run.
    destruct (date_result y (m + 1) 1) as [first|e]; [|reflexivity].
    unfold or_raise, ret, raise. destruct (sub_days first 1); reflexivity.
Qed.

Lemma month_range_bounds (y m : Z) (w : world) :
  MINYEAR <= y <= MAXYEAR -> 1 <= m <= 12 ->
  month_range y m w
  = (Ok (mkdate y m 1, mkdate y m (days_in_month y m)), w).
Proof.
  intros Y Mo. rewrite month_range_unfold.
  rewrite (date_result_valid _ _ _ (first_of_month_valid y m Y Mo)).
  destruct (Z.eqb_spec m 12) as [->|Hm].
  - rewrite (date_result_valid y 12 31 (last_of_month_valid y 12 Y Mo)).
    reflexivity.
  - assert (Mo' : 1 <= m + 1 <= 12) by lia.
    rewrite (date_result_valid _ _ _ (first_of_month_valid y (m + 1) Y Mo')).
    pose proof (last_of_month_valid y m Y Mo) as VL.
    pose proof (toordinal_range _ VL) as RL.
    assert (E : toordinal (mkdate y (m + 1) 1) + - (1)
                = toordinal (mkdate y m (days_in_month y m))).
    { unfold toordinal, ymd2ord. cbn [year month day].
      rewrite days_before_month_next by lia. lia. }
    unfold sub_days, add_days. cbv zeta. rewrite E.
    replace ((0 <? _) && (_ <=? MAXORDINAL)) with true
      by (symmetry; apply andb_true_iff; split;
          [apply Z.ltb_lt | apply Z.leb_le]; lia).
    now rewrite ymd_roundtrip.
Qed.

Lemma tuesday_week_range_window_witness :
  valid (mkdate 2024 7 21)
  /\ 2 <= toordinal (mkdate 2024 7 21) <= MAXORDINAL - 4
  /\ exists start stop,
       tuesday_week_range (Some (mkdate 2024 7 21)) (snd (fresh clock0))
       = (Ok (start, stop), snd (fresh clock0))
       /\ valid start /\ valid stop
       /\ weekday start = 1
       /\ add_days start 6 = Some stop
       /\ toordinal stop = toordinal start + 6
       /\ leb start (mkdate 2024 7 21) = true
       /\ leb (mkdate 2024 7 21) stop = true.
Proof.
  split; [reflexivity|]. split; [vm_compute; split; discriminate|].
  apply (tuesday_week_range_window (mkdate 2024 7 21) (snd (fresh clock0))).
  - reflexivity.
  - vm_compute. split; discriminate.
Defined.

Lemma show_month_run (a0 : text) (rest : list text) (m : Z) (w : world) :
  isdigit a0 = true -> py_int a0 = Some m ->
  show_month (a0 :: rest) w
  = bind (month_range (year (utc_today (now w))) m)
      (fun r => show_report (fst r) (snd r) (LabelMonth m)) w.
Proof. intros D I. unfold show_month. rewrite D, I. reflexivity. Qed.

(** C8. For every year of the calendar and every month from 1 to 12,
    the bounds that [show_month] computes are the first and the last day
    of the month: for December the end is the 31st, for the other months
    it is the day before the first of the next month; for April it is the
    30th. [show_month] reports on these bounds. *)
Theorem month_range_first_last (y m : Z) (w : world) :
  MINYEAR <= y <= MAXYEAR -> 1 <= m <= 12 ->
  month_range y m w
  = (Ok (mkdate y m 1, mkdate y m (days_in_month y m)), w)
  /\ valid (mkdate y m 1) /\ valid (mkdate y m (days_in_month y m))
  /\ (forall d, valid (mkdate y m d) -> 1 <= d <= days_in_month y m)
  /\ (m = 12 -> days_in_month y m = 31)
  /\ (m < 12 ->
      sub_days (mkdate y (m + 1) 1) 1
      = Some (mkdate y m (days_in_month y m)))
  /\ (m = 4 -> days_in_month y m = 30)
  /\ (forall a0 rest,
        isdigit a0 = true -> py_int a0 = Some m ->
        year (utc_today (now w)) = y ->
        show_month (a0 :: rest) w
        = show_report (mkdate y m 1) (mkdate y m (days_in_month y m))
            (LabelMonth m) w).
Proof.
  intros Y Mo.
  pose proof (month_range_bounds y m w Y Mo) as R.
  split; [exact R|].
  split; [now apply first_of_month_valid|].
  split; [now apply last_of_month_valid|].
  split; [|split; [|split; [|split]]].
  - intros d V. apply valid_fields in V. cbn [year month day] in V. lia.
  - intros ->. reflexivity.
  - intros Hm. rewrite month_range_unfold in R.
    rewrite (date_result_valid _ _ _ (first_of_month_valid y m Y Mo)) in R.
    destruct (Z.eqb_spec m 12) as [E|_]; [lia|].
    assert (Mo' : 1 <= m + 1 <= 12) by lia.
    rewrite (date_result_valid _ _ _ (first_of_month_valid y (m + 1) Y Mo'))
      in R.
    destruct (sub_days (mkdate y (m + 1) 1) 1); congruence.
  - intros ->. reflexivity.
  - intros a0 rest D I E. rewrite (show_month_run a0 rest m w D I), E.
    unfold bind. now rewrite R.
Qed.

Lemma month_range_first_last_witness :
  MINYEAR <= 2024 <= MAXYEAR /\ 1 <= 2 <= 12
  /\ month_range 2024 2 (snd (fresh clock0))
     = (Ok (mkdate 2024 2 1, mkdate 2024 2 29), snd (fresh clock0))
  /\ month_range 2023 12 (snd (fresh clock0))
     = (Ok (mkdate 2023 12 1, mkdate 2023 12 31), snd (fresh clock0))
  /\ month_range 2023 4 (snd (fresh clock0))
     = (Ok (mkdate 2023 4 1, mkdate 2023 4 30), snd (fresh clock0)).
Proof.
  split; [vm_compute; split; discriminate|].
  split; [vm_compute; split; discriminate|].
  split; [|split].
  - apply (month_range_first_last 2024 2 (snd (fresh clock0)));
      vm_compute; split; discriminate.
  - apply (month_range_first_last 2023 12 (snd (fresh clock0)));
      vm_compute; split; discriminate.
  - apply (month_range_first_last 2023 4 (snd (fresh clock0)));
      vm_compute; split; discriminate.
Defined.

End RangeFacts.

(* ================================================================== *)
(** ** Recording a deal *)

Module DealFacts.
Import Text Calendar Float64 Bot Spec FloatFacts.

(** *** The ledger file *)

Lemma load_deals_view (w : world) : load_deals w = (Ok (view w), w).
Proof.
  unfold view, load_deals.
  destruct (SAVE_FILE w); reflexivity.
Qed.

Lemma view_holds (w : world) (deals : ledger) :
  SAVE_FILE w = Holds deals -> view w = deals.
Proof. unfold view, load_deals. now intros ->. Qed.


(** *** Steps of the monad *)

Lemma bind_lookup {A B} (field : user_data -> option A) (k : A -> M B)
  (w : world) (a : A) :
  field (user w) = Some a -> bind (lookup field) k w = k a w.
Proof. intros H. unfold bind, lookup. now rewrite H. Qed.

Lemma bind_lookup_none {A B} (field : user_data -> option A) (k : A -> M B)
  (w : world) :
  field (user w) = None -> bind (lookup field) k w = (Raise KeyError, w).
Proof. intros H. unfold bind, lookup. now rewrite H. Qed.

Lemma bind_div {B} (a b c : float) (k : float -> M B) (w : world) :
  truediv a b = Some c -> bind (div a b) k w = k c w.
Proof. intros H. unfold bind, div. now rewrite H. Qed.

Lemma bind_div_none {B} (a b : float) (k : float -> M B) (w : world) :
  truediv a b = None -> bind (div a b) k w = (Raise ZeroDivisionError, w).
Proof. intros H. unfold bind, div. now rewrite H. Qed.

Lemma bind_load {B} (k : ledger -> M B) (w : world) :
  bind load_deals k w = k (view w) w.
Proof. unfold bind. now rewrite load_deals_view. Qed.

Lemma bind_clock {B} (k : clock -> M B) (w : world) :
  bind get_clock k w = k (now w) w.
Proof. reflexivity. Qed.

Lemma get_members_none (txt : text) (w : world) :
  findall_members (strip txt) = [] ->
  get_members txt w = (Ok MEMBERS, replied w NeedMember).
Proof. unfold get_members. intros ->. reflexivity. Qed.

Lemma get_members_run (txt : text) (w : world) (m : text) (ms : list text)
  (d : date) (nm : text) (a f r : float) :
  findall_members (strip txt) = m :: ms ->
  user w = mkUser (Some d) (Some nm) (Some a) (Some f) (Some r) ->
  get_members txt w
  = if is_zero r then (Raise ZeroDivisionError, w)
    else
      let deal := new_deal (view w) d nm a f r (m :: ms) in
      (Ok END, saved w (view w ++ [deal]) (Saved deal (List.length (m :: ms)))).
Proof.
  intros Hm Hu. unfold get_members. rewrite Hm.
  rewrite (bind_lookup ud_amount _ w a) by now rewrite Hu.
  rewrite (bind_lookup ud_fee _ w f) by now rewrite Hu.
  rewrite (bind_lookup ud_rate _ w r) by now rewrite Hu.
  rewrite (bind_div _ _ _ _ w (truediv_of_int _ 100 eq_refl)).
  destruct (is_zero r) eqn:Zr.
  - now rewrite (bind_div_none _ _ _ w (truediv_zero _ r Zr)).
  - rewrite (bind_div _ _ _ _ w (truediv_nonzero _ r Zr)).
    erewrite bind_div
      by (apply truediv_of_int; cbn [List.length]; lia).
    rewrite (bind_lookup ud_date _ w d) by now rewrite Hu.
    rewrite bind_load.
    rewrite (bind_lookup ud_name _ w nm) by now rewrite Hu.
    reflexivity.
Qed.


Lemma get_rate_run (txt : text) (w : world) :
  get_rate txt w
  = match py_float (replace_comma txt) with
    | Some x =>
        (Ok MEMBERS,
         mkWorld (SAVE_FILE w) (written w)
           (mkUser (ud_date (user w)) (ud_name (user w)) (ud_amount (user w))
              (ud_fee (user w)) (Some x))
           (sent w ++ [AskMembers]) (now w))
    | None => (Ok RATE, replied w BadRate)
    end.
Proof. unfold get_rate. destruct (py_float _); reflexivity. Qed.

(** *** Handlers that leave the ledger file alone *)

Lemma same_ret {A} (a : A) : same_file (ret a).
Proof. intros w. split; reflexivity. Qed.

Lemma same_raise {A} (e : exn) : same_file (@raise A e).
Proof. intros w. split; reflexivity. Qed.

Lemma same_reply (r : reply) : same_file (reply_text r).
Proof. intros w. split; reflexivity. Qed.

Lemma same_set_user (f : user_data -> user_data) : same_file (set_user f).
Proof. intros w. split; reflexivity. Qed.

Lemma same_clock : same_file get_clock.
Proof. intros w. split; reflexivity. Qed.

Lemma same_or_raise {A} (e : exn) (o : option A) : same_file (or_raise e o).
Proof. destruct o; [apply same_ret | apply same_raise]. Qed.

Lemma same_lookup {A} (field : user_data -> option A) :
  same_file (lookup field).
Proof. intros w. unfold lookup. apply same_or_raise. Qed.

Lemma same_load : same_file load_deals.
Proof. intros w. rewrite load_deals_view. split; reflexivity. Qed.

Lemma same_bind {A B} (m : M A) (k : A -> M B) :
  same_file m -> (forall a, same_file (k a)) -> same_file (bind m k).
Proof.
  intros Hm Hk w. unfold bind. specialize (Hm w).
  destruct (m w) as [[a|e] w1]; cbn [snd] in *.
  - destruct (Hk a w1) as [F W]. destruct Hm as [F1 W1]. split; congruence.
  - exact Hm.
Qed.

Create HintDb same_file.
#[local] Hint Resolve same_ret same_raise same_reply same_set_user same_clock
  same_or_raise same_lookup same_load same_bind : same_file.
#[local] Hint Extern 2 (same_file (match ?x with _ => _ end)) =>
  destruct x : same_file.

Lemma same_start_deal : same_file start_deal.
Proof. unfold start_deal. auto with same_file. Qed.

Lemma same_get_date (txt : text) : same_file (get_date txt).
Proof. unfold get_date. auto 10 with same_file. Qed.

Lemma same_get_name (txt : text) : same_file (get_name txt).
Proof. unfold get_name. auto 10 with same_file. Qed.

Lemma same_get_amount (txt : text) : same_file (get_amount txt).
Proof. unfold get_amount. auto 10 with same_file. Qed.

Lemma same_get_fee (txt : text) : same_file (get_fee txt).
Proof. unfold get_fee. auto 10 with same_file. Qed.

Lemma same_get_rate (txt : text) : same_file (get_rate txt).
Proof. unfold get_rate. auto 10 with same_file. Qed.

Lemma same_cancel : same_file cancel.
Proof. unfold cancel. auto with same_file. Qed.

Lemma same_show_report (a b : date) (l : label) : same_file (show_report a b l).
Proof.
  unfold show_report, filter_deals_by_date_range. auto 10 with same_file.
Qed.

#[local] Hint Resolve same_show_report : same_file.

Lemma same_show_range (args : list text) : same_file (show_range args).
Proof. unfold show_range. auto 20 with same_file. Qed.

Lemma same_show_by_date (args : list text) : same_file (show_by_date args).
Proof. unfold show_by_date. auto 20 with same_file. Qed.

Lemma same_show_week : same_file show_week.
Proof. unfold show_week, tuesday_week_range. auto 20 with same_file. Qed.

Lemma same_date_of (y m d : Z) : same_file (date_of y m d).
Proof.
  unfold date_of. destruct (c_int y && c_int m && c_int d);
    auto with same_file.
Qed.

#[local] Hint Resolve same_date_of : same_file.

Lemma same_show_month (args : list text) : same_file (show_month args).
Proof. unfold show_month, month_range. auto 20 with same_file. Qed.

Lemma same_help : same_file help_cmd.
Proof. unfold help_cmd. auto with same_file. Qed.

Lemma same_view {A} (m : M A) (w : world) :
  same_file m -> view (snd (m w)) = view w.
Proof.
  intros H. destruct (H w) as [F _]. unfold view, load_deals. rewrite F.
  destruct (SAVE_FILE w); reflexivity.
Qed.

Ltac step_get_members U :=
  first [ erewrite bind_lookup by (rewrite U; reflexivity)
        | rewrite bind_lookup_none by (rewrite U; reflexivity)
        | erewrite bind_div by (apply truediv_of_int; cbn [List.length]; lia)
        | erewrite bind_div by (apply truediv_nonzero; eassumption)
        | rewrite bind_div_none by (apply truediv_zero; assumption)
        | rewrite bind_load ].

(** The three ways [get_members] can end: a deal is recorded, an
    exception leaves the world as it was, or members are asked again. *)
Lemma get_members_cases (txt : text) (w : world) :
  (exists m ms d nm a f r,
     findall_members (strip txt) = m :: ms
     /\ user w = mkUser (Some d) (Some nm) (Some a) (Some f) (Some r)
     /\ is_zero r = false
     /\ get_members txt w
        = (Ok END,
           saved w (view w ++ [new_deal (view w) d nm a f r (m :: ms)])
             (Saved (new_deal (view w) d nm a f r (m :: ms))
                (List.length (m :: ms)))))
  \/ (exists e, get_members txt w = (Raise e, w))
  \/ get_members txt w = (Ok MEMBERS, replied w NeedMember).
Proof.
  destruct (findall_members (strip txt)) as [|m ms] eqn:Hm.
  { right. right. now apply get_members_none. }
  destruct (user w) as [[d|] [nm|] [a|] [f|] [r|]] eqn:U;
    try (right; left; eexists; unfold get_members; rewrite Hm;
         repeat step_get_members U; reflexivity).
  - pose proof (get_members_run txt w m ms d nm a f r Hm U) as R.
    destruct (is_zero r) eqn:Zr.
    + right. left. eauto.
    + left. exists m, ms, d, nm, a, f, r. auto.
  - destruct (is_zero r) eqn:Zr; right; left; eexists;
      unfold get_members; rewrite Hm; repeat step_get_members U; reflexivity.
  - destruct (is_zero r) eqn:Zr; right; left; eexists;
      unfold get_members; rewrite Hm; repeat step_get_members U; reflexivity.
  - destruct (is_zero r) eqn:Zr; right; left; eexists;
      unfold get_members; rewrite Hm; repeat step_get_members U; reflexivity.
Qed.

(** C1 (as amended). When [get_members] has at least one member, the
    amount [a], the fee [f] and a rate [r] that is not zero, it appends
    one deal that stores them with the derived fields computed in
    binary64, each operation rounded to nearest:
    clean_rub = a - (a * f) / 100, usd = clean_rub / r, pool = usd * 0.25
    and share = pool / N for the N members. For a = 10000, f = 2, r = 90
    and two members the stored clean_rub is 9800 exactly, which is also
    a * (1 - f / 100) in binary64, and usd, pool and share are within
    10^-12 of 9800/90, 9800/360 and 9800/720. *)
Theorem derived_fields_stored :
  (forall txt w m ms d nm a f r,
     findall_members (strip txt) = m :: ms ->
     user w = mkUser (Some d) (Some nm) (Some a) (Some f) (Some r) ->
     is_zero r = false ->
     exists deal,
       get_members txt w
       = (Ok END,
          saved w (view w ++ [deal]) (Saved deal (List.length (m :: ms))))
       /\ rub deal = a /\ fee deal = f /\ rate deal = r
       /\ members deal = m :: ms
       /\ clean_rub deal = fsub a (fdiv (fmul a f) (of_int 100))
       /\ usd deal = fdiv (clean_rub deal) r
       /\ pool deal = fmul (usd deal) quarter
       /\ share deal
          = fdiv (pool deal) (of_int (Z.of_nat (List.length (m :: ms)))))
  /\ (exists deal,
        view (snd (run usual (fresh clock0))) = [deal]
        /\ rub deal = of_int 10000 /\ fee deal = of_int 2
        /\ rate deal = of_int 90 /\ List.length (members deal) = 2%nat
        /\ clean_rub deal = of_int 9800
        /\ clean_rub deal = claimed_net (rub deal) (fee deal)
        /\ close_to (usd deal) (9800 # 90) tol = true
        /\ close_to (pool deal) (9800 # 360) tol = true
        /\ close_to (share deal) (9800 # 720) tol = true).
Proof.
  split.
  - intros txt w m ms d nm a f r Hm Hu Hr.
    rewrite (get_members_run txt w m ms d nm a f r Hm Hu), Hr.
    cbv zeta. eexists. split; [reflexivity|].
    repeat split.
  - eexists. split; [vm_compute; reflexivity|].
    split; [|split; [|split; [|split; [|split; [|split; [|split; [|split]]]]]]];
      vm_compute; reflexivity.
Qed.

Lemma derived_fields_stored_witness :
  let w := snd (run (firstn 6 usual) (fresh clock0)) in
  let txt := lit "#10 #12" in
  findall_members (strip txt) = [lit "#10"; lit "#12"]
  /\ user w = mkUser (Some (mkdate 2024 7 21)) (Some (lit "SBP"))
                (Some (of_int 10000)) (Some (of_int 2)) (Some (of_int 90))
  /\ is_zero (of_int 90) = false
  /\ exists deal,
       get_members txt w
       = (Ok END, saved w (view w ++ [deal]) (Saved deal 2))
       /\ rub deal = of_int 10000 /\ fee deal = of_int 2
       /\ rate deal = of_int 90
       /\ members deal = [lit "#10"; lit "#12"]
       /\ clean_rub deal
          = fsub (of_int 10000)
              (fdiv (fmul (of_int 10000) (of_int 2)) (of_int 100))
       /\ usd deal = fdiv (clean_rub deal) (of_int 90)
       /\ pool deal = fmul (usd deal) quarter
       /\ share deal = fdiv (pool deal) (of_int (Z.of_nat 2)).
Proof.
  cbv zeta.
  split; [reflexivity|]. split; [reflexivity|]. split; [reflexivity|].
  apply (proj1 derived_fields_stored (lit "#10 #12")
           (snd (run (firstn 6 usual) (fresh clock0)))
           (lit "#10") [lit "#12"] (mkdate 2024 7 21) (lit "SBP")
           (of_int 10000) (of_int 2) (of_int 90));
    reflexivity.
Defined.

(** C1, as the claim states it, fails: the stored net amount is
    a - (a * f) / 100, which is not a * (1 - f / 100) in binary64. For
    12345 and 7 the two differ in the last bit; for 1e308 and 50 the
    product a * f overflows and the stored net amount is minus infinity,
    where a * (1 - f / 100) is finite. *)
Lemma net_amount_formula_differs :
  map (fun x => (clean_rub x, claimed_net (rub x) (fee x)))
    (view (snd (run (deposit "SBP" "12345" "7" "90" "#10 #12") (fresh clock0))))
  = [(S754_finite false 6311664035876045 (-39),
      S754_finite false 6311664035876044 (-39))]
  /\ map (fun x => (clean_rub x, claimed_net (rub x) (fee x)))
       (view (snd (run (deposit "SBP" "1e308" "50" "90" "#10 #12")
                     (fresh clock0))))
     = [(S754_infinity true, S754_finite false 5010420900022432 970)].
Proof. split; vm_compute; reflexivity. Qed.

(** C10. [get_rate] stores whatever number [float] reads, zero and
    negative numbers included. [get_members] answers an empty member
    list before any computation; with members, it raises
    [ZeroDivisionError] exactly when the stored rate is a zero, and then
    writes nothing; the division by the number of members never raises.
    With the rate "0" the conversation stays at the members step and no
    file is written. *)
Theorem rate_division_unguarded :
  (forall txt w x,
     py_float (replace_comma txt) = Some x ->
     fst (get_rate txt w) = Ok MEMBERS
     /\ ud_rate (user (snd (get_rate txt w))) = Some x)
  /\ py_float (replace_comma (lit "0")) = Some (S754_zero false)
  /\ py_float (replace_comma (lit "-90"))
     = Some (S754_finite true 6333186975989760 (-46))
  /\ (forall txt w,
        findall_members (strip txt) = [] ->
        get_members txt w = (Ok MEMBERS, replied w NeedMember))
  /\ (forall txt w m ms d nm a f r,
        findall_members (strip txt) = m :: ms ->
        user w = mkUser (Some d) (Some nm) (Some a) (Some f) (Some r) ->
        (is_zero r = true ->
         get_members txt w = (Raise ZeroDivisionError, w))
        /\ (is_zero r = false -> fst (get_members txt w) = Ok END))
  /\ (forall p (m : text) (ms : list text),
        truediv p (of_int (Z.of_nat (List.length (m :: ms)))) <> None)
  /\ (let s := run (firstn 6 (deposit "SBP" "10000" "2" "0" "#10 #12"))
                 (fresh clock0) in
      fst s = MEMBERS
      /\ ud_rate (user (snd s)) = Some (S754_zero false)
      /\ dispatch MEMBERS (Message (lit "#10 #12")) (snd s)
         = (Raise ZeroDivisionError, snd s)
      /\ fst (step s (Message (lit "#10 #12"))) = MEMBERS
      /\ SAVE_FILE (snd (step s (Message (lit "#10 #12")))) = Missing
      /\ written (snd (step s (Message (lit "#10 #12")))) = []).
Proof.
  split; [|split; [|split; [|split; [|split; [|split]]]]].
  - intros txt w x E. rewrite get_rate_run, E. split; reflexivity.
  - reflexivity.
  - vm_compute. reflexivity.
  - apply get_members_none.
  - intros txt w m ms d nm a f r Hm Hu.
    rewrite (get_members_run txt w m ms d nm a f r Hm Hu).
    split; intros ->; reflexivity.
  - intros p m ms. rewrite truediv_of_int by (cbn [List.length]; lia).
    discriminate.
  - cbv zeta.
    split; [|split; [|split; [|split; [|split]]]]; vm_compute; reflexivity.
Qed.

Lemma rate_division_unguarded_witness :
  let s := run (firstn 6 (deposit "SBP" "10000" "2" "0" "#10 #12"))
             (fresh clock0) in
  py_float (replace_comma (lit "0")) = Some (S754_zero false)
  /\ fst (get_rate (lit "0") (snd (run (firstn 5 usual) (fresh clock0))))
     = Ok MEMBERS
  /\ findall_members (strip (lit "#10 #12")) = [lit "#10"; lit "#12"]
  /\ is_zero (S754_zero false) = true
  /\ get_members (lit "#10 #12") (snd s) = (Raise ZeroDivisionError, snd s).
Proof.
  cbv zeta.
  split; [reflexivity|].
  split; [apply (proj1 rate_division_unguarded (lit "0") _ _ eq_refl)|].
  split; [reflexivity|]. split; [reflexivity|].
  refine (proj1 (proj1 (proj2 (proj2 (proj2 (proj2 rate_division_unguarded))))
                   (lit "#10 #12")
                   (snd (run (firstn 6 (deposit "SBP" "10000" "2" "0" "#10 #12"))
                           (fresh clock0)))
                   (lit "#10") [lit "#12"] (mkdate 2024 7 21)
                   (lit "SBP") (of_int 10000) (of_int 2) (S754_zero false)
                   _ _) _);
    reflexivity.
Defined.

End DealFacts.

(* ================================================================== *)
(** ** The numbers of the deals of a day *)

Module LedgerFacts.
Import Text Calendar Float64 Bot Spec CalendarFacts DealFacts.

(** *** Per-day numbers *)

Lemma on_date_true (d : date) (x : Deal) :
  on_date d x = true <-> date_iso x = d.
Proof. unfold on_date. apply eqb_eq. Qed.

Lemma on_date_decide (d : date) (x : Deal) :
  on_date d x = if date_eq_dec (date_iso x) d then true else false.
Proof.
  destruct (date_eq_dec (date_iso x) d) as [E|N].
  - now apply on_date_true.
  - destruct (on_date d x) eqn:O; [|reflexivity].
    apply on_date_true in O. contradiction.
Qed.

Lemma next_index_count (deals : ledger) (d : date) :
  get_next_index_for_date deals d = Z.of_nat (count_on d deals) + 1.
Proof.
  unfold get_next_index_for_date, count_on. cbv zeta.
  rewrite (filter_ext _ _ (on_date_decide d)). reflexivity.
Qed.

Lemma dense_nil : dense [].
Proof. intros d. reflexivity. Qed.

Lemma dense_app (deals : ledger) (x : Deal) :
  dense deals ->
  index x = get_next_index_for_date deals (date_iso x) ->
  dense (deals ++ [x]).
Proof.
  intros D I d. rewrite filter_app. cbn [filter].
  destruct (on_date d x) eqn:O.
  - apply on_date_true in O. subst d.
    rewrite map_app, length_app, D. cbn [map List.length].
    rewrite Nat.add_1_r, seq_S, map_app. cbn [map].
    rewrite I. unfold get_next_index_for_date. cbv zeta.
    f_equal. f_equal. lia.
  - rewrite app_nil_r. apply D.
Qed.

Lemma grows_same {A} (m : M A) (w : world) :
  same_file m -> grows (view w) (view (snd (m w))).
Proof. intros H. left. now apply same_view. Qed.

Lemma view_saved (w : world) (deals : ledger) (r : reply) :
  view (saved w deals r) = deals.
Proof. reflexivity. Qed.

Lemma view_replied (w : world) (r : reply) : view (replied w r) = view w.
Proof. unfold view, load_deals, replied. cbn [SAVE_FILE].
  destruct (SAVE_FILE w); reflexivity.
Qed.

Lemma get_members_grows (txt : text) (w : world) :
  grows (view w) (view (snd (get_members txt w))).
Proof.
  destruct (get_members_cases txt w)
    as [(m & ms & d & nm & a & f & r & _ & _ & _ & E) | [(e & E) | E]];
    rewrite E; cbn [snd].
  - right. eexists. rewrite view_saved. split; reflexivity.
  - now left.
  - left. apply view_replied.
Qed.

Lemma snd_step (s : conv_state * world) (u : update) :
  snd (step s u) = snd (dispatch (fst s) u (snd s)).
Proof.
  unfold step. destruct (dispatch (fst s) u (snd s)) as [[st|e] w];
    reflexivity.
Qed.

Lemma same_keep (st : conv_state) (m : M unit) :
  same_file m -> same_file (keep st m).
Proof. intros H. unfold keep. auto using same_bind, same_ret. Qed.

Lemma step_grows (s : conv_state * world) (u : update) :
  is_delete u = false ->
  grows (view (snd s)) (view (snd (step s u))).
Proof.
  intros N. rewrite snd_step. destruct s as [st w]. cbn [fst snd].
  destruct u as [txt | c args].
  - destruct st; cbn [dispatch];
      try solve [apply grows_same;
                 auto using same_get_date, same_get_name, same_get_amount,
                   same_get_fee, same_get_rate, same_ret].
    apply get_members_grows.
  - destruct c; try discriminate; cbn [dispatch];
      try (destruct st);
      apply grows_same;
      auto using same_keep, same_start_deal, same_cancel, same_ret,
        same_help, same_show_week, same_show_month, same_show_range,
        same_show_by_date.
Qed.

Lemma grows_dense (before after : ledger) :
  grows before after -> dense before -> dense after.
Proof.
  intros [-> | (x & -> & I)] D; [exact D|]. now apply dense_app.
Qed.

Lemma run_grows (us : list update) :
  forall s,
    forallb (fun u => negb (is_delete u)) us = true ->
    dense (view (snd s)) ->
    dense (view (snd (run us s)))
    /\ exists added, view (snd (run us s)) = view (snd s) ++ added.
Proof.
  induction us as [|u us IH]; intros s N D.
  - split; [exact D|]. exists []. now rewrite app_nil_r.
  - cbn [forallb] in N. apply andb_prop in N as [Nu N].
    apply negb_true_iff in Nu.
    pose proof (step_grows s u Nu) as G.
    destruct (IH (step s u) N (grows_dense _ _ G D)) as [D' (added & E)].
    split; [exact D'|].
    change (run (u :: us) s) with (run us (step s u)).
    destruct G as [G | (x & G & _)]; rewrite E, G.
    + now exists added.
    + exists (x :: added). now rewrite <- app_assoc.
Qed.

(** C2. The number that [get_next_index_for_date] gives is the count of
    the deals of the ledger on that date, plus one, and it is the number
    of the deal that [get_members] appends. Hence, from a ledger whose
    days are numbered 1, 2, 3, ... (the empty one is), any updates
    without a deletion only append deals and keep every day numbered
    1, 2, 3, ... in storage order, which is the order of creation: the
    Nth deal of a day has the number N, whatever its name. *)
Theorem next_index_dense :
  (forall deals d,
     get_next_index_for_date deals d = Z.of_nat (count_on d deals) + 1)
  /\ (forall txt w,
        fst (get_members txt w) = Ok END ->
        exists x,
          view (snd (get_members txt w)) = view w ++ [x]
          /\ ud_date (user w) = Some (date_iso x)
          /\ index x = Z.of_nat (count_on (date_iso x) (view w)) + 1)
  /\ (forall us s,
        forallb (fun u => negb (is_delete u)) us = true ->
        dense (view (snd s)) ->
        dense (view (snd (run us s)))
        /\ exists added, view (snd (run us s)) = view (snd s) ++ added)
  /\ map (fun x => (name x, index x))
       (view (snd (run (deposit "SBP" "10000" "2" "90" "#10 #12"
                        ++ deposit "QR" "500" "0" "90" "#7"
                        ++ deposit "cash" "1" "1,5" "89,5" "#1#2#3")
                     (fresh clock0))))
     = [(lit "SBP", 1); (lit "QR", 2); (lit "cash", 3)].
Proof.
  split; [exact next_index_count|]. split; [|split].
  - intros txt w E.
    destruct (get_members_cases txt w)
      as [(m & ms & d & nm & a & f & r & _ & U & _ & R) | [(e & R) | R]];
      rewrite R in *; cbn [fst snd] in *; try discriminate.
    eexists. rewrite view_saved. split; [reflexivity|].
    rewrite U. split; [reflexivity|]. cbn [new_deal index date_iso].
    apply next_index_count.
  - exact run_grows.
  - vm_compute. reflexivity.
Qed.

Lemma next_index_dense_witness :
  forallb (fun u => negb (is_delete u)) (usual ++ usual) = true
  /\ dense (view (snd (fresh clock0)))
  /\ dense (view (snd (run (usual ++ usual) (fresh clock0))))
  /\ exists added,
       view (snd (run (usual ++ usual) (fresh clock0)))
       = view (snd (fresh clock0)) ++ added.
Proof.
  split; [reflexivity|]. split; [exact dense_nil|].
  apply (proj1 (proj2 (proj2 next_index_dense)) (usual ++ usual)
           (fresh clock0)).
  - reflexivity.
  - exact dense_nil.
Defined.

(** C4. The pair of date and number does not stay unique: with two deals
    on a day, deleting the first and recording a third gives the third
    the number 2, which the second still carries. *)
Lemma index_reused_after_delete :
  keys (view (snd (run (usual ++ usual
                        ++ [Command CmdDelete [lit "21.07"; lit "1"]]
                        ++ usual)
                     (fresh clock0))))
  = [(mkdate 2024 7 21, 2); (mkdate 2024 7 21, 2)].
Proof. vm_compute. reflexivity. Qed.

End LedgerFacts.

(* ================================================================== *)
(** ** Deleting a deal *)

Module DeleteFacts.
Import Text Calendar Float64 Bot Spec CalendarFacts DealFacts.

Lemma matches_key (d : date) (num : Z) (i : nat) (x : Deal) :
  matches d num (i, x) = true <-> has_key d num x.
Proof.
  unfold matches, has_key. cbn [snd].
  rewrite andb_true_iff, eqb_eq, Z.eqb_eq. tauto.
Qed.

Lemma matches_no_key (d : date) (num : Z) (i : nat) (x : Deal) :
  ~ has_key d num x -> matches d num (i, x) = false.
Proof.
  intros N. destruct (matches d num (i, x)) eqn:E; [|reflexivity].
  apply matches_key in E. contradiction.
Qed.

Lemma has_key_dec (d : date) (num : Z) (x : Deal) :
  {has_key d num x} + {~ has_key d num x}.
Proof.
  destruct (matches d num (O, x)) eqn:E.
  - left. now apply (matches_key d num O).
  - right. intros H. apply (matches_key d num O) in H. congruence.
Qed.

(** The first deal with a key, if there is one. *)
Lemma first_with_key (d : date) (num : Z) (deals : ledger) :
  (exists l1 x l2,
     deals = l1 ++ x :: l2 /\ has_key d num x
     /\ forall y, In y l1 -> ~ has_key d num y)
  \/ (forall y, In y deals -> ~ has_key d num y).
Proof.
  induction deals as [|x deals IH].
  - right. intros y [].
  - destruct (has_key_dec d num x) as [K|N].
    + left. exists [], x, deals.
      split; [reflexivity|]. split; [exact K|]. intros y [].
    + destruct IH as [(l1 & z & l2 & -> & K & F) | F].
      * left. exists (x :: l1), z, l2.
        split; [reflexivity|]. split; [exact K|].
        intros y [<- | I]; [exact N | now apply F].
      * right. intros y [<- | I]; [exact N | now apply F].
Qed.

Lemma filter_enumerate_none (d : date) (num : Z) (deals : ledger) :
  (forall y, In y deals -> ~ has_key d num y) ->
  forall k,
    filter (matches d num) (combine (seq k (List.length deals)) deals) = [].
Proof.
  induction deals as [|x deals IH]; intros F k;
    cbn [List.length seq combine filter]; [reflexivity|].
  rewrite matches_no_key by (apply F; now left).
  apply IH. intros y I. apply F. now right.
Qed.

Lemma filter_enumerate_first (d : date) (num : Z) (l1 : ledger) (x : Deal)
  (l2 : ledger) :
  has_key d num x -> (forall y, In y l1 -> ~ has_key d num y) ->
  forall k,
    exists more,
      filter (matches d num)
        (combine (seq k (List.length (l1 ++ x :: l2))) (l1 ++ x :: l2))
      = ((k + List.length l1)%nat, x) :: more.
Proof.
  intros K. induction l1 as [|y l1 IH]; intros F k;
    cbn [app List.length seq combine filter].
  - rewrite (proj2 (matches_key d num k x) K), Nat.add_0_r. eauto.
  - rewrite matches_no_key by (apply F; now left).
    destruct (IH (fun z I => F z (or_intror I)) (S k)) as [more E].
    exists more. rewrite E. f_equal. f_equal. lia.
Qed.

Lemma del_at_app {A} (l1 : list A) (x : A) (l2 : list A) :
  del_at (List.length l1) (l1 ++ x :: l2) = l1 ++ l2.
Proof. induction l1 as [|y l1 IH]; cbn; [reflexivity | now rewrite IH]. Qed.

Lemma delete_deal_run (w : world) (a0 a1 : text) (d : date) (num : Z) :
  parse_date (now w) a0 = Some d -> py_int a1 = Some num ->
  delete_deal [a0; a1] w
  = match filter (matches d num) (enumerate (view w)) with
    | [] => (Ok tt, replied w NotFound)
    | (i, _) :: _ => (Ok tt, saved w (del_at i (view w)) Deleted)
    end.
Proof.
  intros P I. unfold delete_deal. rewrite bind_clock, P, I, bind_load.
  destruct (filter _ _) as [|[i x] rest]; reflexivity.
Qed.

(** C3. A deletion by a date and a number that some deal carries removes
    the first such deal in storage order and writes the others back
    unchanged, numbers included; when no deal carries them, nothing is
    written, the file stays as it was, and the reply is "not found". One
    of the two cases always applies. *)
Theorem delete_deal_first_match (w : world) (a0 a1 : text) (d : date)
  (num : Z) :
  parse_date (now w) a0 = Some d -> py_int a1 = Some num ->
  (forall l1 x l2,
     view w = l1 ++ x :: l2 -> has_key d num x ->
     (forall y, In y l1 -> ~ has_key d num y) ->
     delete_deal [a0; a1] w = (Ok tt, saved w (l1 ++ l2) Deleted)
     /\ List.length (l1 ++ l2) = (List.length (view w) - 1)%nat)
  /\ ((forall y, In y (view w) -> ~ has_key d num y) ->
      delete_deal [a0; a1] w = (Ok tt, replied w NotFound)
      /\ SAVE_FILE (replied w NotFound) = SAVE_FILE w
      /\ written (replied w NotFound) = written w)
  /\ ((exists l1 x l2,
         view w = l1 ++ x :: l2 /\ has_key d num x
         /\ forall y, In y l1 -> ~ has_key d num y)
      \/ (forall y, In y (view w) -> ~ has_key d num y)).
Proof.
  intros P I. rewrite (delete_deal_run w a0 a1 d num P I).
  unfold enumerate. split; [|split].
  - intros l1 x l2 E K F. split.
    + destruct (filter_enumerate_first d num l1 x l2 K F O) as [more E'].
      rewrite E, E', Nat.add_0_l, del_at_app. reflexivity.
    + rewrite E, !length_app. cbn [List.length]. lia.
  - intros F. rewrite filter_enumerate_none by exact F. auto.
  - apply first_with_key.
Qed.

Lemma delete_deal_first_match_witness :
  let w := snd (run (usual ++ usual) (fresh clock0)) in
  parse_date (now w) (lit "21.07") = Some (mkdate 2024 7 21)
  /\ py_int (lit "1") = Some 1
  /\ keys (view w) = [(mkdate 2024 7 21, 1); (mkdate 2024 7 21, 2)]
  /\ exists x y,
       view w = [] ++ x :: [y]
       /\ delete_deal [lit "21.07"; lit "1"] w
          = (Ok tt, saved w ([] ++ [y]) Deleted).
Proof.
  cbv zeta.
  split; [reflexivity|]. split; [reflexivity|].
  split; [vm_compute; reflexivity|].
  eexists. eexists. split; [vm_compute; reflexivity|].
  refine (proj1 (proj1 (delete_deal_first_match
                          (snd (run (usual ++ usual) (fresh clock0)))
                          (lit "21.07") (lit "1") (mkdate 2024 7 21) 1
                          eq_refl eq_refl)
                   [] _ [_] _ _ _)).
  - vm_compute. reflexivity.
  - split; reflexivity.
  - intros y [].
Defined.

End DeleteFacts.

(* ================================================================== *)
(** ** Reports and the ledger file *)

Module ReportFacts.
Import Text Calendar Float64 Bot Spec CalendarFacts FloatFacts DealFacts.

(** *** Reports *)

Lemma in_range_between (start stop : date) (x : Deal) :
  valid start -> valid stop -> valid (date_iso x) ->
  in_range start stop x = between start stop x.
Proof.
  intros V1 V2 V. unfold in_range, between.
  f_equal; apply eq_true_iff_eq; rewrite Z.leb_le; now apply leb_le.
Qed.

Lemma between_true (start stop : date) (x : Deal) :
  between start stop x = true
  <-> le start (date_iso x) /\ le (date_iso x) stop.
Proof. unfold between, le. rewrite andb_true_iff, !Z.leb_le. tauto. Qed.

Lemma filter_nil_iff {A} (p : A -> bool) (l : list A) :
  filter p l = [] <-> forall x, In x l -> p x = false.
Proof.
  induction l as [|a l IH]; cbn.
  - split; [intros _ x [] | reflexivity].
  - destruct (p a) eqn:E; split.
    + discriminate.
    + intros H. specialize (H a (or_introl eq_refl)). congruence.
    + intros H x [<- | I]; [exact E | now apply IH].
    + intros H. apply IH. intros x I. apply H. now right.
Qed.

Lemma show_report_run (start stop : date) (l : label) (w : world) :
  show_report start stop l w
  = match filter (in_range start stop) (view w) with
    | [] => (Ok tt, replied w NoDealsInPeriod)
    | deals => (Ok tt, replied w (Report l (py_sum (map share deals)) deals))
    end.
Proof.
  unfold show_report, filter_deals_by_date_range.
  unfold bind at 1. rewrite bind_load. unfold ret.
  destruct (filter _ _); reflexivity.
Qed.

(** C7. [filter_deals_by_date_range start stop] returns, in storage
    order, exactly the deals whose date lies between [start] and [stop],
    both included, and the empty list when there is none. [show_report]
    answers an empty selection with the "no deals" message alone, and a
    selection that is not empty with a report whose total is the sum of
    the shares of the selected deals: the shares added as floats, from
    zero on and from left to right; for one deal this is its share, and
    for shares that are whole numbers it is their sum exactly, as long as
    no running sum needs more than the 53 bits of a float. The sum of no
    share is zero, and no report shows it. *)
Theorem filter_range_inclusive (w : world) (start stop : date) (l : label) :
  valid start -> valid stop ->
  Forall (fun x => valid (date_iso x)) (view w) ->
  let selected := filter (between start stop) (view w) in
  filter_deals_by_date_range start stop w = (Ok selected, w)
  /\ (forall x,
        In x selected
        <-> In x (view w) /\ le start (date_iso x) /\ le (date_iso x) stop)
  /\ (selected = []
      <-> forall x, In x (view w) ->
                    ~ (le start (date_iso x) /\ le (date_iso x) stop))
  /\ (selected = [] ->
      show_report start stop l w = (Ok tt, replied w NoDealsInPeriod))
  /\ (selected <> [] ->
      exists total,
        show_report start stop l w
        = (Ok tt, replied w (Report l total selected))
        /\ total
           = fold_left (SFadd 53 1024) (map share selected) (S754_zero false)
        /\ (forall x,
              selected = [x] -> share x <> S754_zero true -> total = share x)
        /\ (forall zs,
              map share selected = map of_int zs -> small_sums zs ->
              total = of_int (int_sum zs)))
  /\ py_sum (map share []) = S754_zero false
  /\ (forall total lines, NoDealsInPeriod <> Report l total lines).
Proof.
  intros V1 V2 V selected.
  assert (E : filter (in_range start stop) (view w) = selected).
  { apply filter_ext_in. intros x I. apply in_range_between; auto.
    rewrite Forall_forall in V. now apply V. }
  split; [|split; [|split; [|split; [|split; [|split]]]]].
  - unfold filter_deals_by_date_range. rewrite bind_load, E. reflexivity.
  - intros x. unfold selected. rewrite filter_In, between_true. tauto.
  - unfold selected. rewrite filter_nil_iff. split; intros H x I.
    + rewrite <- between_true. rewrite (H x I). discriminate.
    + destruct (between start stop x) eqn:B; [|reflexivity].
      apply between_true in B. now destruct (H x I).
  - intros N. rewrite show_report_run, E, N. reflexivity.
  - intros N. exists (py_sum (map share selected)).
    split; [|split; [reflexivity | split]].
    + rewrite show_report_run, E.
      destruct selected; [contradiction | reflexivity].
    + intros x -> Nx. now apply py_sum_one.
    + intros zs -> S. now apply py_sum_of_int.
  - reflexivity.
  - discriminate.
Qed.

Lemma filter_range_inclusive_witness :
  let w := snd (run whole (fresh clock0)) in
  let selected :=
    filter (between (mkdate 2024 7 16) (mkdate 2024 7 22)) (view w) in
  valid (mkdate 2024 7 16) /\ valid (mkdate 2024 7 22)
  /\ Forall (fun x => valid (date_iso x)) (view w)
  /\ keys selected = [(mkdate 2024 7 21, 1); (mkdate 2024 7 21, 2)]
  /\ map share selected = map of_int [100; 200]
  /\ small_sums [100; 200]
  /\ show_report (mkdate 2024 7 16) (mkdate 2024 7 22) LabelWeek w
     = (Ok tt, replied w (Report LabelWeek (of_int 300) selected))
  /\ filter (between (mkdate 2024 7 22) (mkdate 2024 7 28)) (view w) = [].
Proof.
  cbv zeta.
  set (w := snd (run whole (fresh clock0))).
  assert (V : Forall (fun x => valid (date_iso x)) (view w)).
  { vm_compute. repeat constructor. }
  assert (S : map share
                (filter (between (mkdate 2024 7 16) (mkdate 2024 7 22))
                   (view w))
              = map of_int [100; 200]) by (vm_compute; reflexivity).
  assert (B : small_sums [100; 200]) by (vm_compute; repeat split).
  split; [reflexivity|]. split; [reflexivity|]. split; [exact V|].
  split; [vm_compute; reflexivity|]. split; [exact S|]. split; [exact B|].
  split; [|vm_compute; reflexivity].
  pose proof (filter_range_inclusive w (mkdate 2024 7 16) (mkdate 2024 7 22)
                LabelWeek eq_refl eq_refl V) as T.
  cbv zeta in T. destruct T as (_ & _ & _ & _ & T & _).
  destruct T as (total & R & _ & _ & Z).
  { intros N. rewrite N in S. discriminate S. }
  rewrite R. rewrite (Z [100; 200] S B). reflexivity.
Defined.

(** *** The ledger file *)



End ReportFacts.

(* ================================================================== *)
(** ** The conversation *)

Module ConversationFacts.
Import Text Calendar Float64 Bot Spec More FloatFacts DealFacts.

(** *** What each step of the conversation does *)

Lemma start_deal_run (w : world) :
  start_deal w = (Ok DATE, add_replies w [AskDate]).
Proof. reflexivity. Qed.

Lemma get_date_run (txt : text) (w : world) :
  get_date txt w
  = match parse_date (now w) txt with
    | Some d =>
        (Ok NAME,
         mkWorld (SAVE_FILE w) (written w)
           (mkUser (Some d) (ud_name (user w)) (ud_amount (user w))
              (ud_fee (user w)) (ud_rate (user w)))
           (sent w ++ [AskName]) (now w))
    | None => (Ok DATE, add_replies w [BadDate])
    end.
Proof.
  unfold get_date. rewrite bind_clock.
  destruct (parse_date (now w) txt); reflexivity.
Qed.

Lemma get_name_run (txt : text) (w : world) :
  get_name txt w
  = (Ok AMOUNT,
     mkWorld (SAVE_FILE w) (written w)
       (mkUser (ud_date (user w)) (Some (strip txt)) (ud_amount (user w))
          (ud_fee (user w)) (ud_rate (user w)))
       (sent w ++ [AskAmount]) (now w)).
Proof. reflexivity. Qed.

Lemma get_amount_run (txt : text) (w : world) :
  get_amount txt w
  = match py_float (replace_comma txt) with
    | Some x =>
        (Ok FEE,
         mkWorld (SAVE_FILE w) (written w)
           (mkUser (ud_date (user w)) (ud_name (user w)) (Some x)
              (ud_fee (user w)) (ud_rate (user w)))
           (sent w ++ [AskFee]) (now w))
    | None => (Ok AMOUNT, add_replies w [NotANumber])
    end.
Proof. unfold get_amount. destruct (py_float _); reflexivity. Qed.

Lemma get_fee_run (txt : text) (w : world) :
  get_fee txt w
  = match py_float (replace_comma txt) with
    | Some x =>
        (Ok RATE,
         mkWorld (SAVE_FILE w) (written w)
           (mkUser (ud_date (user w)) (ud_name (user w)) (ud_amount (user w))
              (Some x) (ud_rate (user w)))
           (sent w ++ [AskRate]) (now w))
    | None => (Ok FEE, add_replies w [NotANumber])
    end.
Proof. unfold get_fee. destruct (py_float _); reflexivity. Qed.

Lemma get_rate_step (txt : text) (w : world) :
  get_rate txt w
  = match py_float (replace_comma txt) with
    | Some x =>
        (Ok MEMBERS,
         mkWorld (SAVE_FILE w) (written w)
           (mkUser (ud_date (user w)) (ud_name (user w)) (ud_amount (user w))
              (ud_fee (user w)) (Some x))
           (sent w ++ [AskMembers]) (now w))
    | None => (Ok RATE, add_replies w [BadRate])
    end.
Proof. unfold get_rate. destruct (py_float _); reflexivity. Qed.

Lemma step_ok (st st' : conv_state) (u : update) (w w' : world) :
  dispatch st u w = (Ok st', w') -> step (st, w) u = (st', w').
Proof. unfold step. cbn [fst snd]. now intros ->. Qed.

Lemma step_raise (st : conv_state) (u : update) (w w' : world) (e : exn) :
  dispatch st u w = (Raise e, w') -> step (st, w) u = (st, w').
Proof. unfold step. cbn [fst snd]. now intros ->. Qed.

Lemma add_replies_app (w : world) (rs qs : list reply) :
  add_replies (add_replies w rs) qs = add_replies w (rs ++ qs).
Proof. unfold add_replies. cbn. now rewrite app_assoc. Qed.

Lemma add_replies_nil (w : world) : add_replies w [] = w.
Proof. destruct w. unfold add_replies. cbn. now rewrite app_nil_r. Qed.

Lemma view_add_replies (w : world) (rs : list reply) :
  view (add_replies w rs) = view w.
Proof.
  unfold view, load_deals, add_replies. cbn [SAVE_FILE].
  destruct (SAVE_FILE w); reflexivity.
Qed.

(** X1. A whole conversation with well-formed answers records exactly one
    deal, made of these answers alone, whatever was collected before. *)
Theorem conversation_records_one_deal (w : world) (dt nm a f r ms : text)
  (d : date) (x y z : float) (m : text) (rest : list text) :
  parse_date (now w) dt = Some d ->
  py_float (replace_comma a) = Some x ->
  py_float (replace_comma f) = Some y ->
  py_float (replace_comma r) = Some z ->
  is_zero z = false ->
  findall_members (strip ms) = m :: rest ->
  let deal := new_deal (view w) d (strip nm) x y z (m :: rest) in
  run (conversation dt nm a f r ms) (END, w)
  = (END,
     mkWorld (Holds (view w ++ [deal])) ((view w ++ [deal]) :: written w)
       (mkUser (Some d) (Some (strip nm)) (Some x) (Some y) (Some z))
       (sent w ++ [AskDate; AskName; AskAmount; AskFee; AskRate; AskMembers;
                   Saved deal (List.length (m :: rest))])
       (now w)).
Proof.
  intros Hd Hx Hy Hz Zz Hm deal. unfold conversation, run.
  cbn [fold_left].
  rewrite (step_ok END DATE (Command CmdDeal []) w _ (start_deal_run w)).
  erewrite (step_ok DATE NAME)
    by (cbn [dispatch]; rewrite get_date_run; cbn [now add_replies];
        rewrite Hd; reflexivity).
  erewrite (step_ok NAME AMOUNT)
    by (cbn [dispatch]; rewrite get_name_run; reflexivity).
  erewrite (step_ok AMOUNT FEE)
    by (cbn [dispatch]; rewrite get_amount_run, Hx; reflexivity).
  erewrite (step_ok FEE RATE)
    by (cbn [dispatch]; rewrite get_fee_run, Hy; reflexivity).
  erewrite (step_ok RATE MEMBERS)
    by (cbn [dispatch]; rewrite get_rate_step, Hz; reflexivity).
  cbn [SAVE_FILE written user sent now add_replies ud_date ud_name ud_amount
       ud_fee ud_rate].
  erewrite (step_ok MEMBERS END).
  2:{ cbn [dispatch].
      rewrite (get_members_run ms _ m rest d (strip nm) x y z Hm)
        by reflexivity.
      rewrite Zz.
      reflexivity. }
  unfold saved. cbn [SAVE_FILE written user sent now].
  assert (V : forall s u, view (mkWorld (SAVE_FILE w) (written w) u s (now w))
                          = view w).
  { intros s u. unfold view, load_deals. cbn [SAVE_FILE].
    destruct (SAVE_FILE w); reflexivity. }
  rewrite V. fold deal. rewrite <- !app_assoc. reflexivity.
Qed.

Lemma conversation_records_one_deal_witness :
  let w := snd (run (firstn 4 usual) (fresh clock0)) in
  parse_date (now w) (lit " 22/07") = Some (mkdate 2024 7 22)
  /\ py_float (replace_comma (lit "2500")) = Some (of_int 2500)
  /\ py_float (replace_comma (lit "3")) = Some (of_int 3)
  /\ py_float (replace_comma (lit "80")) = Some (of_int 80)
  /\ is_zero (of_int 80) = false
  /\ findall_members (strip (lit "#7, #9")) = [lit "#7"; lit "#9"]
  /\ ud_amount (user w) = Some (of_int 10000)
  /\ view (snd (run (conversation (lit " 22/07") (lit " QR ") (lit "2500")
                       (lit "3") (lit "80") (lit "#7, #9"))
                  (END, w)))
     = view w
       ++ [new_deal (view w) (mkdate 2024 7 22) (lit "QR") (of_int 2500)
             (of_int 3) (of_int 80) [lit "#7"; lit "#9"]].
Proof.
  cbv zeta.
  split; [vm_compute; reflexivity|]. split; [vm_compute; reflexivity|].
  split; [vm_compute; reflexivity|]. split; [vm_compute; reflexivity|].
  split; [vm_compute; reflexivity|]. split; [vm_compute; reflexivity|].
  split; [vm_compute; reflexivity|].
  exact (f_equal (fun s => view (snd s))
           (conversation_records_one_deal
              (snd (run (firstn 4 usual) (fresh clock0)))
              (lit " 22/07") (lit " QR ") (lit "2500") (lit "3") (lit "80")
              (lit "#7, #9") (mkdate 2024 7 22) (of_int 2500) (of_int 3)
              (of_int 80) (lit "#7") [lit "#9"]
              eq_refl eq_refl eq_refl eq_refl eq_refl eq_refl)).
Defined.

End ConversationFacts.

(* ================================================================== *)
(** ** What the handlers change *)

Module EffectFacts.
Import Text Calendar Float64 Bot Spec More CalendarFacts TextFacts FloatFacts
  DateFacts DealFacts LedgerFacts DeleteFacts ConversationFacts.

(** *** Answers that are turned down *)

Lemma rejected_step (st : conv_state) (w : world) (txt : text) :
  rejected (now w) st txt ->
  step (st, w) (Message txt) = (st, add_replies w [complaint st]).
Proof.
  destruct st; cbn [rejected complaint]; intros H; try contradiction;
    apply step_ok; cbn [dispatch].
  - now rewrite get_date_run, H.
  - now rewrite get_amount_run, H.
  - now rewrite get_fee_run, H.
  - now rewrite get_rate_step, H.
  - now rewrite (get_members_none txt w H).
Qed.

(** X2. Answers that a step of the conversation turns down, however many
    in a row, leave the conversation at that step and change neither the
    collected fields nor the ledger: each only gets the complaint of the
    step as reply. *)
Theorem rejected_answers_change_nothing (st : conv_state) (bads : list text) :
  forall w,
    Forall (rejected (now w) st) bads ->
    run (map Message bads) (st, w)
    = (st, add_replies w (map (fun _ => complaint st) bads)).
Proof.
  induction bads as [|t bads IH]; intros w F.
  - cbn. now rewrite add_replies_nil.
  - inversion F as [|? ? Ht F']; subst.
    cbn [map]. change (run (Message t :: map Message bads) (st, w))
      with (run (map Message bads) (step (st, w) (Message t))).
    rewrite (rejected_step st w t Ht), IH by exact F'.
    now rewrite add_replies_app.
Qed.

Lemma rejected_answers_change_nothing_witness :
  Forall (rejected (now (snd (fresh clock0))) AMOUNT)
    [lit "abc"; lit "1.2.3"; lit ""]
  /\ run (map Message [lit "abc"; lit "1.2.3"; lit ""])
       (AMOUNT, snd (fresh clock0))
     = (AMOUNT,
        add_replies (snd (fresh clock0))
          (map (fun _ => complaint AMOUNT) [lit "abc"; lit "1.2.3"; lit ""])).
Proof.
  assert (F : Forall (rejected (now (snd (fresh clock0))) AMOUNT)
                [lit "abc"; lit "1.2.3"; lit ""]).
  { repeat constructor. }
  split; [exact F|].
  exact (rejected_answers_change_nothing AMOUNT _ (snd (fresh clock0)) F).
Defined.

(** *** Handlers that only talk *)

Lemma talks_ret {A} (a : A) : talks (ret a).
Proof. intros w. exists []. now rewrite add_replies_nil. Qed.

Lemma talks_raise {A} (e : exn) : talks (@raise A e).
Proof. intros w. exists []. now rewrite add_replies_nil. Qed.

Lemma talks_reply (r : reply) : is_confirm r = false -> talks (reply_text r).
Proof. intros H w. exists [r]. cbn. now rewrite H. Qed.

Lemma talks_clock : talks get_clock.
Proof. intros w. exists []. now rewrite add_replies_nil. Qed.

Lemma talks_or_raise {A} (e : exn) (o : option A) : talks (or_raise e o).
Proof. destruct o; [apply talks_ret | apply talks_raise]. Qed.

Lemma talks_load : talks load_deals.
Proof.
  intros w. exists []. now rewrite load_deals_view, add_replies_nil.
Qed.

Lemma talks_bind {A B} (m : M A) (k : A -> M B) :
  talks m -> (forall a, talks (k a)) -> talks (bind m k).
Proof.
  intros Hm Hk w. unfold bind. destruct (Hm w) as (rs & E & F).
  destruct (m w) as [[a|e] w1]; cbn [snd] in *; subst w1.
  - destruct (Hk a (add_replies w rs)) as (qs & E' & F').
    exists (rs ++ qs). rewrite E', add_replies_app, forallb_app, F, F'. auto.
  - exists rs. auto.
Qed.

Create HintDb talks.
#[local] Hint Resolve talks_ret talks_raise talks_clock talks_or_raise
  talks_load talks_bind : talks.
#[local] Hint Extern 1 (talks (reply_text _)) =>
  apply talks_reply; reflexivity : talks.
#[local] Hint Extern 2 (talks (match ?x with _ => _ end)) =>
  destruct x : talks.

Lemma talks_show_report (a b : date) (l : label) : talks (show_report a b l).
Proof.
  unfold show_report, filter_deals_by_date_range. auto 10 with talks.
Qed.

#[local] Hint Resolve talks_show_report : talks.

Lemma talks_show_range (args : list text) : talks (show_range args).
Proof. unfold show_range. auto 20 with talks. Qed.

Lemma talks_show_by_date (args : list text) : talks (show_by_date args).
Proof. unfold show_by_date. auto 20 with talks. Qed.

Lemma talks_show_week : talks show_week.
Proof. unfold show_week, tuesday_week_range. auto 20 with talks. Qed.

Lemma talks_date_of (y m d : Z) : talks (date_of y m d).
Proof.
  unfold date_of. destruct (c_int y && c_int m && c_int d); auto with talks.
Qed.

#[local] Hint Resolve talks_date_of : talks.

Lemma talks_show_month (args : list text) : talks (show_month args).
Proof. unfold show_month, month_range. auto 20 with talks. Qed.

Lemma talks_help : talks help_cmd.
Proof. unfold help_cmd. auto with talks. Qed.

Lemma talks_query (c : command) (args : list text) (st : conv_state) :
  is_query c = true -> talks (dispatch st (Command c args)).
Proof.
  destruct c; try discriminate; intros _; cbn [dispatch]; unfold keep;
    auto using talks_bind, talks_ret, talks_help, talks_show_week,
      talks_show_month, talks_show_range, talks_show_by_date.
Qed.

Lemma keep_state (st : conv_state) (m : M unit) (w : world) :
  fst (keep st m w) = Ok st \/ exists e, fst (keep st m w) = Raise e.
Proof.
  unfold keep, bind, ret. destruct (m w) as [[[]|e] w1]; cbn; eauto.
Qed.

Lemma step_query_state (c : command) (args : list text) (st : conv_state)
  (w : world) :
  is_query c = true -> fst (step (st, w) (Command c args)) = st.
Proof.
  intros Q. unfold step. cbn [fst snd].
  assert (K : exists m, dispatch st (Command c args) = keep st m).
  { destruct c; try discriminate; cbn [dispatch]; eauto. }
  destruct K as [m ->].
  destruct (keep_state st m w) as [E | [e E]];
    destruct (keep st m w) as [[s|e'] w1]; cbn [fst] in *; congruence.
Qed.

(** X10. The commands that report and explain (/start, /help, /week,
    /month, /report, /bydate) are read-only, whatever their arguments and
    also when they raise: they leave the conversation where it is, the
    collected fields and the ledger file as they are, write nothing, and
    only send replies, none of which confirms a write. *)
Theorem queries_are_read_only (c : command) (args : list text)
  (st : conv_state) (w : world) :
  is_query c = true ->
  exists rs,
    step (st, w) (Command c args) = (st, add_replies w rs)
    /\ forallb (fun r => negb (is_confirm r)) rs = true.
Proof.
  intros Q. destruct (talks_query c args st Q w) as (rs & E & F).
  exists rs. split; [|exact F].
  pose proof (snd_step (st, w) (Command c args)) as S. cbn [fst snd] in S.
  pose proof (step_query_state c args st w Q) as T.
  destruct (step (st, w) (Command c args)) as [s' w'].
  cbn [fst snd] in *. congruence.
Qed.

Lemma queries_are_read_only_witness :
  is_query CmdMonth = true
  /\ exists rs,
       step (MEMBERS, snd (run usual (fresh clock0)))
         (Command CmdMonth [lit "13"])
       = (MEMBERS, add_replies (snd (run usual (fresh clock0))) rs)
       /\ forallb (fun r => negb (is_confirm r)) rs = true.
Proof.
  split; [reflexivity|].
  exact (queries_are_read_only CmdMonth [lit "13"] MEMBERS
           (snd (run usual (fresh clock0))) eq_refl).
Defined.

End EffectFacts.

(* ================================================================== *)
(** ** The members of a deal *)

Module MemberFacts.
Import Text Spec More TextFacts.

Lemma emit_tokens (cur : option text) (k : list text) :
  (forall ds, cur = Some ds -> Forall (fun c => is_decimal c = true) ds) ->
  Forall member_token k -> Forall member_token (emit cur k).
Proof.
  intros D K. destruct cur as [[|d ds]|]; cbn [emit]; try exact K.
  constructor; [|exact K].
  exists (rev (d :: ds)). split; [reflexivity|]. split.
  - cbn [rev]. intros E. now apply app_eq_nil in E as [_ E].
  - apply Forall_rev. now apply D.
Qed.

Lemma findall_from_tokens (s : text) :
  forall cur,
    (forall ds, cur = Some ds -> Forall (fun c => is_decimal c = true) ds) ->
    Forall member_token (findall_from cur s).
Proof.
  induction s as [|c s IH]; intros cur D; cbn [findall_from].
  - apply emit_tokens; [exact D | constructor].
  - destruct cur as [ds|].
    + destruct (is_decimal c) eqn:Dc.
      * apply IH. intros ds' E. injection E as <-.
        constructor; [exact Dc | now apply D].
      * apply emit_tokens; [exact D|]. apply IH.
        intros ds' E. destruct (c =? 35); [|discriminate].
        injection E as <-. constructor.
    + apply IH. intros ds' E. destruct (c =? 35); [|discriminate].
      injection E as <-. constructor.
Qed.

Lemma findall_tokens (s : text) : Forall member_token (findall_members s).
Proof. apply findall_from_tokens. discriminate. Qed.

(** *** The equations of the scan *)

Lemma findall_skip (c : char) (s : text) :
  c <> 35 -> findall_members (c :: s) = findall_members s.
Proof.
  intros N. unfold findall_members. cbn [findall_from].
  now destruct (Z.eqb_spec c 35).
Qed.

Lemma findall_from_open (s : text) :
  no_digit_ahead s -> forall acc,
    findall_from (Some acc) s = emit (Some acc) (findall_from None s).
Proof.
  destruct s as [|c s]; intros N acc; cbn [findall_from].
  - destruct acc; reflexivity.
  - cbn in N. now rewrite N.
Qed.

Lemma findall_lone_hash (s : text) :
  no_digit_ahead s -> findall_members (35 :: s) = findall_members s.
Proof.
  intros N. unfold findall_members.
  change (findall_from None (35 :: s)) with (findall_from (Some []) s).
  now rewrite (findall_from_open s N).
Qed.

Lemma findall_from_digits (ds : text) :
  forall acc s,
    Forall (fun c => is_decimal c = true) ds ->
    findall_from (Some acc) (ds ++ s) = findall_from (Some (rev ds ++ acc)) s.
Proof.
  induction ds as [|d ds IH]; intros acc s F; cbn [app rev]; [reflexivity|].
  inversion F as [|? ? Hd F']; subst. cbn [findall_from].
  rewrite Hd, IH by exact F'. now rewrite <- app_assoc.
Qed.

Lemma emit_rev (ds : text) (k : list text) :
  ds <> [] -> emit (Some (rev ds)) k = (35 :: ds) :: k.
Proof.
  intros N. destruct (rev ds) as [|d r] eqn:E.
  - apply (f_equal (@rev _)) in E. rewrite rev_involutive in E. contradiction.
  - cbn [emit]. now rewrite <- E, rev_involutive.
Qed.

Lemma findall_member (ds s : text) :
  ds <> [] -> Forall (fun c => is_decimal c = true) ds -> no_digit_ahead s ->
  findall_members (35 :: ds ++ s) = (35 :: ds) :: findall_members s.
Proof.
  intros N F A. unfold findall_members.
  refine (eq_trans (findall_from_digits ds [] s F) _).
  rewrite app_nil_r, (findall_from_open s A). now apply emit_rev.
Qed.

(** Every text is its longest head of decimal digits and a rest. *)
Lemma digits_ahead (s : text) :
  exists ds rest,
    s = ds ++ rest /\ Forall (fun c => is_decimal c = true) ds
    /\ no_digit_ahead rest.
Proof.
  induction s as [|c s (ds & rest & -> & F & N)].
  - exists [], []. repeat split; constructor.
  - destruct (is_decimal c) eqn:D.
    + exists (c :: ds), rest. repeat split; [constructor; assumption | exact N].
    + exists [], (c :: ds ++ rest). repeat split; [constructor | exact D].
Qed.

Lemma findall_scans : scans findall_members.
Proof.
  split; [reflexivity|]. split; [exact findall_skip|].
  split; [exact findall_lone_hash | exact findall_member].
Qed.

Lemma scans_unique (f : text -> list text) :
  scans f -> forall s, f s = findall_members s.
Proof.
  intros (F0 & F1 & F2 & F3) s.
  destruct findall_scans as (G0 & G1 & G2 & G3).
  remember (List.length s) as n eqn:L. revert s L.
  induction n as [n IH] using lt_wf_ind. intros s L.
  unfold text, char in *.
  destruct s as [|c s]; [now rewrite F0, G0|].
  cbn [List.length] in L.
  destruct (Z.eq_dec c 35) as [->|N].
  - destruct (digits_ahead s) as (ds & rest & E & D & A).
    destruct ds as [|d ds]; cbn [app] in E; subst s.
    + unfold text, char in *. rewrite (F2 rest A), (G2 rest A).
      apply (IH (List.length rest)); [lia | reflexivity].
    + unfold text, char in *.
      change (35 :: d :: ds ++ rest) with (35 :: (d :: ds) ++ rest).
      rewrite (F3 (d :: ds) rest), (G3 (d :: ds) rest)
        by (assumption || discriminate).
      f_equal. apply (IH (List.length rest)); [|reflexivity].
      cbn [List.length] in L. rewrite length_app in L. lia.
  - rewrite (F1 c s N), (G1 c s N).
    apply (IH (List.length s)); [lia | reflexivity].
Qed.

Lemma findall_spaced (ms : list text) :
  Forall member_token ms -> findall_members (spaced ms) = ms.
Proof.
  unfold spaced. induction 1 as [|m ms (ds & -> & N & D) F IH];
    cbn [map List.concat]; [reflexivity|].
  rewrite <- app_assoc. cbn [app].
  rewrite findall_member by (assumption || exact eq_refl).
  now rewrite findall_skip, IH by discriminate.
Qed.

(** X3. The members that [get_members] extracts are, in the order of the
    text, its maximal pieces made of "#" and at least one decimal digit
    (of any script): every extracted member has this form; a character
    other than "#" is skipped; a "#" with no digit behind it is skipped;
    a "#" with digits behind it gives the member made of it and of all
    these digits, and the scan goes on behind them, so that members that
    touch, as in "#1#2#3", are told apart. These equations fix the result
    for every text. Members typed one after the other with spaces are
    extracted as typed, repeated ones included. *)
Theorem members_are_hash_digits :
  (forall s, Forall member_token (findall_members s))
  /\ findall_members [] = []
  /\ (forall c s, c <> 35 -> findall_members (c :: s) = findall_members s)
  /\ (forall s,
        no_digit_ahead s -> findall_members (35 :: s) = findall_members s)
  /\ (forall ds s,
        ds <> [] -> Forall (fun c => is_decimal c = true) ds ->
        no_digit_ahead s ->
        findall_members (35 :: ds ++ s) = (35 :: ds) :: findall_members s)
  /\ (forall f, scans f -> forall s, f s = findall_members s)
  /\ (forall ms, Forall member_token ms -> findall_members (spaced ms) = ms).
Proof.
  split; [exact findall_tokens|].
  destruct findall_scans as (G0 & G1 & G2 & G3).
  repeat (split; [assumption|]).
  split; [exact scans_unique | exact findall_spaced].
Qed.

Lemma members_are_hash_digits_witness :
  findall_members (35 :: [49] ++ lit "#2#3") = lit "#1" :: [lit "#2"; lit "#3"]
  /\ findall_members (35 :: [49; 1633; 50] ++ lit " #")
     = [35; 49; 1633; 50] :: []
  /\ Forall member_token [lit "#10"; lit "#12"; lit "#10"]
  /\ findall_members (spaced [lit "#10"; lit "#12"; lit "#10"])
     = [lit "#10"; lit "#12"; lit "#10"].
Proof.
  assert (F : Forall member_token [lit "#10"; lit "#12"; lit "#10"]).
  { repeat constructor.
    - exists (lit "10"). repeat split; [discriminate | repeat constructor].
    - exists (lit "12"). repeat split; [discriminate | repeat constructor].
    - exists (lit "10"). repeat split; [discriminate | repeat constructor]. }
  pose proof members_are_hash_digits as (_ & _ & _ & _ & M & _ & S).
  split; [|split; [|split; [exact F | exact (S _ F)]]].
  - refine (eq_trans (M [49] (lit "#2#3") _ _ _) _);
      [discriminate | repeat constructor | reflexivity|].
    f_equal.
  - refine (eq_trans (M [49; 1633; 50] (lit " #") _ _ _) _);
      [discriminate | repeat constructor | reflexivity|].
    f_equal.
Defined.

End MemberFacts.

(* ================================================================== *)
(** ** What stays true of the world *)

Module InvariantFacts.
Import Text Calendar Float64 Bot Spec More CalendarFacts TextFacts FloatFacts
  DateFacts DealFacts LedgerFacts DeleteFacts ConversationFacts EffectFacts
  MemberFacts.

(** *** Deleting by position *)

Lemma in_enumerate {A} (l : list A) :
  forall k i x,
    In (i, x) (combine (seq k (List.length l)) l) ->
    (k <= i)%nat /\ nth_error l (i - k) = Some x.
Proof.
  induction l as [|a l IH]; intros k i x; cbn [List.length seq combine].
  - intros [].
  - intros [E | I].
    + injection E as <- <-. rewrite Nat.sub_diag. split; [lia | reflexivity].
    + apply IH in I as [L N]. split; [lia|].
      replace (i - k)%nat with (S (i - S k)) by lia. exact N.
Qed.

Lemma length_del_at {A} (l : list A) :
  forall i x,
    nth_error l i = Some x ->
    (List.length (del_at i l) + 1 = List.length l)%nat.
Proof.
  induction l as [|a l IH]; intros [|i] x; cbn; try discriminate.
  - intros _. lia.
  - intros N. specialize (IH i x N). lia.
Qed.

Lemma in_del_at {A} (l : list A) :
  forall i y, In y (del_at i l) -> In y l.
Proof.
  induction l as [|a l IH]; intros [|i] y; cbn; auto.
  intros [<- | I]; [now left | right; eauto].
Qed.

Lemma Forall_del_at {A} (P : A -> Prop) (l : list A) (i : nat) :
  Forall P l -> Forall P (del_at i l).
Proof.
  rewrite !Forall_forall. intros H y I. apply H. eapply in_del_at, I.
Qed.

(** The two ways [delete_deal] can end. *)
Lemma delete_deal_cases (args : list text) (w : world) :
  (exists r, is_confirm r = false
             /\ delete_deal args w = (Ok tt, add_replies w [r]))
  \/ (exists i x,
        nth_error (view w) i = Some x
        /\ delete_deal args w = (Ok tt, saved w (del_at i (view w)) Deleted)).
Proof.
  destruct args as [|a0 [|a1 [|a2 args]]];
    try (left; exists UsageDelete; split; reflexivity).
  destruct (parse_date (now w) a0) as [d|] eqn:P.
  2:{ left. exists BadDateArg. split; [reflexivity|].
      unfold delete_deal. now rewrite bind_clock, P. }
  destruct (py_int a1) as [num|] eqn:I.
  2:{ left. exists IndexNotANumber. split; [reflexivity|].
      unfold delete_deal. now rewrite bind_clock, P, I. }
  rewrite (delete_deal_run w a0 a1 d num P I).
  destruct (filter (matches d num) (enumerate (view w))) as [|[i x] rest] eqn:F.
  - left. exists NotFound. split; reflexivity.
  - right. exists i, x. split; [|reflexivity].
    assert (In (i, x) (filter (matches d num) (enumerate (view w))))
      by (rewrite F; now left).
    apply filter_In in H as [H _]. apply in_enumerate in H as [_ H].
    now rewrite Nat.sub_0_r in H.
Qed.

(** X14. Whatever its arguments, [delete_deal] does not raise and
    removes at most one deal: either it writes nothing and leaves the
    file as it is, or it writes the ledger once with one deal less, the
    other deals kept as they were and in their order. *)
Theorem delete_removes_at_most_one (args : list text) (w : world) :
  exists w',
    delete_deal args w = (Ok tt, w')
    /\ ((SAVE_FILE w' = SAVE_FILE w /\ written w' = written w
         /\ view w' = view w)
        \/ exists i x,
             nth_error (view w) i = Some x
             /\ view w' = del_at i (view w)
             /\ written w' = view w' :: written w
             /\ (List.length (view w') + 1 = List.length (view w))%nat
             /\ forall y, In y (view w') -> In y (view w)).
Proof.
  destruct (delete_deal_cases args w) as [(r & _ & E) | (i & x & N & E)];
    rewrite E; eexists; (split; [reflexivity|]).
  - left. rewrite view_add_replies. auto.
  - right. exists i, x. rewrite view_saved.
    repeat split; auto.
    + now apply length_del_at with (x := x).
    + apply in_del_at.
Qed.

(** *** One update *)

Lemma effect_replies (w : world) (rs : list reply) :
  forallb (fun r => negb (is_confirm r)) rs = true ->
  effect w (add_replies w rs).
Proof. intros F. apply (effect_talk w (user w) rs F). auto. Qed.

Lemma effect_refl (w : world) : effect w w.
Proof. rewrite <- (add_replies_nil w) at 2. now apply effect_replies. Qed.

Lemma snd_keep (st : conv_state) (m : M unit) (w : world) :
  snd (keep st m w) = snd (m w).
Proof. unfold keep, bind, ret. destruct (m w) as [[[]|e] w1]; reflexivity. Qed.

Lemma step_effect (st : conv_state) (u : update) (w : world) :
  effect w (snd (step (st, w) u)).
Proof.
  rewrite snd_step. cbn [fst snd]. destruct u as [txt | c args].
  - destruct st; cbn [dispatch].
    + rewrite get_date_run. destruct (parse_date (now w) txt) as [d|] eqn:P;
        cbn [snd]; [|now apply effect_replies].
      apply effect_talk; [reflexivity|]. cbn [ud_date].
      intros d' E. injection E as <-. right. now exists txt.
    + rewrite get_name_run. cbn [snd]. apply effect_talk; [reflexivity|].
      cbn [ud_date]. auto.
    + rewrite get_amount_run. destruct (py_float _); cbn [snd];
        [|now apply effect_replies].
      apply effect_talk; [reflexivity|]. cbn [ud_date]. auto.
    + rewrite get_fee_run. destruct (py_float _); cbn [snd];
        [|now apply effect_replies].
      apply effect_talk; [reflexivity|]. cbn [ud_date]. auto.
    + rewrite get_rate_step. destruct (py_float _); cbn [snd];
        [|now apply effect_replies].
      apply effect_talk; [reflexivity|]. cbn [ud_date]. auto.
    + destruct (get_members_cases txt w)
        as [(m & ms & d & nm & a & f & r & Hm & U & Zr & E) | [(e & E) | E]];
        rewrite E; cbn [snd].
      * apply effect_create; eauto.
      * apply effect_refl.
      * now apply (effect_replies w [NeedMember]).
    + apply effect_refl.
  - destruct (is_query c) eqn:Q.
    + destruct (talks_query c args st Q w) as (rs & E & F).
      rewrite E. now apply effect_replies.
    + destruct c; try discriminate; cbn [dispatch].
      * destruct st; try apply effect_refl.
        rewrite start_deal_run. now apply effect_replies.
      * destruct st; try apply effect_refl;
          now apply (effect_replies w [Cancelled]).
      * rewrite snd_keep.
        destruct (delete_deal_cases args w) as [(r & C & E) | (i & x & N & E)];
          rewrite E; cbn [snd].
        -- apply effect_replies. cbn. now rewrite C.
        -- now apply effect_delete with (x := x).
Qed.

Lemma run_effect (P : world -> Prop) :
  (forall w w', P w -> effect w w' -> P w') ->
  forall us s, P (snd s) -> P (snd (run us s)).
Proof.
  intros H. induction us as [|u us IH]; intros s Hs; [exact Hs|].
  change (run (u :: us) s) with (run us (step s u)).
  apply IH. destruct s as [st w]. cbn [snd] in Hs.
  apply (H w); [exact Hs | apply step_effect].
Qed.

(** *** Deals are well formed *)

Lemma view_same_file (w w' : world) :
  SAVE_FILE w' = SAVE_FILE w -> view w' = view w.
Proof.
  intros E. unfold view, load_deals. rewrite E.
  destruct (SAVE_FILE w); reflexivity.
Qed.

Lemma new_date_is_valid (y m d : Z) (x : date) :
  new_date y m d = Some x -> valid x.
Proof.
  unfold new_date. destruct (check_date_fields y m d) eqn:C; [|discriminate].
  intros E. injection E as <-. exact C.
Qed.

Lemma parse_date_valid (c : clock) (t : text) (d : date) :
  valid (utc_today c) -> parse_date c t = Some d -> valid d.
Proof.
  intros V. rewrite parse_date_unfold.
  destruct (text_eqb _ _ || text_eqb _ _).
  - intros E. now injection E as <-.
  - unfold numeric_date. destruct (match_day_month _) as [[g1 g2]|];
      [|discriminate].
    destruct (py_int g1); [|discriminate].
    destruct (py_int g2); [|discriminate].
    apply new_date_is_valid.
Qed.

Lemma new_deal_good (deals : ledger) (d : date) (nm : text) (a f r : float)
  (m : text) (ms : list text) :
  valid d -> is_zero r = false -> Forall member_token (m :: ms) ->
  good_deal (new_deal deals d nm a f r (m :: ms)).
Proof.
  intros V Zr T. unfold good_deal, new_deal.
  cbn [date_iso index members rate rub fee clean_rub usd pool share].
  repeat split; auto; try discriminate.
  unfold get_next_index_for_date. cbv zeta. lia.
Qed.

Lemma well_formed_effect (w w' : world) :
  well_formed w -> effect w w' -> well_formed w'.
Proof.
  intros (V & D & G) E. destruct E as [u rs F Hu | d nm a f r m ms U Zr T | i x N].
  - split; [exact V|]. split.
    + cbn [user]. intros d Hd. destruct (Hu d Hd) as [O | [txt P]].
      * now apply D.
      * now apply (parse_date_valid (now w) txt).
    + now rewrite (view_same_file w).
  - split; [exact V|]. split; [exact D|].
    rewrite view_saved. apply Forall_app. split; [exact G|].
    constructor; [|constructor].
    apply new_deal_good; auto.
    + apply D. now rewrite U.
    + destruct T as [txt <-]. apply findall_tokens.
  - split; [exact V|]. split; [exact D|].
    rewrite view_saved. now apply Forall_del_at.
Qed.

Lemma fresh_well_formed (c : clock) :
  valid (utc_today c) -> well_formed (snd (fresh c)).
Proof.
  intros V. split; [exact V|]. split; [discriminate | constructor].
Qed.

(** X11. From a first start with a clock that shows a date, every state
    that updates can lead to has a ledger whose deals all carry a
    calendar date, a number of at least 1, at least one member, every
    member made of "#" and decimal digits (of any script), a rate that is
    not zero, and derived fields computed from their own amount, fee,
    rate and member count. *)
Theorem reachable_deals_are_well_formed (c : clock) (us : list update) :
  valid (utc_today c) ->
  well_formed (snd (run us (fresh c)))
  /\ Forall good_deal (view (snd (run us (fresh c)))).
Proof.
  intros V.
  assert (W : well_formed (snd (run us (fresh c)))).
  { apply (run_effect well_formed well_formed_effect).
    now apply fresh_well_formed. }
  split; [exact W | apply W].
Qed.

Lemma reachable_deals_are_well_formed_witness :
  valid (utc_today clock0)
  /\ Forall good_deal
       (view (snd (run (usual ++ usual
                        ++ [Command CmdDelete [lit "21.07"; lit "1"]]
                        ++ usual)
                     (fresh clock0)))).
Proof.
  split; [reflexivity|].
  exact (proj2 (reachable_deals_are_well_formed clock0 _ eq_refl)).
Defined.

End InvariantFacts.

(* ================================================================== *)
(** ** The report commands *)

Module QueryFacts.
Import Text Calendar Float64 Bot Spec More CalendarFacts TextFacts FloatFacts
  DateFacts RangeFacts DealFacts LedgerFacts DeleteFacts ReportFacts
  ConversationFacts.

(** *** The order of dates, field by field *)

Lemma leb_lex (a b : date) :
  leb a b = true <->
  year a < year b
  \/ (year a = year b
      /\ (month a < month b \/ (month a = month b /\ day a <= day b))).
Proof.
  unfold leb, cmp.
  destruct (Z.compare_spec (year a) (year b));
    destruct (Z.compare_spec (month a) (month b));
    destruct (Z.compare_spec (day a) (day b));
    split; intros; try discriminate; try reflexivity; lia.
Qed.

Lemma eqb_fields (a b : date) :
  eqb a b = true <-> year a = year b /\ month a = month b /\ day a = day b.
Proof.
  rewrite eqb_eq. split; [now intros -> |].
  destruct a, b. cbn. intros (-> & -> & ->). reflexivity.
Qed.

Lemma in_range_one_day (d : date) (x : Deal) :
  in_range d d x = on_date d x.
Proof.
  apply eq_true_iff_eq. unfold in_range, on_date.
  rewrite andb_true_iff, !leb_lex, eqb_fields. lia.
Qed.

Lemma in_range_reversed (d1 d2 : date) (x : Deal) :
  leb d1 d2 = false -> in_range d1 d2 x = false.
Proof.
  intros R. destruct (in_range d1 d2 x) eqn:E; [|reflexivity].
  unfold in_range in E. apply andb_prop in E as [A B].
  assert (T : leb d1 d2 = true) by (rewrite leb_lex in *; lia).
  congruence.
Qed.

Lemma in_range_month (y m : Z) (x : Deal) :
  valid (date_iso x) ->
  in_range (mkdate y m 1) (mkdate y m (days_in_month y m)) x
  = in_month y m x.
Proof.
  intros V. apply valid_fields in V as (_ & _ & D).
  apply eq_true_iff_eq. unfold in_range, in_month.
  rewrite !andb_true_iff, !leb_lex, !Z.eqb_eq. cbn [year month day].
  split.
  - lia.
  - intros [E1 E2]. rewrite E1, E2 in D. lia.
Qed.

Lemma show_by_date_run (a0 : text) (rest : list text) (d : date) (w : world) :
  parse_date (now w) a0 = Some d ->
  show_by_date (a0 :: rest) w
  = (Ok tt,
     add_replies w
       [match filter (on_date d) (view w) with
        | [] => NoDealsOnDate
        | deals => DayList deals
        end]).
Proof.
  intros P. unfold show_by_date. rewrite bind_clock, P, bind_load.
  destruct (filter _ _); reflexivity.
Qed.

Lemma show_range_run (a0 a1 : text) (d1 d2 : date) (w : world) :
  parse_date (now w) a0 = Some d1 -> parse_date (now w) a1 = Some d2 ->
  show_range [a0; a1] w
  = (Ok tt,
     add_replies w
       [match filter (in_range d1 d2) (view w) with
        | [] => NoDealsInPeriod
        | deals => Report (LabelRange d1 d2) (py_sum (map share deals)) deals
        end]).
Proof.
  intros P1 P2. unfold show_range. rewrite bind_clock, P1, P2.
  rewrite show_report_run. destruct (filter _ _); reflexivity.
Qed.

(** X4. /bydate D lists, in storage order, exactly the deals dated D,
    and says so when there is none; arguments behind the first are
    ignored. /report D D selects the same deals. *)
Theorem bydate_is_report_of_one_day (a0 : text) (rest : list text) (d : date)
  (w : world) :
  parse_date (now w) a0 = Some d ->
  let deals := filter (on_date d) (view w) in
  show_by_date (a0 :: rest) w
  = (Ok tt,
     add_replies w
       [match deals with [] => NoDealsOnDate | _ => DayList deals end])
  /\ show_range [a0; a0] w
     = (Ok tt,
        add_replies w
          [match deals with
           | [] => NoDealsInPeriod
           | _ => Report (LabelRange d d) (py_sum (map share deals)) deals
           end])
  /\ (forall x, In x deals <-> In x (view w) /\ date_iso x = d).
Proof.
  intros P deals. split; [|split].
  - rewrite (show_by_date_run a0 rest d w P). fold deals.
    destruct deals; reflexivity.
  - rewrite (show_range_run a0 a0 d d w P P).
    rewrite (filter_ext _ _ (in_range_one_day d)). fold deals.
    destruct deals; reflexivity.
  - intros x. unfold deals. rewrite filter_In, on_date_true. tauto.
Qed.

Lemma bydate_is_report_of_one_day_witness :
  let w := snd (run (usual ++ usual) (fresh clock0)) in
  parse_date (now w) (lit "21/7") = Some (mkdate 2024 7 21)
  /\ keys (filter (on_date (mkdate 2024 7 21)) (view w))
     = [(mkdate 2024 7 21, 1); (mkdate 2024 7 21, 2)]
  /\ show_by_date [lit "21/7"; lit "x"] w
     = (Ok tt,
        add_replies w
          [match filter (on_date (mkdate 2024 7 21)) (view w) with
           | [] => NoDealsOnDate
           | _ => DayList (filter (on_date (mkdate 2024 7 21)) (view w))
           end]).
Proof.
  cbv zeta. split; [reflexivity|]. split; [vm_compute; reflexivity|].
  exact (proj1 (bydate_is_report_of_one_day (lit "21/7") [lit "x"]
                  (mkdate 2024 7 21)
                  (snd (run (usual ++ usual) (fresh clock0))) eq_refl)).
Defined.

(** X5. /report with a first date behind the second reports no deals,
    whatever the ledger holds: the dates are not swapped. *)
Theorem reversed_range_reports_nothing (a0 a1 : text) (d1 d2 : date)
  (w : world) :
  parse_date (now w) a0 = Some d1 -> parse_date (now w) a1 = Some d2 ->
  leb d1 d2 = false ->
  show_range [a0; a1] w = (Ok tt, add_replies w [NoDealsInPeriod])
  /\ filter (in_range d1 d2) (view w) = [].
Proof.
  intros P1 P2 R.
  assert (E : filter (in_range d1 d2) (view w) = []).
  { apply filter_nil_iff. intros x _. now apply in_range_reversed. }
  split; [|exact E]. now rewrite (show_range_run a0 a1 d1 d2 w P1 P2), E.
Qed.

Lemma reversed_range_reports_nothing_witness :
  let w := snd (run usual (fresh clock0)) in
  parse_date (now w) (lit "25.07") = Some (mkdate 2024 7 25)
  /\ parse_date (now w) (lit "20.07") = Some (mkdate 2024 7 20)
  /\ leb (mkdate 2024 7 25) (mkdate 2024 7 20) = false
  /\ List.length (view w) = 1%nat
  /\ show_range [lit "25.07"; lit "20.07"] w
     = (Ok tt, add_replies w [NoDealsInPeriod]).
Proof.
  cbv zeta. split; [reflexivity|]. split; [reflexivity|].
  split; [reflexivity|]. split; [vm_compute; reflexivity|].
  exact (proj1 (reversed_range_reports_nothing (lit "25.07") (lit "20.07")
                  (mkdate 2024 7 25) (mkdate 2024 7 20)
                  (snd (run usual (fresh clock0))) eq_refl eq_refl eq_refl)).
Defined.

End QueryFacts.

(* ================================================================== *)
(** ** The week and the month of a report *)

Module PeriodFacts.
Import Text Calendar Float64 Bot Spec More CalendarFacts TextFacts FloatFacts
  DateFacts RangeFacts DealFacts LedgerFacts DeleteFacts ReportFacts
  ConversationFacts QueryFacts.

Lemma tuesday_of_spec (r : date) :
  tuesday_of r mod 7 = 2 /\ tuesday_of r <= toordinal r <= tuesday_of r + 6.
Proof. unfold tuesday_of, weekday. div_lia. Qed.

Lemma week_of (r : date) (w : world) :
  valid r -> 2 <= toordinal r <= MAXORDINAL - 4 ->
  tuesday_week_range (Some r) w
  = (Ok (fromordinal (tuesday_of r), fromordinal (tuesday_of r + 6)), w)
  /\ 2 <= tuesday_of r /\ tuesday_of r + 6 <= MAXORDINAL - 4.
Proof.
  intros V R. pose proof (tuesday_of_spec r) as [T B].
  unfold MAXORDINAL in *.
  assert (L : 2 <= tuesday_of r /\ tuesday_of r + 6 <= 3652059 - 4)
    by div_lia.
  split; [|exact L].
  rewrite tuesday_week_range_unfold. unfold sub_days.
  destruct (add_days_some r (- ((weekday r - 1) mod 7)) V)
    as (start & E1 & V1 & O1).
  { fold (tuesday_of r). unfold tuesday_of in *. unfold MAXORDINAL. lia. }
  rewrite E1.
  destruct (add_days_some start 6 V1) as (stop & E2 & V2 & O2).
  { rewrite O1. unfold tuesday_of in *. unfold MAXORDINAL. lia. }
  rewrite E2.
  assert (S1 : start = fromordinal (tuesday_of r)).
  { apply toordinal_inj; auto.
    - apply ord_roundtrip. unfold MAXORDINAL. lia.
    - rewrite (proj2 (ord_roundtrip (tuesday_of r)
                        ltac:(unfold MAXORDINAL; lia))).
      rewrite O1. unfold tuesday_of. lia. }
  assert (S2 : stop = fromordinal (tuesday_of r + 6)).
  { apply toordinal_inj; auto.
    - apply ord_roundtrip. unfold MAXORDINAL. lia.
    - rewrite (proj2 (ord_roundtrip (tuesday_of r + 6)
                        ltac:(unfold MAXORDINAL; lia))).
      rewrite O2, O1. unfold tuesday_of. lia. }
  now rewrite S1, S2.
Qed.

Lemma tuesday_of_same_week (r r' : date) :
  tuesday_of r <= toordinal r' <= tuesday_of r + 6 ->
  tuesday_of r' = tuesday_of r.
Proof.
  pose proof (tuesday_of_spec r) as [T _].
  unfold tuesday_of, weekday in *. intros B. div_lia.
Qed.

(** X6. The payroll week is the same for every day in it: from 0001-01-02
    to 9999-12-27, every date inside the window of a reference date has
    that same window, and [show_week] reports on the window of the
    current UTC date, which holds every deal dated today. *)
Theorem week_window_is_shared (r r' : date) (w : world) (s e : date) :
  valid r -> 2 <= toordinal r <= MAXORDINAL - 4 -> valid r' ->
  tuesday_week_range (Some r) w = (Ok (s, e), w) ->
  leb s r' = true -> leb r' e = true ->
  tuesday_week_range (Some r') w = (Ok (s, e), w)
  /\ (r' = utc_today (now w) ->
      show_week w = show_report s e LabelWeek w
      /\ forall x, date_iso x = r' -> in_range s e x = true).
Proof.
  intros V R V' E Ls Le.
  destruct (week_of r w V R) as (E0 & L1 & L2). rewrite E0 in E.
  injection E as <- <-.
  assert (Rs : 1 <= tuesday_of r <= MAXORDINAL) by lia.
  assert (Re : 1 <= tuesday_of r + 6 <= MAXORDINAL) by lia.
  destruct (ord_roundtrip _ Rs) as [Vs Os].
  destruct (ord_roundtrip _ Re) as [Ve Oe].
  apply leb_le in Ls; auto. apply leb_le in Le; auto.
  unfold le in Ls, Le. rewrite Os in Ls. rewrite Oe in Le.
  assert (R' : 2 <= toordinal r' <= MAXORDINAL - 4) by lia.
  destruct (week_of r' w V' R') as (E' & _ & _).
  rewrite (tuesday_of_same_week r r') in E' by lia.
  split; [exact E'|].
  intros T. split.
  - unfold show_week, bind. unfold tuesday_week_range at 1.
    rewrite bind_clock. cbv beta. rewrite <- T.
    change (bind _ _ w) with (tuesday_week_range (Some r') w).
    now rewrite E'.
  - intros x Hx. unfold in_range. rewrite Hx.
    apply andb_true_iff. split; apply leb_le; auto; unfold le; lia.
Qed.

Lemma week_window_is_shared_witness :
  let w := snd (run usual (fresh clock0)) in
  valid (mkdate 2024 7 18)
  /\ 2 <= toordinal (mkdate 2024 7 18) <= MAXORDINAL - 4
  /\ valid (mkdate 2024 7 21)
  /\ tuesday_week_range (Some (mkdate 2024 7 18)) w
     = (Ok (mkdate 2024 7 16, mkdate 2024 7 22), w)
  /\ leb (mkdate 2024 7 16) (mkdate 2024 7 21) = true
  /\ leb (mkdate 2024 7 21) (mkdate 2024 7 22) = true
  /\ tuesday_week_range (Some (mkdate 2024 7 21)) w
     = (Ok (mkdate 2024 7 16, mkdate 2024 7 22), w).
Proof.
  cbv zeta.
  split; [reflexivity|]. split; [vm_compute; split; discriminate|].
  split; [reflexivity|]. split; [vm_compute; reflexivity|].
  split; [reflexivity|]. split; [reflexivity|].
  refine (proj1 (week_window_is_shared (mkdate 2024 7 18) (mkdate 2024 7 21)
                   (snd (run usual (fresh clock0)))
                   (mkdate 2024 7 16) (mkdate 2024 7 22)
                   eq_refl _ eq_refl _ eq_refl eq_refl)).
  - vm_compute. split; discriminate.
  - vm_compute. reflexivity.
Defined.

Lemma date_result_bad_month (y m d : Z) :
  ~ (1 <= m <= 12) -> c_int y = true -> c_int d = true ->
  date_result y m d = Raise (if c_int m then ValueError else OverflowError).
Proof.
  intros N Y D. unfold date_result. rewrite Y, D.
  destruct (c_int m); cbn [andb]; [|reflexivity].
  unfold new_date, check_date_fields.
  destruct (Z.leb_spec 1 m), (Z.leb_spec m 12);
    rewrite ?andb_false_r; cbn; try reflexivity; lia.
Qed.

Lemma valid_year_c_int (x : date) : valid x -> c_int (year x) = true.
Proof.
  intros V. apply valid_fields in V as (Y & _).
  unfold MINYEAR, MAXYEAR in Y. unfold c_int.
  apply andb_true_iff. rewrite !Z.leb_le. lia.
Qed.

(** X7. /month with an argument of digits that is no month from 1 to 12
    raises, sends no reply and changes nothing: [ValueError] when [int]
    does not read the digits (a superscript two is a digit for
    [isdigit] and none for [int]) and when the number is 0 or from 13 to
    2^31 - 1, [OverflowError] when the number does not fit a C int, from
    2^31 on. *)
Theorem month_out_of_range_raises (a0 : text) (rest : list text)
  (st : conv_state) (w : world) :
  isdigit a0 = true -> valid (utc_today (now w)) ->
  (forall m, py_int a0 = Some m -> ~ (1 <= m <= 12)) ->
  let e := match py_int a0 with
           | Some m => if c_int m then ValueError else OverflowError
           | None => ValueError
           end in
  show_month (a0 :: rest) w = (Raise e, w)
  /\ step (st, w) (Command CmdMonth (a0 :: rest)) = (st, w).
Proof.
  intros D V N e.
  assert (E : show_month (a0 :: rest) w = (Raise e, w)).
  { unfold e. destruct (py_int a0) as [m|] eqn:I.
    - rewrite (show_month_run a0 rest m w D I). unfold bind.
      rewrite month_range_unfold.
      rewrite (date_result_bad_month _ m 1 (N m eq_refl)
                 (valid_year_c_int _ V) eq_refl).
      reflexivity.
    - unfold show_month. rewrite D, I. reflexivity. }
  split; [exact E|].
  apply step_raise with (e := e). cbn [dispatch].
  unfold keep, bind. now rewrite E.
Qed.

Lemma month_out_of_range_raises_witness :
  let w := snd (run usual (fresh clock0)) in
  isdigit (lit "13") = true /\ isdigit (lit "2147483648") = true
  /\ isdigit [178] = true /\ valid (utc_today (now w))
  /\ py_int (lit "13") = Some 13
  /\ py_int (lit "2147483648") = Some 2147483648
  /\ py_int [178] = None
  /\ show_month [lit "13"] w = (Raise ValueError, w)
  /\ show_month [lit "2147483648"] w = (Raise OverflowError, w)
  /\ show_month [[178]] w = (Raise ValueError, w).
Proof.
  cbv zeta.
  split; [reflexivity|]. split; [reflexivity|]. split; [reflexivity|].
  split; [reflexivity|]. split; [reflexivity|]. split; [reflexivity|].
  split; [reflexivity|]. split; [|split].
  - refine (proj1 (month_out_of_range_raises (lit "13") [] END
                     (snd (run usual (fresh clock0))) eq_refl eq_refl _)).
    intros m E. vm_compute in E. injection E as E. subst m. lia.
  - refine (proj1 (month_out_of_range_raises (lit "2147483648") [] END
                     (snd (run usual (fresh clock0))) eq_refl eq_refl _)).
    intros m E. vm_compute in E. injection E as E. subst m. lia.
  - refine (proj1 (month_out_of_range_raises [178] [] END
                     (snd (run usual (fresh clock0))) eq_refl eq_refl _)).
    intros m E. discriminate E.
Defined.

(** X8. /month M with a month from 1 to 12 reports, in storage order,
    exactly the deals whose date is in the month M of the current UTC
    year, and says that there are none when there is none. *)
Theorem month_report_selects_month (a0 : text) (rest : list text) (m : Z)
  (w : world) :
  isdigit a0 = true -> py_int a0 = Some m -> 1 <= m <= 12 ->
  valid (utc_today (now w)) ->
  Forall (fun x => valid (date_iso x)) (view w) ->
  let deals := filter (in_month (year (utc_today (now w))) m) (view w) in
  show_month (a0 :: rest) w
  = (Ok tt,
     add_replies w
       [match deals with
        | [] => NoDealsInPeriod
        | _ => Report (LabelMonth m) (py_sum (map share deals)) deals
        end]).
Proof.
  intros D I Mo V F deals.
  apply valid_fields in V as (Y & _ & _).
  rewrite (show_month_run a0 rest m w D I). unfold bind.
  rewrite (month_range_bounds _ m w Y Mo). cbn [fst snd].
  rewrite show_report_run.
  assert (E : filter (in_range (mkdate (year (utc_today (now w))) m 1)
                        (mkdate (year (utc_today (now w))) m
                           (days_in_month (year (utc_today (now w))) m)))
                (view w) = deals).
  { apply filter_ext_in. intros x Hx. apply in_range_month.
    rewrite Forall_forall in F. now apply F. }
  rewrite E. destruct deals; reflexivity.
Qed.

Lemma month_report_selects_month_witness :
  let w := snd (run (usual ++ usual) (fresh clock0)) in
  isdigit (lit "07") = true /\ py_int (lit "07") = Some 7 /\ 1 <= 7 <= 12
  /\ valid (utc_today (now w))
  /\ Forall (fun x => valid (date_iso x)) (view w)
  /\ keys (filter (in_month 2024 7) (view w))
     = [(mkdate 2024 7 21, 1); (mkdate 2024 7 21, 2)]
  /\ show_month [lit "07"] w
     = (Ok tt,
        add_replies w
          [match filter (in_month (year (utc_today (now w))) 7) (view w) with
           | [] => NoDealsInPeriod
           | _ =>
               Report (LabelMonth 7)
                 (py_sum
                    (map share
                       (filter (in_month (year (utc_today (now w))) 7)
                          (view w))))
                 (filter (in_month (year (utc_today (now w))) 7) (view w))
           end]).
Proof.
  cbv zeta.
  assert (F : Forall (fun x => valid (date_iso x))
                (view (snd (run (usual ++ usual) (fresh clock0))))).
  { vm_compute. repeat constructor. }
  split; [reflexivity|]. split; [reflexivity|]. split; [lia|].
  split; [reflexivity|]. split; [exact F|].
  split; [vm_compute; reflexivity|].
  refine (month_report_selects_month (lit "07") [] 7
            (snd (run (usual ++ usual) (fresh clock0)))
            eq_refl eq_refl _ eq_refl F).
  lia.
Defined.

End PeriodFacts.


(* ================================================================== *)
(** ** Recording and deleting again; whole numbers *)

Module RoundTripFacts.
Import Text Calendar Float64 Bot Spec More CalendarFacts TextFacts FloatFacts
  DateFacts DealFacts LedgerFacts DeleteFacts ConversationFacts.

Lemma dense_index_bound (deals : ledger) (d : date) (y : Deal) :
  dense deals -> In y deals -> date_iso y = d ->
  1 <= index y <= Z.of_nat (List.length (filter (on_date d) deals)).
Proof.
  intros D I E.
  assert (F : In y (filter (on_date d) deals)).
  { apply filter_In. split; [exact I | now apply on_date_true]. }
  apply (in_map index) in F. rewrite (D d) in F.
  apply in_map_iff in F as (k & Ek & Hk). apply in_seq in Hk. lia.
Qed.

(** X9. Recording a deal and deleting it by its date and number gives the
    ledger back, when the days of the ledger were numbered 1, 2, 3, ...:
    the number of the new deal is then carried by no other deal of its
    day. *)
Theorem record_then_delete_restores (txt a0 a1 : text) (d : date)
  (w w1 : world) :
  dense (view w) ->
  get_members txt w = (Ok END, w1) ->
  ud_date (user w) = Some d ->
  parse_date (now w) a0 = Some d ->
  py_int a1 = Some (get_next_index_for_date (view w) d) ->
  view w1 <> view w
  /\ delete_deal [a0; a1] w1 = (Ok tt, saved w1 (view w) Deleted).
Proof.
  intros D G U P I.
  destruct (get_members_cases txt w)
    as [(m & ms & d' & nm & a & f & r & _ & U' & _ & E) | [(e & E) | E]];
    rewrite E in G; try discriminate.
  injection G as <-. rewrite U' in U. cbn [ud_date] in U. injection U as ->.
  set (deal := new_deal (view w) d nm a f r (m :: ms)) in *.
  rewrite view_saved. split.
  { intros V. apply (f_equal (@List.length Deal)) in V.
    rewrite length_app in V. cbn [List.length] in V. lia. }
  rewrite (delete_deal_run (saved w (view w ++ [deal]) _) a0 a1 d _ P I).
  rewrite view_saved.
  assert (K : has_key d (get_next_index_for_date (view w) d) deal)
    by (split; reflexivity).
  assert (N : forall y, In y (view w) ->
                        ~ has_key d (get_next_index_for_date (view w) d) y).
  { intros y Hy [Ed Ei].
    pose proof (dense_index_bound (view w) d y D Hy Ed) as B.
    unfold get_next_index_for_date in Ei. cbv zeta in Ei. lia. }
  unfold enumerate.
  destruct (filter_enumerate_first d _ (view w) deal [] K N O) as [more F].
  rewrite F, Nat.add_0_l, del_at_app, app_nil_r. reflexivity.
Qed.

Lemma record_then_delete_restores_witness :
  let w := snd (run (usual ++ firstn 6 usual) (fresh clock0)) in
  let w1 := snd (get_members (lit "#10 #12") w) in
  dense (view w)
  /\ get_members (lit "#10 #12") w = (Ok END, w1)
  /\ ud_date (user w) = Some (mkdate 2024 7 21)
  /\ parse_date (now w) (lit "21.07") = Some (mkdate 2024 7 21)
  /\ py_int (lit "2")
     = Some (get_next_index_for_date (view w) (mkdate 2024 7 21))
  /\ delete_deal [lit "21.07"; lit "2"] w1 = (Ok tt, saved w1 (view w) Deleted).
Proof.
  cbv zeta.
  set (w := snd (run (usual ++ firstn 6 usual) (fresh clock0))).
  assert (D : dense (view w)).
  { apply (run_grows (usual ++ firstn 6 usual) (fresh clock0));
      [reflexivity | exact dense_nil]. }
  assert (G : get_members (lit "#10 #12") w
              = (Ok END, snd (get_members (lit "#10 #12") w)))
    by (vm_compute; reflexivity).
  assert (U : ud_date (user w) = Some (mkdate 2024 7 21))
    by (vm_compute; reflexivity).
  assert (P : parse_date (now w) (lit "21.07") = Some (mkdate 2024 7 21))
    by (vm_compute; reflexivity).
  assert (I : py_int (lit "2")
              = Some (get_next_index_for_date (view w) (mkdate 2024 7 21)))
    by (vm_compute; reflexivity).
  split; [exact D|]. split; [exact G|]. split; [exact U|].
  split; [exact P|]. split; [exact I|].
  exact (proj2 (record_then_delete_restores (lit "#10 #12") (lit "21.07")
                  (lit "2") (mkdate 2024 7 21) w _ D G U P I)).
Defined.

(** *** Whole numbers *)

Lemma to_ascii_digits (s : text) :
  Forall (fun c => isdigit_char c = true) s -> to_ascii s = s.
Proof.
  intros F. unfold to_ascii.
  replace (forallb (fun c => c <? 128) s) with true; [reflexivity|].
  symmetry. apply forallb_forall. intros c I.
  rewrite Forall_forall in F. specialize (F c I).
  apply isdigit_char_range in F. apply Z.ltb_lt. lia.
Qed.

Lemma replace_comma_digits (s : text) :
  Forall (fun c => isdigit_char c = true) s -> replace_comma s = s.
Proof.
  unfold replace_comma. induction 1 as [|c s Hc F IH]; cbn [map];
    [reflexivity|].
  apply isdigit_char_range in Hc.
  destruct (Z.eqb_spec c 44); [lia|]. now rewrite IH.
Qed.

Lemma of_digits_from (ds : list Z) :
  forall n,
    0 <= n -> Forall (fun d => 0 <= d) ds ->
    0 <= fold_left (fun n d => 10 * n + d) ds n.
Proof.
  induction ds as [|d ds IH]; intros n Hn F; cbn [fold_left]; [exact Hn|].
  inversion F; subst. apply IH; [lia | assumption].
Qed.

Lemma digit_values_nonneg (s : text) :
  Forall (fun c => isdigit_char c = true) s ->
  Forall (fun d => 0 <= d) (map digit_value s).
Proof.
  induction 1 as [|c s Hc F IH]; cbn [map]; constructor; [|exact IH].
  apply isdigit_char_range in Hc. unfold digit_value. lia.
Qed.

Lemma of_decimal_whole (n : Z) : 0 <= n -> of_decimal false n 0 = of_int n.
Proof.
  destruct n as [|p|p]; try lia; intros _; [reflexivity|].
  unfold of_decimal, of_int, binary_normalize.
  change (0 <=? 0) with true. cbv iota.
  change (Z.to_pos (10 ^ 0)) with 1%positive. now rewrite Pos.mul_1_r.
Qed.

Lemma not_a_word (c : char) (s : text) (word : string) (k : char)
  (rest : text) :
  isdigit_char c = true -> lit word = k :: rest -> 57 < k ->
  text_eqb (lower_c (c :: s)) (lit word) = false.
Proof.
  intros Hc -> Hk. apply isdigit_char_range in Hc.
  unfold lower_c. cbn [map text_eqb]. unfold within.
  destruct (Z.leb_spec 65 c); [lia|]. cbn [andb].
  destruct (Z.eqb_spec c k); [lia | reflexivity].
Qed.

Lemma py_int_digits (c : char) (s : text) :
  Forall (fun c => isdigit_char c = true) (c :: s) ->
  Z.of_nat (List.length (c :: s)) <= MAX_STR_DIGITS ->
  py_int (c :: s) = Some (of_digits (map digit_value (c :: s))).
Proof.
  intros F L. unfold py_int.
  rewrite (to_ascii_digits _ F), (trim_digits _ F).
  inversion F as [|? ? Hc F']; subst.
  rewrite sign_digit by exact Hc. rewrite digitpart_digits by exact F.
  rewrite length_map. apply Z.leb_le in L. now rewrite L.
Qed.

Lemma py_int_long (c : char) (s : text) :
  Forall (fun c => isdigit_char c = true) (c :: s) ->
  MAX_STR_DIGITS < Z.of_nat (List.length (c :: s)) ->
  py_int (c :: s) = None.
Proof.
  intros F L. unfold py_int.
  rewrite (to_ascii_digits _ F), (trim_digits _ F).
  inversion F as [|? ? Hc F']; subst.
  rewrite sign_digit by exact Hc. rewrite digitpart_digits by exact F.
  rewrite length_map. apply Z.leb_gt in L. now rewrite L.
Qed.

Lemma py_float_digits (c : char) (s : text) :
  Forall (fun c => isdigit_char c = true) (c :: s) ->
  py_float (replace_comma (c :: s))
  = Some (of_int (of_digits (map digit_value (c :: s)))).
Proof.
  intros F. rewrite replace_comma_digits by exact F.
  unfold py_float. rewrite (to_ascii_digits _ F), (trim_digits _ F).
  inversion F as [|? ? Hc F']; subst.
  rewrite sign_digit by exact Hc.
  rewrite (not_a_word c s "inf" 105 (lit "nf") Hc eq_refl) by lia.
  rewrite (not_a_word c s "infinity" 105 (lit "nfinity") Hc eq_refl) by lia.
  rewrite (not_a_word c s "nan" 110 (lit "an") Hc eq_refl) by lia.
  cbn [orb]. unfold mantissa. rewrite digitpart_digits by exact F.
  cbn [exponent]. rewrite Z.sub_0_r, of_decimal_whole; [reflexivity|].
  apply of_digits_from; [lia | now apply digit_values_nonneg].
Qed.

(** X13. An amount, a fee or a rate typed as a whole number (digits 0-9
    only) is never turned down and is stored as the float nearest to that
    integer, the integer that [int] reads from the same text when it has
    no more digits than [int] converts. *)
Theorem whole_number_is_read_as_integer (c : char) (s : text) (w : world) :
  Forall (fun c => isdigit_char c = true) (c :: s) ->
  let n := of_digits (map digit_value (c :: s)) in
  0 <= n
  /\ (Z.of_nat (List.length (c :: s)) <= MAX_STR_DIGITS ->
      py_int (c :: s) = Some n)
  /\ (MAX_STR_DIGITS < Z.of_nat (List.length (c :: s)) ->
      py_int (c :: s) = None)
  /\ py_float (replace_comma (c :: s)) = Some (of_int n)
  /\ fst (get_amount (c :: s) w) = Ok FEE
  /\ ud_amount (user (snd (get_amount (c :: s) w))) = Some (of_int n)
  /\ fst (get_fee (c :: s) w) = Ok RATE
  /\ ud_fee (user (snd (get_fee (c :: s) w))) = Some (of_int n)
  /\ fst (get_rate (c :: s) w) = Ok MEMBERS
  /\ ud_rate (user (snd (get_rate (c :: s) w))) = Some (of_int n).
Proof.
  intros F n.
  pose proof (py_float_digits c s F) as E. fold n in E.
  split; [apply of_digits_from; [lia | now apply digit_values_nonneg]|].
  split; [now apply py_int_digits|]. split; [now apply py_int_long|].
  split; [exact E|].
  rewrite get_amount_run, get_fee_run, get_rate_step, E. cbn.
  repeat split.
Qed.

Lemma whole_number_is_read_as_integer_witness :
  Forall (fun c => isdigit_char c = true) (lit "10000")
  /\ py_int (lit "10000") = Some 10000
  /\ py_float (replace_comma (lit "10000")) = Some (of_int 10000)
  /\ ud_amount (user (snd (get_amount (lit "10000") (snd (fresh clock0)))))
     = Some (of_int 10000).
Proof.
  assert (F : Forall (fun c => isdigit_char c = true) (lit "10000")).
  { repeat constructor. }
  split; [exact F|].
  pose proof (whole_number_is_read_as_integer 49 (lit "0000")
                (snd (fresh clock0)) F) as T.
  cbv zeta in T. destruct T as (_ & T1 & _ & T2 & _ & T3 & _).
  split; [apply T1; vm_compute; discriminate|].
  split; [exact T2 | exact T3].
Defined.

End RoundTripFacts.
